(** * fix_unused_vars.py: a shallow embedding and its properties

    The script runs the build of the project, collects the TS6133
    diagnostics (a name is declared but never read) from its output and
    silences each of them by rewriting the referenced source line so that the
    name carries an underscore.

    Conventions of the model.
    - Text is a [string] of 8-bit characters read as the code points 0..255;
      the classes [\d], [\s] and [\w] are those of Python's [re] for [str]
      patterns on these code points.
    - A regular expression is an abstract syntax tree, and the matcher is a
      backtracking matcher with the priorities of [re]: the left alternative
      first, greedy repetition, the leftmost match, no overlap.
    - The identifier is spliced into patterns and replacements as literal
      text. That is what the formatted strings of the script denote when the
      identifier is made of word characters ([plain_identifier]); the
      theorems about the rewrite patterns carry that hypothesis.
    - The literal of the Destructuring pattern (line 59) is not a well formed
      formatted string: see [FString] and the theorem on [pattern_literals].
      The model gives the pattern the meaning its comment and its replacement
      describe, which is the meaning of the literal once its opening brace is
      doubled the way line 57 doubles its closing brace. All statements about
      what the functions do are about the script read this way.
    - The file system maps a resolved path to the text of the file.
      [open(p, 'r')] and [open(p, 'w')] are the text modes of a POSIX host:
      universal newlines when reading, LF written as LF. A path is the
      text [pathlib] composes for it ([join_path]); directories, symbolic
      links, permissions and encodings are not modelled.
    - The build is a parameter: any function from the state of the run to
      the combined text of standard output and standard error.
    - [int] is the mathematical value of a string of decimal digits.
    - Console, file system and exceptions are threaded through a state and
      exception monad; two ghost logs record the files written and the calls
      of the Line Patcher. *)

From Stdlib Require Import String Ascii List ZArith NArith Lia Bool Arith.
From Stdlib Require Import DecimalString Permutation Sorted.
Import ListNotations.
Open Scope string_scope.

(** ** Characters and strings *)

Module Text.

Definition code (c : ascii) : N := N_of_ascii c.

Definition in_range (lo hi : N) (c : ascii) : bool :=
  ((lo <=? code c) && (code c <=? hi))%N.

(** [\d]: the decimal digits. *)
Definition is_digit (c : ascii) : bool := in_range 48 57 c.

(** [\s]: tab, LF, VT, FF, CR, the separators 0x1c-0x1f, space, NEL, NBSP. *)
Definition is_space (c : ascii) : bool :=
  in_range 9 13 c || in_range 28 32 c || (code c =? 133)%N || (code c =? 160)%N.

(** [\w]: alphanumeric code points and the underscore. *)
Definition is_word (c : ascii) : bool :=
  in_range 97 122 c || in_range 65 90 c || is_digit c || (code c =? 95)%N
  || (code c =? 170)%N || in_range 178 179 c || (code c =? 181)%N
  || in_range 185 186 c || in_range 188 190 c
  || in_range 192 214 c || in_range 216 246 c || in_range 248 255 c.

Definition LF : ascii := "010"%char.
Definition CR : ascii := "013"%char.
Definition nl : string := String LF "".

Definition all_chars (f : ascii -> bool) (s : string) : bool :=
  forallb f (list_ascii_of_string s).

Definition is_not (c : ascii) : ascii -> bool := fun d => negb (Ascii.eqb d c).

(** An identifier made of word characters only: spliced into a pattern or
    a replacement template it stands for itself. *)
Definition plain_identifier (s : string) : bool :=
  negb (String.eqb s "") && all_chars is_word s.

(** [needle in hay] *)
Fixpoint contains (needle hay : string) : bool :=
  String.prefix needle hay ||
  match hay with
  | "" => false
  | String _ hay' => contains needle hay'
  end.

(** [int(s)] for a string of decimal digits. *)
Definition digit_value (c : ascii) : Z := Z.of_N (code c) - 48.

Definition py_int (s : string) : Z :=
  fold_left (fun acc c => (10 * acc + digit_value c)%Z)
            (list_ascii_of_string s) 0%Z.

(** [str(n)] for a natural number. *)
Definition str_of_nat (n : nat) : string := NilZero.string_of_uint (Nat.to_uint n).

(** Order of [str] values: lexicographic on code points. *)
Fixpoint str_ltb (a b : string) : bool :=
  match a, b with
  | "", "" => false
  | "", String _ _ => true
  | String _ _, "" => false
  | String c a', String d b' =>
      (code c <? code d)%N || (Ascii.eqb c d && str_ltb a' b')
  end.

Definition str_leb (a b : string) : bool := negb (str_ltb b a).

End Text.
Import Text.

(** ** Regular expressions *)

Module Re.

(** The fragment of [re] syntax the script uses. Repetition is only ever
    applied to a single-character set. *)
Inductive regex : Type :=
| Lit (s : string)                 (* literal text *)
| Cls (f : ascii -> bool)          (* one character of a set *)
| Star (f : ascii -> bool)         (* [set*], greedy *)
| WordB                            (* [\b] *)
| Seq (r1 r2 : regex)
| Alt (r1 r2 : regex)              (* [r1|r2] *)
| Group (n : nat) (r : regex).     (* capturing group number n *)

(** [set+], greedy. *)
Definition Plus (f : ascii -> bool) : regex := Seq (Cls f) (Star f).

Fixpoint seq (rs : list regex) : regex :=
  match rs with
  | [] => Lit ""
  | [r] => r
  | r :: rs' => Seq r (seq rs')
  end.

Definition captures : Type := list (nat * string).

(** Matcher state: the character before the cursor, the text from the
    cursor on, and the groups closed so far (most recent first). *)
Record mstate : Type := MState {
  prev : option ascii;
  rest : string;
  caps : captures
}.

Definition word_at (o : option ascii) : bool :=
  match o with Some c => is_word c | None => false end.

Definition next_char (s : string) : option ascii :=
  match s with String c _ => Some c | "" => None end.

(** [\b] holds where exactly one side is a word character. *)
Definition at_boundary (p : option ascii) (s : string) : bool :=
  xorb (word_at p) (word_at (next_char s)).

Fixpoint match_lit (l : string) (p : option ascii) (s : string)
  : option (option ascii * string) :=
  match l with
  | "" => Some (p, s)
  | String c l' =>
      match s with
      | String d s' => if Ascii.eqb c d then match_lit l' (Some d) s' else None
      | "" => None
      end
  end.

(** The character before the cursor once [x] has been read. *)
Fixpoint last_of (x : string) (p : option ascii) : option ascii :=
  match x with
  | "" => p
  | String c x' => last_of x' (Some c)
  end.

(** A run of [f]-characters cannot be extended into [s]. *)
Definition stops (f : ascii -> bool) (s : string) : bool :=
  match s with
  | String c _ => negb (f c)
  | "" => true
  end.

(** Greedy repetition: take one more character when possible, and fall back
    to the shorter run when the rest of the pattern fails. *)
Fixpoint star_loop {R : Type} (f : ascii -> bool) (p : option ascii) (s : string)
  (k : option ascii -> string -> option R) : option R :=
  match s with
  | String c s' =>
      if f c then
        match star_loop f (Some c) s' k with
        | Some r => Some r
        | None => k p s
        end
      else k p s
  | "" => k p s
  end.

(** The text between two cursors. *)
Definition consumed (s s' : string) : string :=
  substring 0 (String.length s - String.length s') s.

Fixpoint run {R : Type} (r : regex) (st : mstate) (k : mstate -> option R)
  : option R :=
  match r with
  | Lit l =>
      match match_lit l (prev st) (rest st) with
      | Some (p, s) => k (MState p s (caps st))
      | None => None
      end
  | Cls f =>
      match rest st with
      | String c s => if f c then k (MState (Some c) s (caps st)) else None
      | "" => None
      end
  | Star f =>
      star_loop f (prev st) (rest st) (fun p s => k (MState p s (caps st)))
  | WordB => if at_boundary (prev st) (rest st) then k st else None
  | Seq r1 r2 => run r1 st (fun st1 => run r2 st1 k)
  | Alt r1 r2 =>
      match run r1 st k with
      | Some x => Some x
      | None => run r2 st k
      end
  | Group n r1 =>
      run r1 st (fun st1 =>
        k (MState (prev st1) (rest st1)
                  ((n, consumed (rest st) (rest st1)) :: caps st1)))
  end.

(** One match attempt at the cursor. [must_advance] refuses the empty
    match (set by [re] after an empty match at the same position). The
    result is the groups and the text after the match. *)
Definition match_at (r : regex) (p : option ascii) (s : string)
  (must_advance : bool) : option (captures * string) :=
  run r (MState p s [])
    (fun st =>
       if must_advance && (String.length (rest st) =? String.length s)%nat
       then None
       else Some (caps st, rest st)).

(** The text of group [n]; a group that did not take part is empty. *)
Fixpoint group (cs : captures) (n : nat) : string :=
  match cs with
  | [] => ""
  | (m, t) :: cs' => if (m =? n)%nat then t else group cs' n
  end.

(** Left-to-right scan for non-overlapping matches, as [re.sub] and
    [re.finditer] do it: every position yields the character copied through
    or a match. [skip] counts the characters still covered by the previous
    match. *)
Inductive piece : Type :=
| Copy (c : ascii)
| Found (cs : captures).

Fixpoint scan (r : regex) (p : option ascii) (s : string) (skip : nat)
  : list piece :=
  match skip with
  | S n =>
      match s with
      | String c s' => scan r (Some c) s' n
      | "" => []
      end
  | O =>
      let copy :=
        match s with
        | String c s' => Copy c :: scan r (Some c) s' 0
        | "" => []
        end in
      let jump (len : nat) :=
        match len, s with
        | S n, String c s' => scan r (Some c) s' n
        | _, _ => []
        end in
      match match_at r p s false with
      | None => copy
      | Some (cs, s1) =>
          let len := String.length s - String.length s1 in
          Found cs ::
          (if (len =? 0)%nat then
             match match_at r p s true with
             | None => copy
             | Some (cs2, s2) =>
                 Found cs2 :: jump (String.length s - String.length s2)
             end
           else jump len)
      end
  end.

(** Replacement templates: literal text and group references. *)
Inductive titem : Type :=
| TLit (s : string)
| TGroup (n : nat).

Definition template : Type := list titem.

Definition expand_item (cs : captures) (i : titem) : string :=
  match i with
  | TLit s => s
  | TGroup n => group cs n
  end.

Definition expand (t : template) (cs : captures) : string :=
  String.concat "" (map (expand_item cs) t).

Definition render (t : template) (x : piece) : string :=
  match x with
  | Copy c => String c ""
  | Found cs => expand t cs
  end.

(** [re.sub(pattern, repl, s)] *)
Definition sub (r : regex) (t : template) (s : string) : string :=
  String.concat "" (map (render t) (scan r None s 0)).

(** [re.finditer(pattern, s)], each match given by its groups. *)
Definition finditer (r : regex) (s : string) : list captures :=
  flat_map (fun x => match x with Found cs => [cs] | Copy _ => [] end)
           (scan r None s 0).

End Re.
Import Re.

(** ** Console, file system and exceptions *)

Module Sys.

Definition path : Type := string.

(** The state a run acts on. [writes] and [calls] are ghost logs: they
    record, oldest first, each file opened for writing and each call of the
    Line Patcher with its arguments. *)
Record world : Type := World {
  files : path -> option string;
  console : list string;
  writes : list path;
  calls : list (string * Z * string)
}.

Inductive exn : Type :=
| IndexError
| FileNotFoundError.

Inductive result (A : Type) : Type :=
| Ok (a : A) (w : world)
| Raised (e : exn) (w : world).
Arguments Ok {A} a w.
Arguments Raised {A} e w.

Definition M (A : Type) : Type := world -> result A.

Definition ret {A : Type} (a : A) : M A := fun w => Ok a w.

Definition bind {A B : Type} (m : M A) (f : A -> M B) : M B :=
  fun w =>
    match m w with
    | Ok a w' => f a w'
    | Raised e w' => Raised e w'
    end.

Definition raise {A : Type} (e : exn) : M A := fun w => Raised e w.

Definition final {A : Type} (r : result A) : world :=
  match r with
  | Ok _ w => w
  | Raised _ w => w
  end.

(** [print(s)] *)
Definition print (s : string) : M unit :=
  fun w => Ok tt (World (files w) (console w ++ [s]) (writes w) (calls w)).

Definition log_call (c : string * Z * string) : M unit :=
  fun w => Ok tt (World (files w) (console w) (writes w) (calls w ++ [c])).

(** The pieces of a path between its slashes. *)
Fixpoint split_slash (s : string) : list string :=
  match s with
  | "" => [""]
  | String c r =>
      if Ascii.eqb c "/" then "" :: split_slash r
      else match split_slash r with
           | [] => [String c ""]
           | x :: xs => String c x :: xs
           end
  end.

(** The components [pathlib] keeps: empty pieces and the pieces [.] are
    dropped, the pieces [..] are kept. *)
Definition parts (s : string) : list string :=
  filter (fun x => negb (String.eqb x "" || String.eqb x ".")) (split_slash s).

Fixpoint leading_slashes (s : string) : nat :=
  match s with
  | String c r => if Ascii.eqb c "/" then S (leading_slashes r) else 0
  | "" => 0
  end.

(** The root of a POSIX path: exactly two leading slashes are kept, any
    other number of them is one slash. *)
Definition posix_root (s : string) : string :=
  match leading_slashes s with
  | 0 => ""
  | 2 => "//"
  | _ => "/"
  end.

(** [str] of a path with the given root and components. *)
Definition format_path (root : string) (ps : list string) : path :=
  match root, ps with
  | "", [] => "."
  | _, _ => root ++ String.concat "/" ps
  end.

(** [str(Path(root) / p)] on a POSIX host: an absolute [p] replaces the
    root, a relative [p] adds its components to those of the root. The
    result is the text [exists] and [open] receive; a component [..] or a
    symbolic link is resolved by the host, not by [pathlib]. *)
Definition join_path (root p : string) : path :=
  match posix_root p with
  | "" => format_path (posix_root root) (parts root ++ parts p)
  | r => format_path r (parts p)
  end.

(** [full_path.exists()] *)
Definition path_exists (p : path) : M bool :=
  fun w => Ok (match files w p with Some _ => true | None => false end) w.

(** Universal newlines: CR LF and a lone CR are read as LF. *)
Fixpoint universal_newlines (s : string) : string :=
  match s with
  | "" => ""
  | String c r =>
      if Ascii.eqb c CR then
        match r with
        | String d r' =>
            if Ascii.eqb d LF then String LF (universal_newlines r')
            else String LF (universal_newlines r)
        | "" => String LF ""
        end
      else String c (universal_newlines r)
  end.

(** The lines of a text, each with its terminating LF (the last line may
    have none). *)
Fixpoint split_lines (s : string) : list string :=
  match s with
  | "" => []
  | String c r =>
      if Ascii.eqb c LF then String c "" :: split_lines r
      else
        match split_lines r with
        | [] => [String c ""]
        | l :: ls => String c l :: ls
        end
  end.

(** [open(p, 'r')] followed by [f.readlines()] *)
Definition readlines (p : path) : M (list string) :=
  fun w =>
    match files w p with
    | Some text => Ok (split_lines (universal_newlines text)) w
    | None => Raised FileNotFoundError w
    end.

(** [open(p, 'w')] followed by [f.writelines(lines)] *)
Definition writelines (p : path) (lines : list string) : M unit :=
  fun w =>
    Ok tt (World (fun q => if String.eqb q p then Some (String.concat "" lines)
                           else files w q)
                 (console w) (writes w ++ [p]) (calls w)).

(** Python's list indexing: a negative index counts from the end. *)
Definition py_pos {A : Type} (l : list A) (i : Z) : option nat :=
  let n := Z.of_nat (List.length l) in
  if ((0 <=? i) && (i <? n))%Z then Some (Z.to_nat i)
  else if ((- n <=? i) && (i <? 0))%Z then Some (Z.to_nat (n + i))
  else None.

Fixpoint set_nth {A : Type} (l : list A) (i : nat) (x : A) : list A :=
  match l, i with
  | [], _ => []
  | _ :: l', O => x :: l'
  | y :: l', S i' => y :: set_nth l' i' x
  end.

(** [l[i]] *)
Definition getitem {A : Type} (l : list A) (i : Z) : M A :=
  match py_pos l i with
  | Some n =>
      match nth_error l n with
      | Some x => ret x
      | None => raise IndexError
      end
  | None => raise IndexError
  end.

(** [l[i] = x], returning the list after the assignment. *)
Definition setitem {A : Type} (l : list A) (i : Z) (x : A) : M (list A) :=
  match py_pos l i with
  | Some n => ret (set_nth l n x)
  | None => raise IndexError
  end.

(** Exit status of [sys.exit(main())]: the value returned, or 1 when an
    exception reaches the top level. *)
Definition exit_status (r : result Z) : Z :=
  match r with
  | Ok n _ => n
  | Raised _ _ => 1%Z
  end.

End Sys.
Import Sys.

Notation "x <- m ;; k" := (bind m (fun x => k))
  (at level 61, m at next level, right associativity).
Notation "m ;; k" := (bind m (fun _ => k))
  (at level 61, right associativity).

(** ** Sorting and grouping *)

(** [sorted]: a stable sort. [before x y] says that [x] may stand before
    [y]. *)
Fixpoint insert_sorted {A : Type} (before : A -> A -> bool) (x : A) (l : list A)
  : list A :=
  match l with
  | [] => [x]
  | y :: l' =>
      if before x y then x :: y :: l' else y :: insert_sorted before x l'
  end.

Definition sorted {A : Type} (before : A -> A -> bool) (l : list A) : list A :=
  fold_right (insert_sorted before) [] l.

(** ** The script *)

Definition project_root : string :=
  "/Users/vivek/elite/angel-investing-marketplace/frontend".

(** The dictionaries appended to [errors]. *)
Record error : Type := Error {
  file : string;
  line : Z;
  col : Z;
  var : string
}.

(** The pattern "(src/[^(]+)\((\d+),(\d+)\): error TS6133: '([^']+)'" *)
Definition ts6133_pattern : regex :=
  seq [Group 1 (Seq (Lit "src/") (Plus (is_not "(")));
       Lit "(";
       Group 2 (Plus is_digit);
       Lit ",";
       Group 3 (Plus is_digit);
       Lit "): error TS6133: '";
       Group 4 (Plus (is_not "'"));
       Lit "'"].

Definition error_of_match (cs : captures) : error :=
  Error (group cs 1) (py_int (group cs 2)) (py_int (group cs 3)) (group cs 4).

(** The parsing loop of [get_ts_errors] on the combined build output. *)
Definition parse_ts_errors (output : string) : list error :=
  map error_of_match (finditer ts6133_pattern output).

(** The five rewrite patterns with their replacements, for identifier [v].
    The script splices [v] into the text of each pattern and replacement
    without escaping it, and the definitions below hold [v] as literal text
    ([Lit v], [TLit]). The two agree exactly when [v] is made of word
    characters ([plain_identifier]): a character such as [$], [|] or an
    opening parenthesis in [v] is syntax to [re], which then matches other
    text or rejects the pattern. Statements that depend on what the patterns
    match are made for word-character identifiers only. *)

(** Import: "\bV\b(\s*,|\s*\})" replaced by "_V\1" *)
Definition import_pattern (v : string) : regex :=
  seq [WordB; Lit v; WordB;
       Group 1 (Alt (Seq (Star is_space) (Lit ","))
                    (Seq (Star is_space) (Lit "}")))].
Definition import_replacement (v : string) : template :=
  [TLit ("_" ++ v); TGroup 1].

(** Destructuring: an opening brace, group 1 holding [\s*], then [V\b];
    replaced by [{\1_V] *)
Definition destructuring_pattern (v : string) : regex :=
  seq [Lit "{"; Group 1 (Star is_space); Lit v; WordB].
Definition destructuring_replacement (v : string) : template :=
  [TLit "{"; TGroup 1; TLit ("_" ++ v)].

(** Regular declaration: "\b(const|let|var)\s+V\b" replaced by "\1 _V" *)
Definition declaration_pattern (v : string) : regex :=
  seq [WordB; Group 1 (Alt (Lit "const") (Alt (Lit "let") (Lit "var")));
       Plus is_space; Lit v; WordB].
Definition declaration_replacement (v : string) : template :=
  [TGroup 1; TLit (" _" ++ v)].

(** Function parameter: an opening parenthesis, group 1 holding [[^)]*],
    then [\bV\b]; replaced by an opening parenthesis and [\1_V] *)
Definition parameter_pattern (v : string) : regex :=
  seq [Lit "("; Group 1 (Star (is_not ")")); WordB; Lit v; WordB].
Definition parameter_replacement (v : string) : template :=
  [TLit "("; TGroup 1; TLit ("_" ++ v)].

(** Arrow function parameter: "\bV\s*:" replaced by "_V:" *)
Definition annotated_pattern (v : string) : regex :=
  seq [WordB; Lit v; Star is_space; Lit ":"].
Definition annotated_replacement (v : string) : template :=
  [TLit ("_" ++ v ++ ":")].

Definition patterns_and_replacements (var_name : string)
  : list (regex * template) :=
  [ (import_pattern var_name, import_replacement var_name);
    (destructuring_pattern var_name, destructuring_replacement var_name);
    (declaration_pattern var_name, declaration_replacement var_name);
    (parameter_pattern var_name, parameter_replacement var_name);
    (annotated_pattern var_name, annotated_replacement var_name) ].

(** The loop over the patterns: the first substitution that changes the line
    ends it. *)
Fixpoint first_change (prs : list (regex * template)) (new_line : string)
  : option string :=
  match prs with
  | [] => None
  | (pattern, replacement) :: prs' =>
      let new_line_temp := sub pattern replacement new_line in
      if String.eqb new_line_temp new_line then first_change prs' new_line
      else Some new_line_temp
  end.

Definition fix_unused_variable (file_path : string) (line_num : Z)
  (var_name : string) : M bool :=
  log_call (file_path, line_num, var_name) ;;
  let full_path := join_path project_root file_path in
  present <- path_exists full_path ;;
  if negb present then ret false else
  lines <- readlines full_path ;;
  if (line_num >? Z.of_nat (List.length lines))%Z then ret false else
  line <- getitem lines (line_num - 1) ;;
  if contains ("_" ++ var_name) line then ret false else
  match first_change (patterns_and_replacements var_name) line with
  | Some new_line =>
      lines' <- setitem lines (line_num - 1) new_line ;;
      writelines full_path lines' ;;
      ret true
  | None => ret false
  end.

(** [files_to_fix]: a dictionary in insertion order. *)
Fixpoint dict_append (d : list (string * list error)) (k : string) (e : error)
  : list (string * list error) :=
  match d with
  | [] => [(k, [e])]
  | (k', es) :: d' =>
      if String.eqb k' k then (k', (es ++ [e])%list) :: d'
      else (k', es) :: dict_append d' k e
  end.

Definition group_by_file (errors : list error) : list (string * list error) :=
  fold_left (fun d e => dict_append d (file e) e) errors [].

(** [sorted(files_to_fix.items())]: keys are distinct, so items compare by
    key. *)
Definition sorted_items (d : list (string * list error))
  : list (string * list error) :=
  sorted (fun a b => str_leb (fst a) (fst b)) d.

(** [sorted(errors_in_file, key=lambda e: e['line'], reverse=True)] *)
Definition sorted_by_line_desc (es : list error) : list error :=
  sorted (fun a b => (line b <=? line a)%Z) es.

(** The inner loop of [main]. *)
Fixpoint fix_errors (es : list error) (fixed_count : nat) : M nat :=
  match es with
  | [] => ret fixed_count
  | e :: es' =>
      fixed <- fix_unused_variable (file e) (line e) (var e) ;;
      fix_errors es' (if fixed then S fixed_count else fixed_count)
  end.

(** The outer loop of [main]. *)
Fixpoint fix_files (items : list (string * list error)) (fixed_count : nat)
  : M nat :=
  match items with
  | [] => ret fixed_count
  | (file_path, errors_in_file) :: items' =>
      print ("  " ++ file_path ++ ": "
             ++ str_of_nat (List.length errors_in_file) ++ " errors") ;;
      n <- fix_errors (sorted_by_line_desc errors_in_file) fixed_count ;;
      fix_files items' n
  end.

Section Build.

(** The external build: the combined text of standard output and standard
    error of [npm run build], whatever it is in the current state. *)
Variable npm_run_build : world -> string.

Definition run_build : M string := fun w => Ok (npm_run_build w) w.

Definition get_ts_errors : M (list error) :=
  output <- run_build ;;
  ret (parse_ts_errors output).

Definition main : M Z :=
  print "Analyzing TypeScript errors..." ;;
  errors <- get_ts_errors ;;
  (* every element is a non-empty dictionary, hence true *)
  let ts6133_errors := filter (fun _ => true) errors in
  print ("Found " ++ str_of_nat (List.length ts6133_errors)
         ++ " unused variable errors") ;;
  match ts6133_errors with
  | [] =>
      print "No TS6133 errors found!" ;;
      ret 0%Z
  | _ :: _ =>
      let files_to_fix := group_by_file ts6133_errors in
      print ("Fixing " ++ str_of_nat (List.length files_to_fix) ++ " files...") ;;
      fixed_count <- fix_files (sorted_items files_to_fix) 0 ;;
      print (nl ++ "Fixed " ++ str_of_nat fixed_count ++ " unused variables") ;;
      print (nl ++ "Running build to verify...") ;;
      output <- run_build ;;
      let remaining :=
        List.length (finditer (Lit "error TS6133:") output) in
      print ("Remaining TS6133 errors: " ++ str_of_nat remaining) ;;
      ret 0%Z
  end.

End Build.

(** A world holding the given files (paths relative to the project root). *)
Definition world_of (fs : list (string * string)) : world :=
  World (fun q =>
           match find (fun kv => String.eqb (join_path project_root (fst kv)) q) fs with
           | Some kv => Some (snd kv)
           | None => None
           end) [] [] [].

Definition crlf : string := String CR nl.

(** ** Shapes of patterns and of texts *)

(** A pattern that never consumes a character. *)
Fixpoint zero_width (r : regex) : Prop :=
  match r with
  | Lit l => l = ""
  | WordB => True
  | Cls _ | Star _ => False
  | Seq a b | Alt a b => zero_width a /\ zero_width b
  | Group _ a => zero_width a
  end.

(** Every match of the pattern is non-empty and ends with a character of
    the set [q]. *)
Fixpoint ends_in (q : ascii -> bool) (r : regex) : Prop :=
  match r with
  | Lit l => match last_of l None with Some c => q c = true | None => False end
  | Cls f => forall c, f c = true -> q c = true
  | Star _ | WordB => False
  | Seq a b => ends_in q b \/ (zero_width b /\ ends_in q a)
  | Alt a b => ends_in q a /\ ends_in q b
  | Group _ a => ends_in q a
  end.

Definition caps_ok (q : ascii -> bool) (cs : captures) : Prop :=
  Forall (fun nt => all_chars q (snd nt) = true) cs.

Definition template_ok (q : ascii -> bool) (t : template) : Prop :=
  Forall (fun i => match i with TLit l => all_chars q l = true | TGroup _ => True end) t.

(** Whatever holds of all characters of [s] holds of the piece. *)
Definition piece_ok (s : string) (x : piece) : Prop :=
  forall q, all_chars q s = true ->
    match x with
    | Copy c => q c = true
    | Found cs => caps_ok q cs
    end.

(** A template that writes at least one character. *)
Definition template_nonempty (t : template) : Prop :=
  Exists (fun i => match i with TLit l => l <> "" | TGroup _ => False end) t.

Definition render_all (t : template) (ps : list piece) : string :=
  String.concat "" (map (render t) ps).

Definition not_LF : ascii -> bool := is_not LF.
Definition not_CR : ascii -> bool := is_not CR.

(** A line as [readlines] returns it: text without LF followed by LF, or,
    for the last line of a file that does not end with LF, non-empty text
    without LF. *)
Definition is_line (l : string) : Prop :=
  exists b, l = b ++ nl /\ all_chars not_LF b = true.

Definition is_last_line (l : string) : Prop :=
  l <> "" /\ all_chars not_LF l = true.

Fixpoint lines_ok (ls : list string) : Prop :=
  match ls with
  | [] => True
  | l :: ls' =>
      match ls' with
      | [] => is_line l \/ is_last_line l
      | _ :: _ => is_line l /\ lines_ok ls'
      end
  end.

Definition same_shape (l l' : string) : Prop :=
  (is_line l /\ is_line l') \/ (is_last_line l /\ is_last_line l').

(** The line [lines[line_num - 1]] refers to, when there is one. *)
Definition line_at (lines : list string) (line_num : Z) : option string :=
  match py_pos lines (line_num - 1) with
  | Some i => nth_error lines i
  | None => None
  end.

(** The lines [readlines] returns for a text on disk. *)
Definition lines_of (text : string) : list string :=
  split_lines (universal_newlines text).

(** The state once the call has been logged. *)
Definition logged (w : world) (c : string * Z * string) : world :=
  World (files w) (console w) (writes w) (calls w ++ [c]).

(** The state once [p] has been rewritten with [lines]. *)
Definition written (w : world) (p : path) (lines : list string) : world :=
  World (fun q => if String.eqb q p then Some (String.concat "" lines)
                  else files w q)
        (console w) (writes w ++ [p]) (calls w).

(** Two outcomes that agree on everything observable: the value returned or
    the exception raised, the file system, the files written and the
    console. Only the ghost log of calls may differ. *)
Definition same_effect {A : Type} (r1 r2 : result A) : Prop :=
  match r1, r2 with
  | Ok a _, Ok b _ => a = b
  | Raised e _, Raised e' _ => e = e'
  | _, _ => False
  end /\
  files (final r1) = files (final r2) /\
  writes (final r1) = writes (final r2) /\
  console (final r1) = console (final r2).

(** The state once [s] has been printed. *)
Definition after_print (w : world) (s : string) : world :=
  World (files w) (console w ++ [s]) (writes w) (calls w).

(** The arguments the Line Patcher is called with for a diagnostic. *)
Definition call_of (e : error) : string * Z * string :=
  (file e, line e, var e).

(** The diagnostics in the order the two loops of [main] visit them. *)
Definition patch_order (errors : list error) : list error :=
  flat_map (fun item => sorted_by_line_desc (snd item))
           (sorted_items (group_by_file errors)).

(** [a] is visited no later than [b]: an earlier file, or the same file and
    a line number at least as large. *)
Definition visited_before (a b : error) : Prop :=
  str_ltb (file a) (file b) = true \/
  (file a = file b /\ (line b <= line a)%Z).

(** Line numbers in strictly descending order. *)
Fixpoint strictly_descending (l : list Z) : bool :=
  match l with
  | x :: ((y :: _) as l') => (y <? x)%Z && strictly_descending l'
  | _ => true
  end.

(** A dictionary of [main]: distinct keys, and under each key diagnostics of
    that file only. *)
Definition dict_ok (d : list (string * list error)) : Prop :=
  NoDup (map fst d) /\
  Forall (fun item => Forall (fun e => file e = fst item) (snd item)) d.

(** The text the Diagnostic Collector recognises: a path, the position in
    parentheses, the literal error code and the identifier in quotes. *)
Definition diag_text (f l c v : string) : string :=
  f ++ "(" ++ l ++ "," ++ c ++ "): error TS6133: '" ++ v ++ "'".

(** The path starts with [src/] and goes on with at least one character,
    none of them an opening parenthesis; line and column are non-empty runs
    of digits; the identifier is a non-empty run of characters other than
    the quote. *)
Definition diag_shape (f l c v : string) : Prop :=
  (exists q, f = "src/" ++ q /\ q <> "" /\ all_chars (is_not "(") q = true) /\
  (l <> "" /\ all_chars is_digit l = true) /\
  (c <> "" /\ all_chars is_digit c = true) /\
  (v <> "" /\ all_chars (is_not "'") v = true).

(** [occurrences s es]: the records [es] come, in this order, from
    occurrences of the recognised text in [s] that do not overlap. *)
Inductive occurrences : string -> list error -> Prop :=
| occ_done (s : string) : occurrences s []
| occ_skip (ch : ascii) (s : string) (es : list error) :
    occurrences s es -> occurrences (String ch s) es
| occ_found (f l c v s : string) (es : list error) :
    diag_shape f l c v -> occurrences s es ->
    occurrences (diag_text f l c v ++ s) (Error f (py_int l) (py_int c) v :: es).

(** The groups of a match of the pattern. *)
Definition ts6133_groups (f l c v : string) : captures :=
  [(4, v); (3, c); (2, l); (1, f)].

(** The message the compiler prints after the identifier. *)
Definition ts6133_message : string :=
  "' is declared but its value is never read.".

(** A pattern without [\b]. *)
Fixpoint no_wordb (r : regex) : Prop :=
  match r with
  | WordB => False
  | Lit _ | Cls _ | Star _ => True
  | Seq a b | Alt a b => no_wordb a /\ no_wordb b
  | Group _ a => no_wordb a
  end.

(** A continuation that does not look at the character before the cursor. *)
Definition prev_blind {R : Type} (k : mstate -> option R) : Prop :=
  forall p p' s cs, k (MState p s cs) = k (MState p' s cs).

Fixpoint drop_chars (n : nat) (s : string) : string :=
  match n, s with
  | S n', String _ s' => drop_chars n' s'
  | _, _ => s
  end.

(** The matches among the pieces of a scan. *)
Definition found (ps : list piece) : list captures :=
  flat_map (fun x => match x with Found cs => [cs] | Copy _ => [] end) ps.

(** ** Formatted string literals

    The patterns and replacements of the Line Patcher are written as raw
    formatted string literals. This is how Python (up to 3.11) splits the
    body of such a literal: [{{] and [}}] stand for a brace, a single [{]
    opens a replacement field that runs to the matching [}], and the
    expression of a field cannot include a backslash. (Python 3.12 reads the
    field as ordinary code and rejects a backslash there too.) Quotes,
    conversions and format specifications inside a field are not modelled;
    the literals of the script have none. *)

Module FString.

Inductive part : Type :=
| Text (s : string)
| Field (expr : string).

Inductive outcome : Type :=
| Parsed (ps : list part)
| SyntaxError (msg : string).

Definition cons_part (p : part) (o : outcome) : outcome :=
  match o with
  | Parsed ps => Parsed (p :: ps)
  | SyntaxError m => SyntaxError m
  end.

Definition snoc (s : string) (c : ascii) : string := s ++ String c "".

(** [field = None]: in literal text, [acc] being the text read so far;
    [field = Some depth]: in a replacement field, [acc] being the expression
    read so far and [depth] the number of brackets open in it. *)
Fixpoint split (s : string) (field : option nat) (acc : string) : outcome :=
  match field, s with
  | None, "" => Parsed [Text acc]
  | None, String "{" (String "{" s') => split s' None (snoc acc "{")
  | None, String "{" s' => cons_part (Text acc) (split s' (Some 0) "")
  | None, String "}" (String "}" s') => split s' None (snoc acc "}")
  | None, String "}" _ => SyntaxError "f-string: single '}' is not allowed"
  | None, String c s' => split s' None (snoc acc c)
  | Some _, "" => SyntaxError "f-string: expecting '}'"
  | Some _, String "\" _ =>
      SyntaxError "f-string expression part cannot include a backslash"
  | Some 0, String "}" s' => cons_part (Field acc) (split s' None "")
  | Some (S d), String "}" s' => split s' (Some d) (snoc acc "}")
  | Some d, String c s' =>
      if (Ascii.eqb c "(" || Ascii.eqb c "[" || Ascii.eqb c "{")%bool
      then split s' (Some (S d)) (snoc acc c)
      else if (Ascii.eqb c ")" || Ascii.eqb c "]")%bool
      then split s' (Some (Nat.pred d)) (snoc acc c)
      else split s' (Some d) (snoc acc c)
  end.

(** The value of the literal where [var_name] is the only name in scope. *)
Fixpoint join (var_name : string) (ps : list part) : option string :=
  match ps with
  | [] => Some ""
  | Text s :: ps' => option_map (append s) (join var_name ps')
  | Field e :: ps' =>
      if String.eqb e "var_name"
      then option_map (append var_name) (join var_name ps')
      else None
  end.

Definition value (body : string) (var_name : string) : option string :=
  match split body None "" with
  | Parsed ps => join var_name ps
  | SyntaxError _ => None
  end.

End FString.

(** The bodies of the five pattern literals of [fix_unused_variable], as
    written on lines 57, 59, 61, 63 and 65. *)
Definition pattern_literals : list string :=
  [ "\b{var_name}\b(\s*,|\s*\}})";
    "\{(\s*){var_name}\b";
    "\b(const|let|var)\s+{var_name}\b";
    "\(([^)]*)\b{var_name}\b";
    "\b{var_name}\s*:" ].

(** What the pattern of the Diagnostic Collector guarantees of a record. *)
Definition record_ok (e : error) : Prop :=
  (exists q, file e = "src/" ++ q /\ q <> "" /\ all_chars (is_not "(") q = true) /\
  (0 <= line e)%Z /\ (0 <= col e)%Z /\
  var e <> "" /\ all_chars (is_not "'") (var e) = true.

(** The line [main] prints once the loops are over. *)
Definition fixed_report (n : nat) : string :=
  nl ++ "Fixed " ++ str_of_nat n ++ " unused variables".

(** [d.get(k, [])] on a dictionary of [main]. *)
Fixpoint dict_get (d : list (string * list error)) (k : string) : list error :=
  match d with
  | [] => []
  | (k', es) :: d' => if String.eqb k' k then es else dict_get d' k
  end.

(** The diagnostics of file [k], in the order of the build output. *)
Definition errors_of_file (k : string) (errors : list error) : list error :=
  filter (fun e => String.eqb (file e) k) errors.

(** The diagnostics on line [n]. *)
Definition errors_on_line (n : Z) (es : list error) : list error :=
  filter (fun e => (line e =? n)%Z) es.

(** Text in which no diagnostic can begin: it does not contain [src/], and
    it is empty or ends with LF. *)
Definition quiet (t : string) : Prop :=
  contains "src/" t = false /\ (t = "" \/ last_of t None = Some LF).

(** A diagnostic as the compiler reports it: path, line, column and
    identifier in the recognised text, followed by the text [t] (the message
    and the end of the line). *)
Definition report : Type := string * string * string * string * string.

Definition report_text (d : report) : string :=
  let '(f, l, c, v, t) := d in diag_text f l c v ++ t.

Definition report_ok (d : report) : Prop :=
  let '(f, l, c, v, t) := d in diag_shape f l c v /\ quiet t.

Definition report_error (d : report) : error :=
  let '(f, l, c, v, t) := d in Error f (py_int l) (py_int c) v.

(** Every match of the pattern contains the text [v]. *)
Fixpoint mentions (v : string) (r : regex) : Prop :=
  match r with
  | Lit l => contains v l = true
  | Cls _ | Star _ | WordB => False
  | Seq a b => mentions v a \/ mentions v b
  | Alt a b => mentions v a /\ mentions v b
  | Group _ a => mentions v a
  end.

(** The template writes the text [lit] whatever the groups are. *)
Definition template_writes (lit : string) (t : template) : Prop :=
  Exists (fun i => match i with
                   | TLit l => contains lit l = true
                   | TGroup _ => False
                   end) t.

(** The line [main] prints once the diagnostics are collected. *)
Definition found_report (n : nat) : string :=
  "Found " ++ str_of_nat n ++ " unused variable errors".

(** A diagnostic the Line Patcher handles without raising: a line number
    of at least 1 and an identifier made of word characters. *)
Definition patchable (e : error) : Prop :=
  (1 <= line e)%Z /\ plain_identifier (var e) = true.

(** ** Facts about strings *)

Lemma append_nil_r (s : string) : s ++ "" = s.
Proof. induction s; simpl; congruence. Qed.

Lemma append_assoc (a b c : string) : (a ++ b) ++ c = a ++ (b ++ c).
Proof. induction a; simpl; congruence. Qed.

Lemma length_append (a b : string) :
  String.length (a ++ b) = String.length a + String.length b.
Proof. induction a; simpl; congruence. Qed.

Lemma all_chars_cons (f : ascii -> bool) (c : ascii) (s : string) :
  all_chars f (String c s) = f c && all_chars f s.
Proof. reflexivity. Qed.

Lemma all_chars_app (f : ascii -> bool) (a b : string) :
  all_chars f (a ++ b) = all_chars f a && all_chars f b.
Proof.
  induction a as [|c a IH]; simpl; [reflexivity|].
  rewrite !all_chars_cons, IH. apply andb_assoc.
Qed.

Lemma append_same_length_nil (x s : string) :
  String.length (x ++ s) = String.length s -> x = "".
Proof.
  rewrite length_append. destruct x; simpl; [reflexivity | lia].
Qed.

Lemma consumed_app (x s : string) : consumed (x ++ s) s = x.
Proof.
  unfold consumed. rewrite length_append.
  replace (String.length x + String.length s - String.length s)
    with (String.length x) by lia.
  induction x as [|c x IH]; simpl.
  - destruct s; reflexivity.
  - now rewrite IH.
Qed.

(** ** Facts about the matcher *)

Lemma match_lit_inv (l : string) : forall p s p' s',
  match_lit l p s = Some (p', s') -> s = l ++ s' /\ p' = last_of l p.
Proof.
  induction l as [|c l IH]; simpl; intros p s p' s' H.
  - inversion H; subst. split; reflexivity.
  - destruct s as [|d s]; [discriminate|].
    destruct (Ascii.eqb c d) eqn:E; [|discriminate].
    apply Ascii.eqb_eq in E. subst d.
    apply IH in H. destruct H as [-> ->]. split; reflexivity.
Qed.

Lemma match_lit_app (l : string) : forall p s,
  match_lit l p (l ++ s) = Some (last_of l p, s).
Proof.
  induction l as [|c l IH]; simpl; intros p s; [reflexivity|].
  rewrite Ascii.eqb_refl. apply IH.
Qed.

Lemma star_loop_inv {R : Type} (f : ascii -> bool) (k : option ascii -> string -> option R) :
  forall s p res,
    star_loop f p s k = Some res ->
    exists x s', s = x ++ s' /\ all_chars f x = true /\
                 k (last_of x p) s' = Some res.
Proof.
  induction s as [|c s IH]; simpl; intros p res H.
  - exists "", "". repeat split; assumption.
  - destruct (f c) eqn:Fc.
    + destruct (star_loop f (Some c) s k) eqn:E.
      * inversion H; subst. apply IH in E.
        destruct E as (x & s' & -> & Hx & Hk).
        exists (String c x), s'. repeat split; try assumption.
        rewrite all_chars_cons, Fc, Hx. reflexivity.
      * exists "", (String c s). repeat split; assumption.
    + exists "", (String c s). repeat split; assumption.
Qed.

(** The greedy run is tried first: when the rest of the pattern accepts
    after the longest run, that is the result. *)
Lemma star_loop_greedy {R : Type} (f : ascii -> bool) (k : option ascii -> string -> option R) :
  forall x p s res,
    all_chars f x = true ->
    stops f s = true ->
    k (last_of x p) s = Some res ->
    star_loop f p (x ++ s) k = Some res.
Proof.
  induction x as [|c x IH]; simpl; intros p s res Hx Hs Hk.
  - destruct s as [|d s]; simpl in *; [assumption|].
    apply negb_true_iff in Hs. rewrite Hs. assumption.
  - rewrite all_chars_cons in Hx. apply andb_true_iff in Hx.
    destruct Hx as [Fc Hx]. rewrite Fc.
    rewrite (IH (Some c) s res Hx Hs Hk). reflexivity.
Qed.

Lemma last_of_app (x y : string) : forall p,
  last_of (x ++ y) p = last_of y (last_of x p).
Proof. induction x as [|c x IH]; simpl; intros p; [reflexivity | apply IH]. Qed.

Lemma last_of_some (x : string) : forall p c,
  last_of x None = Some c -> last_of x p = Some c.
Proof.
  destruct x as [|d x]; simpl; intros p c H; [discriminate | assumption].
Qed.

Lemma last_of_some_nonempty (x : string) (c : ascii) :
  last_of x None = Some c -> x <> "".
Proof. destruct x; simpl; [discriminate | discriminate]. Qed.

(** What a successful run of the matcher tells: the text [x] it read, the
    state handed to the continuation, and what is known of the groups and of
    the last character read. *)
Lemma run_inv {R : Type} (r : regex) : forall (st : mstate) (k : mstate -> option R) res,
  run r st k = Some res ->
  exists x st',
    rest st = x ++ rest st' /\
    prev st' = last_of x (prev st) /\
    k st' = Some res /\
    (forall q, all_chars q x = true -> caps_ok q (caps st) -> caps_ok q (caps st')) /\
    (zero_width r -> x = "") /\
    (forall q, ends_in q r -> exists c, last_of x None = Some c /\ q c = true).
Proof.
  induction r as [l|f|f| |a IHa b IHb|a IHa b IHb|n a IHa]; simpl; intros st k res H.
  - destruct (match_lit l (prev st) (rest st)) as [[p s]|] eqn:E; [|discriminate].
    apply match_lit_inv in E. destruct E as [E1 E2].
    exists l, (MState p s (caps st)). simpl.
    split; [assumption|]. split; [assumption|]. split; [assumption|].
    split; [intros; assumption|]. split; [intros Hz; exact Hz|].
    intros q Hq. destruct (last_of l None) as [c|]; [|contradiction].
    exists c. split; [reflexivity | assumption].
  - destruct (rest st) as [|c s] eqn:E; [discriminate|].
    destruct (f c) eqn:Fc; [|discriminate].
    exists (String c ""), (MState (Some c) s (caps st)). simpl.
    split; [reflexivity|]. split; [reflexivity|]. split; [assumption|].
    split; [intros; assumption|]. split; [intros []|].
    intros q Hq. exists c. split; [reflexivity | apply Hq; assumption].
  - apply star_loop_inv in H. destruct H as (x & s' & E & Hx & Hk).
    exists x, (MState (last_of x (prev st)) s' (caps st)). simpl.
    split; [assumption|]. split; [reflexivity|]. split; [assumption|].
    split; [intros; assumption|]. split; [intros []|]. intros q [].
  - destruct (at_boundary (prev st) (rest st)); [|discriminate].
    exists "", st. simpl.
    split; [reflexivity|]. split; [reflexivity|]. split; [assumption|].
    split; [intros; assumption|]. split; [reflexivity|]. intros q [].
  - apply IHa in H. destruct H as (x1 & st1 & E1 & P1 & K1 & C1 & Z1 & T1).
    apply IHb in K1. destruct K1 as (x2 & st2 & E2 & P2 & K2 & C2 & Z2 & T2).
    exists (x1 ++ x2), st2.
    split; [rewrite E1, E2, append_assoc; reflexivity|].
    split; [rewrite last_of_app, <- P1; assumption|].
    split; [assumption|].
    split.
    { intros q Hq Hc. rewrite all_chars_app in Hq. apply andb_true_iff in Hq.
      destruct Hq as [Hq1 Hq2]. apply C2; [assumption|]. apply C1; assumption. }
    split.
    { intros [Za Zb]. rewrite (Z1 Za), (Z2 Zb). reflexivity. }
    intros q [Hb|[Zb Ha]].
    + destruct (T2 q Hb) as (c & Hc & Qc). exists c. split; [|assumption].
      rewrite last_of_app. apply last_of_some. assumption.
    + rewrite (Z2 Zb), append_nil_r. apply T1. assumption.
  - destruct (run a st k) eqn:E.
    + inversion H; subst. apply IHa in E.
      destruct E as (x & st' & E1 & P1 & K1 & C1 & Z1 & T1).
      exists x, st'.
      split; [assumption|]. split; [assumption|]. split; [assumption|].
      split; [assumption|].
      split; [intros [Za _]; apply Z1; assumption|].
      intros q [Ha _]. apply T1. assumption.
    + apply IHb in H.
      destruct H as (x & st' & E1 & P1 & K1 & C1 & Z1 & T1).
      exists x, st'.
      split; [assumption|]. split; [assumption|]. split; [assumption|].
      split; [assumption|].
      split; [intros [_ Zb]; apply Z1; assumption|].
      intros q [_ Hb]. apply T1. assumption.
  - apply IHa in H. destruct H as (x & st1 & E1 & P1 & K1 & C1 & Z1 & T1).
    exists x, (MState (prev st1) (rest st1)
                      ((n, consumed (rest st) (rest st1)) :: caps st1)).
    simpl.
    split; [assumption|]. split; [assumption|]. split; [assumption|].
    split; [|split; assumption].
    intros q Hq Hc. constructor.
    + simpl. rewrite E1, consumed_app. assumption.
    + apply C1; assumption.
Qed.

Lemma match_at_inv (r : regex) (p : option ascii) (s : string) (adv : bool)
  (cs : captures) (s1 : string) :
  match_at r p s adv = Some (cs, s1) ->
  exists x,
    s = x ++ s1 /\
    (forall q, all_chars q x = true -> caps_ok q cs) /\
    (forall q, ends_in q r -> exists c, last_of x None = Some c /\ q c = true) /\
    (adv = true -> x <> "").
Proof.
  unfold match_at. intros H. apply run_inv in H.
  destruct H as (x & st' & E & _ & K & C & _ & T). simpl in *.
  exists x.
  destruct (adv && (String.length (rest st') =? String.length s)%nat) eqn:A;
    [discriminate|].
  injection K as K1 K2. rewrite K2 in E, A. rewrite K1 in C.
  split; [exact E|].
  split; [intros q Hq; apply C; [assumption | constructor]|].
  split; [exact T|].
  intros Ha Hx. rewrite Ha, Hx in *. simpl in E.
  rewrite E, Nat.eqb_refl in A. discriminate.
Qed.

Lemma group_ok (q : ascii -> bool) (cs : captures) (n : nat) :
  caps_ok q cs -> all_chars q (group cs n) = true.
Proof.
  induction 1 as [|[m t] cs H _ IH]; simpl; [reflexivity|].
  destruct (m =? n)%nat; assumption.
Qed.

Lemma concat_nil_cons (x : string) (l : list string) :
  String.concat "" (x :: l) = x ++ String.concat "" l.
Proof.
  destruct l; simpl; [now rewrite append_nil_r | reflexivity].
Qed.

Lemma expand_ok (q : ascii -> bool) (t : template) (cs : captures) :
  template_ok q t -> caps_ok q cs -> all_chars q (expand t cs) = true.
Proof.
  unfold expand. intros Ht Hc. induction Ht as [|i t Hi _ IH].
  - reflexivity.
  - cbn [map]. rewrite concat_nil_cons, all_chars_app, IH, andb_true_r.
    destruct i; simpl; [assumption | apply group_ok; assumption].
Qed.

(** ** Facts about the scan *)

Lemma scan_skip (r : regex) (p : option ascii) (c : ascii) (s : string) (n : nat) :
  scan r p (String c s) (S n) = scan r (Some c) s n.
Proof. reflexivity. Qed.

Lemma scan_0 (r : regex) (p : option ascii) (s : string) :
  scan r p s 0 =
  match match_at r p s false with
  | None =>
      match s with
      | String c s' => Copy c :: scan r (Some c) s' 0
      | "" => []
      end
  | Some (cs, s1) =>
      Found cs ::
      (if (String.length s - String.length s1 =? 0)%nat then
         match match_at r p s true with
         | None =>
             match s with
             | String c s' => Copy c :: scan r (Some c) s' 0
             | "" => []
             end
         | Some (cs2, s2) =>
             Found cs2 ::
             match (String.length s - String.length s2)%nat, s with
             | S n, String c s' => scan r (Some c) s' n
             | _, _ => []
             end
         end
       else
         match (String.length s - String.length s1)%nat, s with
         | S n, String c s' => scan r (Some c) s' n
         | _, _ => []
         end)
  end.
Proof. destruct s; reflexivity. Qed.

Lemma piece_ok_cons (c : ascii) (s : string) (x : piece) :
  piece_ok s x -> piece_ok (String c s) x.
Proof.
  intros H q Hq. rewrite all_chars_cons in Hq. apply andb_true_iff in Hq.
  apply H. apply Hq.
Qed.

Lemma piece_ok_copy (c : ascii) (s : string) : piece_ok (String c s) (Copy c).
Proof.
  intros q Hq. rewrite all_chars_cons in Hq. apply andb_true_iff in Hq. apply Hq.
Qed.

Lemma piece_ok_found (r : regex) (p : option ascii) (s : string) (adv : bool)
  (cs : captures) (s1 : string) :
  match_at r p s adv = Some (cs, s1) -> piece_ok s (Found cs).
Proof.
  intros H q Hq. apply match_at_inv in H. destruct H as (x & E & C & _).
  apply C. rewrite E, all_chars_app in Hq. apply andb_true_iff in Hq. apply Hq.
Qed.

Lemma Forall_piece_ok_cons (c : ascii) (s : string) (ps : list piece) :
  Forall (piece_ok s) ps -> Forall (piece_ok (String c s)) ps.
Proof. intros H. eapply Forall_impl; [|exact H]. apply piece_ok_cons. Qed.

(** Every piece of a scan is made of the text scanned. *)
Lemma scan_pieces_ok (r : regex) : forall s p skip,
  Forall (piece_ok s) (scan r p s skip).
Proof.
  induction s as [|c s IH]; intros p skip.
  - destruct skip as [|n]; [|constructor].
    rewrite scan_0.
    destruct (match_at r p "" false) as [[cs s1]|] eqn:E1; [|constructor].
    constructor; [eapply piece_ok_found; eassumption|].
    destruct (String.length "" - String.length s1 =? 0)%nat.
    + destruct (match_at r p "" true) as [[cs2 s2]|] eqn:E2; [|constructor].
      constructor; [eapply piece_ok_found; eassumption|].
      destruct (String.length "" - String.length s2)%nat; constructor.
    + destruct (String.length "" - String.length s1)%nat; constructor.
  - destruct skip as [|n].
    + rewrite scan_0.
      destruct (match_at r p (String c s) false) as [[cs s1]|] eqn:E1.
      * constructor; [eapply piece_ok_found; eassumption|].
        destruct (String.length (String c s) - String.length s1 =? 0)%nat.
        -- destruct (match_at r p (String c s) true) as [[cs2 s2]|] eqn:E2.
           ++ constructor; [eapply piece_ok_found; eassumption|].
              destruct (String.length (String c s) - String.length s2)%nat;
                [constructor | apply Forall_piece_ok_cons, IH].
           ++ constructor; [apply piece_ok_copy | apply Forall_piece_ok_cons, IH].
        -- destruct (String.length (String c s) - String.length s1)%nat;
             [constructor | apply Forall_piece_ok_cons, IH].
      * constructor; [apply piece_ok_copy | apply Forall_piece_ok_cons, IH].
    + rewrite scan_skip. apply Forall_piece_ok_cons, IH.
Qed.

Lemma render_all_cons (t : template) (x : piece) (ps : list piece) :
  render_all t (x :: ps) = render t x ++ render_all t ps.
Proof. unfold render_all. cbn [map]. apply concat_nil_cons. Qed.

Lemma render_all_app (t : template) (ps qs : list piece) :
  render_all t (ps ++ qs) = render_all t ps ++ render_all t qs.
Proof.
  induction ps as [|x ps IH]; [reflexivity|].
  rewrite <- app_comm_cons, !render_all_cons, IH, append_assoc. reflexivity.
Qed.

Lemma render_all_ok (q : ascii -> bool) (t : template) (s : string) (ps : list piece) :
  template_ok q t -> all_chars q s = true -> Forall (piece_ok s) ps ->
  all_chars q (render_all t ps) = true.
Proof.
  intros Ht Hs H. induction H as [|x ps Hx _ IH]; [reflexivity|].
  rewrite render_all_cons, all_chars_app, IH, andb_true_r.
  specialize (Hx q Hs). destruct x; simpl.
  - rewrite all_chars_cons, Hx. reflexivity.
  - apply expand_ok; assumption.
Qed.

(** [re.sub] only writes characters of the text or of the template. *)
Lemma sub_keeps_chars (q : ascii -> bool) (r : regex) (t : template) (s : string) :
  template_ok q t -> all_chars q s = true -> all_chars q (sub r t s) = true.
Proof.
  intros Ht Hs. apply (render_all_ok q t s); try assumption.
  apply scan_pieces_ok.
Qed.

Lemma app_eq_line (d : ascii) : forall x b p s1,
  x <> "" ->
  last_of x p = Some d -> not_LF d = true ->
  all_chars not_LF b = true ->
  x ++ s1 = b ++ nl ->
  exists s1', s1 = s1' ++ nl /\ b = x ++ s1'.
Proof.
  induction x as [|c x IH]; intros b p s1 Hne Hl Hd Hb E; [congruence|].
  destruct b as [|c' b].
  - simpl in E. injection E as Ec Ex.
    destruct x; [|discriminate]. simpl in Hl. injection Hl as Hl.
    subst. discriminate.
  - simpl in E. injection E as Ec Ex. subst c'.
    rewrite all_chars_cons in Hb. apply andb_true_iff in Hb. destruct Hb as [_ Hb].
    destruct x as [|c2 x].
    + simpl in Ex. exists b. split; [assumption | reflexivity].
    + destruct (IH b (Some c) s1) as (s1' & E1 & E2); try assumption; [discriminate|].
      exists s1'. split; [assumption|]. simpl. rewrite E2. reflexivity.
Qed.

Lemma no_match_at_end (r : regex) (p : option ascii) (adv : bool) :
  ends_in not_LF r -> match_at r p "" adv = None.
Proof.
  intros Hr. destruct (match_at r p "" adv) as [[cs s1]|] eqn:E; [|reflexivity].
  apply match_at_inv in E. destruct E as (x & E & _ & T & _).
  destruct (T _ Hr) as (d & Hl & _).
  destruct x; [discriminate Hl | discriminate E].
Qed.

Lemma no_match_at_LF (r : regex) (p : option ascii) (adv : bool) :
  ends_in not_LF r -> match_at r p nl adv = None.
Proof.
  intros Hr. destruct (match_at r p nl adv) as [[cs s1]|] eqn:E; [|reflexivity].
  apply match_at_inv in E. destruct E as (x & E & _ & T & _).
  destruct (T _ Hr) as (d & Hl & Hd).
  destruct x as [|c x]; [discriminate Hl|].
  unfold nl in E. simpl in E. injection E as Ec Ex.
  destruct x; [|discriminate]. simpl in Hl. injection Hl as Hl.
  subst. discriminate.
Qed.

(** Scanning a line that ends with LF copies the LF through: no match of a
    pattern whose matches end outside LF reaches it. *)
Lemma scan_line (r : regex) : ends_in not_LF r ->
  forall b p skip,
    all_chars not_LF b = true -> skip <= String.length b ->
    exists ps, scan r p (b ++ nl) skip = (ps ++ [Copy LF])%list /\
               Forall (piece_ok b) ps.
Proof.
  intros Hr. induction b as [|c b IH]; intros p skip Hb Hs.
  - assert (skip = 0) by (simpl in Hs; lia). subst skip.
    exists []. split; [|constructor].
    simpl append. rewrite scan_0, (no_match_at_LF r p false Hr).
    unfold nl. rewrite scan_0, (no_match_at_end r _ false Hr). reflexivity.
  - pose proof Hb as Hb'. rewrite all_chars_cons in Hb'.
    apply andb_true_iff in Hb'. destruct Hb' as [_ Hb'].
    destruct skip as [|n].
    + rewrite scan_0.
      destruct (match_at r p (String c b ++ nl) false) as [[cs s1]|] eqn:E1.
      * pose proof (piece_ok_found _ _ _ _ _ _ E1) as Hok.
        apply match_at_inv in E1. destruct E1 as (x & E & C & T & _).
        destruct (T _ Hr) as (d & Hl & Hd).
        pose proof (last_of_some_nonempty _ _ Hl) as Hne.
        destruct (app_eq_line d x (String c b) None s1 Hne Hl Hd Hb (eq_sym E))
          as (s1' & E1 & E2).
        assert (Hlen : String.length (String c b ++ nl) - String.length s1
                       = String.length x).
        { rewrite E, length_append. lia. }
        rewrite Hlen.
        destruct x as [|cx x]; [congruence|].
        cbn [String.length Nat.eqb]. simpl append.
        destruct (IH (Some c) (String.length x) Hb') as (ps & Eps & Hps).
        { simpl in E2. injection E2 as _ E2. rewrite E2, length_append. lia. }
        exists (Found cs :: ps). split.
        -- simpl append in Eps. rewrite Eps. reflexivity.
        -- constructor.
           ++ intros q Hq. apply C. rewrite E2, all_chars_app in Hq.
              apply andb_true_iff in Hq. apply Hq.
           ++ apply Forall_piece_ok_cons. assumption.
      * simpl append.
        destruct (IH (Some c) 0 Hb') as (ps & Eps & Hps); [lia|].
        exists (Copy c :: ps). split.
        -- rewrite Eps. reflexivity.
        -- constructor; [apply piece_ok_copy | apply Forall_piece_ok_cons; assumption].
    + simpl append. rewrite scan_skip.
      destruct (IH (Some c) n Hb') as (ps & Eps & Hps); [simpl in Hs; lia|].
      exists ps. split; [assumption | apply Forall_piece_ok_cons; assumption].
Qed.

Lemma sub_line (r : regex) (t : template) (b : string) :
  ends_in not_LF r -> template_ok not_LF t -> all_chars not_LF b = true ->
  exists o, sub r t (b ++ nl) = o ++ nl /\ all_chars not_LF o = true.
Proof.
  intros Hr Ht Hb.
  destruct (scan_line r Hr b None 0 Hb) as (ps & E & Hps); [lia|].
  exists (render_all t ps). split.
  - unfold sub. fold (render_all t (scan r None (b ++ nl) 0)).
    rewrite E, render_all_app. reflexivity.
  - apply (render_all_ok not_LF t b); assumption.
Qed.

Lemma expand_nonempty (t : template) (cs : captures) :
  template_nonempty t -> expand t cs <> "".
Proof.
  unfold expand. induction 1 as [i t Hi|i t _ IH]; cbn [map];
    rewrite concat_nil_cons.
  - destruct i as [l|n]; [|contradiction]. simpl.
    destruct l; [congruence | discriminate].
  - destruct (expand_item cs i); [assumption | discriminate].
Qed.

Lemma sub_nonempty (r : regex) (t : template) (s : string) :
  template_nonempty t -> s <> "" -> sub r t s <> "".
Proof.
  intros Ht Hs. unfold sub. fold (render_all t (scan r None s 0)).
  destruct s as [|c s]; [congruence|].
  rewrite scan_0.
  destruct (match_at r None (String c s) false) as [[cs s1]|].
  - rewrite render_all_cons. simpl render.
    pose proof (expand_nonempty t cs Ht).
    destruct (expand t cs); [congruence | discriminate].
  - rewrite render_all_cons. discriminate.
Qed.

(** ** Facts about lines and files *)

Lemma not_LF_true (c : ascii) : not_LF c = true <-> c <> LF.
Proof.
  unfold not_LF, is_not. rewrite negb_true_iff. split.
  - intros H ->. rewrite Ascii.eqb_refl in H. discriminate.
  - intros H. apply Ascii.eqb_neq. assumption.
Qed.

Lemma is_line_cons (c : ascii) (l : string) :
  c <> LF -> is_line l -> is_line (String c l).
Proof.
  intros Hc (b & -> & Hb). exists (String c b). split; [reflexivity|].
  rewrite all_chars_cons, Hb, andb_true_r. apply not_LF_true. assumption.
Qed.

Lemma is_last_line_cons (c : ascii) (l : string) :
  c <> LF -> is_last_line l -> is_last_line (String c l).
Proof.
  intros Hc [_ Hl]. split; [discriminate|].
  rewrite all_chars_cons, Hl, andb_true_r. apply not_LF_true. assumption.
Qed.

Lemma split_lines_ok (s : string) : lines_ok (split_lines s).
Proof.
  induction s as [|c s IH]; simpl; [exact I|].
  destruct (Ascii.eqb c LF) eqn:E.
  - apply Ascii.eqb_eq in E. subst c.
    assert (L : is_line (String LF "")) by (exists ""; split; reflexivity).
    simpl. destruct (split_lines s); [left; exact L | split; [exact L | exact IH]].
  - apply Ascii.eqb_neq in E.
    destruct (split_lines s) as [|l ls].
    + simpl. right. split; [discriminate|].
      rewrite all_chars_cons, andb_true_r. apply not_LF_true. assumption.
    + simpl in *. destruct ls.
      * destruct IH as [H|H]; [left; apply is_line_cons | right; apply is_last_line_cons];
          assumption.
      * destruct IH as [H1 H2]. split; [apply is_line_cons|]; assumption.
Qed.

Lemma split_lines_app_line (b s : string) :
  all_chars not_LF b = true ->
  split_lines ((b ++ nl) ++ s) = (b ++ nl) :: split_lines s.
Proof.
  induction b as [|c b IH]; intros Hb; [reflexivity|].
  rewrite all_chars_cons in Hb. apply andb_true_iff in Hb. destruct Hb as [Hc Hb].
  simpl. unfold not_LF, is_not in Hc. apply negb_true_iff in Hc. rewrite Hc.
  simpl in IH. rewrite (IH Hb). reflexivity.
Qed.

Lemma split_lines_last (l : string) : is_last_line l -> split_lines l = [l].
Proof.
  intros [Hne Hl]. induction l as [|c l IH]; [congruence|].
  rewrite all_chars_cons in Hl. apply andb_true_iff in Hl. destruct Hl as [Hc Hl].
  simpl. unfold not_LF, is_not in Hc. apply negb_true_iff in Hc. rewrite Hc.
  destruct l as [|d l]; [reflexivity|].
  rewrite IH; [reflexivity | discriminate | assumption].
Qed.

(** Reading back what [writelines] wrote gives the same lines. *)
Lemma split_lines_concat (ls : list string) :
  lines_ok ls -> split_lines (String.concat "" ls) = ls.
Proof.
  induction ls as [|l ls IH]; intros H; [reflexivity|].
  rewrite concat_nil_cons. simpl in H. destruct ls as [|l2 ls].
  - simpl String.concat. rewrite append_nil_r. destruct H as [(b & -> & Hb)|H].
    + rewrite <- (append_nil_r (b ++ nl)) at 1.
      rewrite split_lines_app_line by assumption. reflexivity.
    + apply split_lines_last. assumption.
  - destruct H as [(b & -> & Hb) H2].
    rewrite split_lines_app_line by assumption. rewrite IH by assumption.
    reflexivity.
Qed.

Lemma lines_ok_nth (ls : list string) : forall i l,
  lines_ok ls -> nth_error ls i = Some l -> is_line l \/ is_last_line l.
Proof.
  induction ls as [|l0 ls IH]; intros i l H E; [destruct i; discriminate|].
  simpl in H. destruct i as [|i]; simpl in E.
  - injection E as ->. destruct ls; [assumption | left; apply H].
  - destruct ls as [|l2 ls]; [destruct i; discriminate|].
    apply (IH i); [apply H | assumption].
Qed.

Lemma is_line_not_last (l : string) : is_line l -> is_last_line l -> False.
Proof.
  intros (b & -> & _) [_ H]. rewrite all_chars_app in H.
  apply andb_true_iff in H. destruct H as [_ H]. discriminate.
Qed.

Lemma set_nth_lines_ok (ls : list string) : forall i l l',
  lines_ok ls -> nth_error ls i = Some l -> same_shape l l' ->
  lines_ok (set_nth ls i l').
Proof.
  induction ls as [|l0 ls IH]; intros i l l' H E Hs; [exact I|].
  destruct i as [|i]; simpl in E.
  - injection E as ->. simpl in *. destruct ls as [|l2 ls].
    + destruct Hs as [[_ Hs]|[_ Hs]]; [left | right]; assumption.
    + destruct H as [H1 H2]. split; [|assumption].
      destruct Hs as [[_ Hs]|[Hs _]]; [assumption|].
      exfalso. eapply is_line_not_last; eassumption.
  - destruct ls as [|l2 ls]; [destruct i; discriminate|].
    simpl in H. destruct H as [H1 H2].
    specialize (IH i l l' H2 E Hs).
    change (set_nth (l0 :: l2 :: ls) (S i) l') with (l0 :: set_nth (l2 :: ls) i l').
    destruct (set_nth (l2 :: ls) i l') eqn:E2.
    + destruct i; discriminate.
    + simpl. split; assumption.
Qed.

Lemma set_nth_length {A : Type} (l : list A) : forall i x,
  List.length (set_nth l i x) = List.length l.
Proof.
  induction l as [|y l IH]; intros [|i] x; simpl; try reflexivity.
  now rewrite IH.
Qed.

Lemma set_nth_same {A : Type} (l : list A) : forall i x,
  i < List.length l -> nth_error (set_nth l i x) i = Some x.
Proof.
  induction l as [|y l IH]; intros [|i] x H; simpl in *; try lia; try reflexivity.
  apply IH. lia.
Qed.

Lemma set_nth_other {A : Type} (l : list A) : forall i j x,
  j <> i -> nth_error (set_nth l i x) j = nth_error l j.
Proof.
  induction l as [|y l IH]; intros [|i] [|j] x H; simpl; try reflexivity;
    try congruence.
  apply IH. congruence.
Qed.

Lemma split_lines_chars (q : ascii -> bool) (s : string) :
  all_chars q s = true -> Forall (fun l => all_chars q l = true) (split_lines s).
Proof.
  induction s as [|c s IH]; intros H; simpl; [constructor|].
  rewrite all_chars_cons in H. apply andb_true_iff in H. destruct H as [Hc Hs].
  specialize (IH Hs). destruct (Ascii.eqb c LF).
  - constructor; [|assumption]. rewrite all_chars_cons, Hc. reflexivity.
  - destruct (split_lines s) as [|l ls].
    + constructor; [|constructor]. rewrite all_chars_cons, Hc. reflexivity.
    + inversion IH; subst. constructor; [|assumption].
      rewrite all_chars_cons, Hc. assumption.
Qed.

Lemma concat_chars (q : ascii -> bool) (ls : list string) :
  Forall (fun l => all_chars q l = true) ls ->
  all_chars q (String.concat "" ls) = true.
Proof.
  induction 1 as [|l ls Hl _ IH]; [reflexivity|].
  rewrite concat_nil_cons, all_chars_app, Hl, IH. reflexivity.
Qed.

Lemma set_nth_Forall {A : Type} (P : A -> Prop) (l : list A) : forall i x,
  Forall P l -> P x -> Forall P (set_nth l i x).
Proof.
  induction l as [|y l IH]; intros [|i] x H Hx; simpl; try assumption;
    inversion H; subst; constructor; try assumption.
  apply IH; assumption.
Qed.

Lemma universal_newlines_cons (c : ascii) (r : string) :
  universal_newlines (String c r) =
  if Ascii.eqb c CR then
    match r with
    | String d r' =>
        if Ascii.eqb d LF then String LF (universal_newlines r')
        else String LF (universal_newlines r)
    | "" => String LF ""
    end
  else String c (universal_newlines r).
Proof. reflexivity. Qed.

Lemma universal_newlines_no_CR (s : string) :
  all_chars not_CR (universal_newlines s) = true.
Proof.
  assert (G : forall n s, String.length s <= n ->
                          all_chars not_CR (universal_newlines s) = true).
  { induction n as [|n IH]; intros t Ht.
    - destruct t; [reflexivity | simpl in Ht; lia].
    - destruct t as [|c t]; [reflexivity|]. simpl in Ht.
      rewrite universal_newlines_cons.
      destruct (Ascii.eqb c CR) eqn:E.
      + destruct t as [|d t]; [reflexivity|].
        destruct (Ascii.eqb d LF); rewrite all_chars_cons;
          change (not_CR LF) with true; cbn [andb];
          apply IH; simpl in *; lia.
      + rewrite all_chars_cons. unfold not_CR at 1, is_not. rewrite E.
        cbn [negb andb]. apply IH. lia. }
  apply (G (String.length s)). lia.
Qed.

Lemma universal_newlines_id (s : string) :
  all_chars not_CR s = true -> universal_newlines s = s.
Proof.
  induction s as [|c s IH]; intros H; [reflexivity|].
  rewrite all_chars_cons in H. apply andb_true_iff in H. destruct H as [Hc Hs].
  simpl. unfold not_CR, is_not in Hc. apply negb_true_iff in Hc. rewrite Hc.
  rewrite IH by assumption. reflexivity.
Qed.

(** ** Facts about the Line Patcher *)

(** The Line Patcher in closed form. *)
Lemma fix_unused_variable_eq (file_path : string) (line_num : Z) (var_name : string)
  (w : world) :
  fix_unused_variable file_path line_num var_name w =
  let w0 := logged w (file_path, line_num, var_name) in
  let full_path := join_path project_root file_path in
  match files w full_path with
  | None => Ok false w0
  | Some text =>
      let lines := lines_of text in
      if (line_num >? Z.of_nat (List.length lines))%Z then Ok false w0 else
      match py_pos lines (line_num - 1) with
      | None => Raised IndexError w0
      | Some i =>
          match nth_error lines i with
          | None => Raised IndexError w0
          | Some line =>
              if contains ("_" ++ var_name) line then Ok false w0 else
              match first_change (patterns_and_replacements var_name) line with
              | Some new_line =>
                  Ok true (written w0 full_path (set_nth lines i new_line))
              | None => Ok false w0
              end
          end
      end
  end.
Proof.
  unfold fix_unused_variable, bind, log_call, path_exists, readlines, logged,
    written, lines_of.
  cbn -[first_change patterns_and_replacements contains split_lines
        universal_newlines Z.gtb py_pos nth_error set_nth String.concat
        join_path project_root getitem setitem].
  destruct (files w (join_path project_root file_path)) as [text|] eqn:E;
    cbn -[first_change patterns_and_replacements contains split_lines
        universal_newlines Z.gtb py_pos nth_error set_nth String.concat
        join_path project_root getitem setitem];
    [rewrite E|reflexivity].
  destruct (line_num >? Z.of_nat
              (List.length (split_lines (universal_newlines text))))%Z;
    [reflexivity|].
  unfold getitem, setitem.
  destruct (py_pos (split_lines (universal_newlines text)) (line_num - 1))
    as [i|]; [|reflexivity].
  destruct (nth_error (split_lines (universal_newlines text)) i) as [line|];
    [|reflexivity].
  unfold ret. change ("_" ++ var_name) with (String "_" var_name).
  destruct (contains (String "_" var_name) line); [reflexivity|].
  destruct (first_change (patterns_and_replacements var_name) line);
    reflexivity.
Qed.

Lemma py_pos_lt {A : Type} (l : list A) (i : Z) (n : nat) :
  py_pos l i = Some n -> n < List.length l.
Proof.
  unfold py_pos. intros H.
  destruct ((0 <=? i) && (i <? Z.of_nat (List.length l)))%Z eqn:E1.
  - injection H as <-. apply andb_true_iff in E1. lia.
  - destruct ((- Z.of_nat (List.length l) <=? i) && (i <? 0))%Z eqn:E2;
      [|discriminate].
    injection H as <-. apply andb_true_iff in E2. lia.
Qed.

Lemma first_change_some (prs : list (regex * template)) (line new_line : string) :
  first_change prs line = Some new_line ->
  exists r t, In (r, t) prs /\ new_line = sub r t line /\ new_line <> line.
Proof.
  induction prs as [|[r t] prs IH]; simpl; intros H; [discriminate|].
  destruct (String.eqb (sub r t line) line) eqn:E.
  - destruct (IH H) as (r' & t' & Hin & Hs & Hn).
    exists r', t'. repeat split; auto.
  - injection H as <-. exists r, t. repeat split; auto.
    apply String.eqb_neq. assumption.
Qed.

Lemma prefix_spec (n h : string) :
  String.prefix n h = true <-> exists b, h = n ++ b.
Proof.
  revert h. induction n as [|c n IH]; intros h.
  - split; [intros _; exists h; reflexivity | intros _; destruct h; reflexivity].
  - destruct h as [|d h]; simpl.
    + split; [discriminate | intros [b Hb]; discriminate].
    + destruct (ascii_dec c d) as [->|Hcd].
      * rewrite IH. split; intros [b Hb]; exists b; congruence.
      * split; [discriminate | intros [b Hb]; congruence].
Qed.

(** [contains] decides the occurrence of a substring. *)
Lemma contains_spec (n h : string) :
  contains n h = true <-> exists a b, h = a ++ n ++ b.
Proof.
  induction h as [|d h IH].
  - change (contains n "") with (String.prefix n "" || false).
    rewrite orb_false_r, prefix_spec. split.
    + intros [b ->]. exists "", b. reflexivity.
    + intros (a & b & H). destruct a; [exists b; exact H | discriminate].
  - change (contains n (String d h))
      with (String.prefix n (String d h) || contains n h).
    rewrite orb_true_iff, IH, prefix_spec. split.
    + intros [[b Hb]|(a & b & ->)].
      * exists "", b. exact Hb.
      * exists (String d a), b. reflexivity.
    + intros (a & b & H). destruct a as [|c a].
      * left. exists b. exact H.
      * right. simpl in H. injection H as _ H. exists a, b. exact H.
Qed.

Lemma universal_newlines_nonempty (s : string) :
  s <> "" -> universal_newlines s <> "".
Proof.
  destruct s as [|c s]; [congruence|]. intros _.
  rewrite universal_newlines_cons.
  destruct (Ascii.eqb c CR); [|discriminate].
  destruct s as [|d s]; [discriminate|]. destruct (Ascii.eqb d LF); discriminate.
Qed.

Lemma split_lines_nonempty (s : string) : s <> "" -> split_lines s <> [].
Proof.
  destruct s as [|c s]; [congruence|]. intros _. simpl.
  destruct (Ascii.eqb c LF); [discriminate|].
  destruct (split_lines s); discriminate.
Qed.

Lemma lines_of_nonempty (text : string) : text <> "" -> lines_of text <> [].
Proof.
  intros H. apply split_lines_nonempty, universal_newlines_nonempty, H.
Qed.

(** ** The claims about the guards of the Line Patcher *)

(** C4. A diagnostic whose resolved file does not exist, and a diagnostic
    whose line number exceeds the number of lines of its file, are "not
    fixed": the Line Patcher returns False, writes nothing and raises no
    exception. *)
Theorem missing_file_or_line_beyond_end_not_fixed
  (file_path : string) (line_num : Z) (var_name : string) (w : world) :
  files w (join_path project_root file_path) = None \/
  (exists text, files w (join_path project_root file_path) = Some text /\
                (Z.of_nat (List.length (lines_of text)) < line_num)%Z) ->
  exists w', fix_unused_variable file_path line_num var_name w = Ok false w' /\
             files w' = files w /\ writes w' = writes w.
Proof.
  intros H. rewrite fix_unused_variable_eq. cbv zeta.
  destruct H as [H|(text & H & Hn)]; rewrite H.
  - eexists. split; [reflexivity|]. split; reflexivity.
  - apply Z.gtb_lt in Hn. rewrite Hn.
    eexists. split; [reflexivity|]. split; reflexivity.
Qed.

Lemma missing_file_or_line_beyond_end_witness :
  (exists w', fix_unused_variable "src/gone.ts" 3 "x" (world_of []) = Ok false w' /\
              files w' = files (world_of []) /\ writes w' = writes (world_of [])) /\
  (exists w', fix_unused_variable "src/a.ts" 3 "x"
                (world_of [("src/a.ts", "let x = 1;" ++ nl ++ "let y = 2;" ++ nl)])
              = Ok false w' /\
              files w' = files (world_of [("src/a.ts", "let x = 1;" ++ nl ++ "let y = 2;" ++ nl)]) /\
              writes w' = writes (world_of [("src/a.ts", "let x = 1;" ++ nl ++ "let y = 2;" ++ nl)])).
Proof.
  split.
  - apply (missing_file_or_line_beyond_end_not_fixed "src/gone.ts" 3 "x" (world_of [])).
    left. reflexivity.
  - apply (missing_file_or_line_beyond_end_not_fixed "src/a.ts" 3 "x"
             (world_of [("src/a.ts", "let x = 1;" ++ nl ++ "let y = 2;" ++ nl)])).
    right. exists ("let x = 1;" ++ nl ++ "let y = 2;" ++ nl).
    split; [reflexivity | vm_compute; reflexivity].
Defined.

(** C3. Whenever the text made of an underscore followed by the identifier
    occurs anywhere in the referenced line, be it inside a longer unrelated
    token, the Line Patcher returns False and leaves the file alone. *)
Theorem underscore_occurrence_not_fixed
  (file_path : string) (line_num : Z) (var_name : string) (w : world)
  (text before after : string) :
  files w (join_path project_root file_path) = Some text ->
  line_at (lines_of text) line_num = Some (before ++ "_" ++ var_name ++ after) ->
  exists w', fix_unused_variable file_path line_num var_name w = Ok false w' /\
             files w' = files w /\ writes w' = writes w.
Proof.
  intros Hf Hl. rewrite fix_unused_variable_eq. cbv zeta. rewrite Hf.
  destruct (line_num >? Z.of_nat (List.length (lines_of text)))%Z.
  - eexists. split; [reflexivity|]. split; reflexivity.
  - unfold line_at in Hl.
    destruct (py_pos (lines_of text) (line_num - 1)) as [i|]; [|discriminate].
    rewrite Hl.
    assert (C : contains ("_" ++ var_name) (before ++ "_" ++ var_name ++ after) = true).
    { apply contains_spec. exists before, after.
      rewrite (append_assoc "_" var_name after). reflexivity. }
    rewrite C. eexists. split; [reflexivity|]. split; reflexivity.
Qed.

Lemma underscore_occurrence_witness :
  exists w', fix_unused_variable "src/a.ts" 1 "foo"
               (world_of [("src/a.ts", "const my_foo = foo;" ++ nl)]) = Ok false w' /\
             files w' = files (world_of [("src/a.ts", "const my_foo = foo;" ++ nl)]) /\
             writes w' = writes (world_of [("src/a.ts", "const my_foo = foo;" ++ nl)]).
Proof.
  apply (underscore_occurrence_not_fixed "src/a.ts" 1 "foo"
           (world_of [("src/a.ts", "const my_foo = foo;" ++ nl)])
           ("const my_foo = foo;" ++ nl) "const my" (" = foo;" ++ nl));
    reflexivity.
Defined.

(** C10. On an existing, non-empty file, line number 0 is not rejected as
    out of range. The guard only rejects line numbers above the line count
    and index -1 denotes the last line, so the call examines the last line
    and does to it exactly what the call with the number of the last line
    does: a last line that holds the underscored identifier is left alone
    and the call returns not fixed; otherwise, for an identifier made of
    word characters, the first pattern that changes the last line rewrites
    it, the file is written with that line replaced and the call returns
    fixed, and when no pattern changes it the call returns not fixed. *)
Theorem line_zero_targets_last_line
  (file_path : string) (var_name : string) (w : world) (text : string) :
  files w (join_path project_root file_path) = Some text ->
  text <> "" ->
  let lines := lines_of text in
  let last_line := List.last lines "" in
  let w0 := logged w (file_path, 0%Z, var_name) in
  line_at lines 0 = Some last_line /\
  same_effect (fix_unused_variable file_path 0 var_name w)
              (fix_unused_variable file_path (Z.of_nat (List.length lines)) var_name w) /\
  (contains ("_" ++ var_name) last_line = true ->
   fix_unused_variable file_path 0 var_name w = Ok false w0) /\
  (plain_identifier var_name = true ->
   contains ("_" ++ var_name) last_line = false ->
   fix_unused_variable file_path 0 var_name w =
   match first_change (patterns_and_replacements var_name) last_line with
   | Some new_line =>
       Ok true (written w0 (join_path project_root file_path)
                  (set_nth lines (List.length lines - 1) new_line))
   | None => Ok false w0
   end).
Proof.
  intros Hf Hne lines last_line w0.
  pose proof (lines_of_nonempty text Hne) as Hl. fold lines in Hl.
  assert (Hlen : 0 < List.length lines) by (destruct lines; [congruence | simpl; lia]).
  assert (P0 : py_pos lines (0 - 1) = Some (List.length lines - 1)).
  { unfold py_pos.
    replace ((0 <=? 0 - 1) && (0 - 1 <? Z.of_nat (List.length lines)))%Z
      with false by (symmetry; apply andb_false_iff; left; apply Z.leb_gt; lia).
    replace ((- Z.of_nat (List.length lines) <=? 0 - 1) && (0 - 1 <? 0))%Z
      with true by (symmetry; apply andb_true_iff; split;
                    [apply Z.leb_le | apply Z.ltb_lt]; lia).
    f_equal. lia. }
  assert (Pn : py_pos lines (Z.of_nat (List.length lines) - 1)
               = Some (List.length lines - 1)).
  { unfold py_pos.
    replace ((0 <=? Z.of_nat (List.length lines) - 1) &&
             (Z.of_nat (List.length lines) - 1 <? Z.of_nat (List.length lines)))%Z
      with true by (symmetry; apply andb_true_iff; split;
                    [apply Z.leb_le | apply Z.ltb_lt]; lia).
    f_equal. lia. }
  assert (Hlast : nth_error lines (List.length lines - 1) = Some last_line).
  { subst last_line. clear -Hlen. induction lines as [|l ls IH]; [simpl in Hlen; lia|].
    destruct ls as [|l2 ls]; [reflexivity|].
    replace (List.length (l :: l2 :: ls) - 1) with (S (List.length (l2 :: ls) - 1))
      by (simpl; lia).
    cbn [nth_error]. rewrite IH by (simpl; lia). reflexivity. }
  assert (G0 : (0 >? Z.of_nat (List.length lines))%Z = false)
    by (rewrite Z.gtb_ltb; apply Z.ltb_ge; lia).
  split; [|split; [|split]].
  - unfold line_at. rewrite P0. exact Hlast.
  - rewrite !fix_unused_variable_eq. cbv zeta. rewrite Hf. fold lines.
    rewrite G0.
    replace (Z.of_nat (List.length lines) >? Z.of_nat (List.length lines))%Z with false
      by (symmetry; rewrite Z.gtb_ltb; apply Z.ltb_irrefl).
    rewrite P0, Pn, Hlast.
    destruct (contains ("_" ++ var_name) last_line);
      [repeat split|].
    destruct (first_change (patterns_and_replacements var_name) last_line);
      repeat split.
  - intros Hc. rewrite fix_unused_variable_eq. cbv zeta. rewrite Hf. fold lines.
    rewrite G0, P0, Hlast, Hc. reflexivity.
  - intros _ Hc. rewrite fix_unused_variable_eq. cbv zeta. rewrite Hf. fold lines.
    rewrite G0, P0, Hlast, Hc. reflexivity.
Qed.

Lemma line_zero_targets_last_line_witness :
  let text := "let a = 1;" ++ nl ++ "const result = compute();" ++ nl in
  let w := world_of [("src/a.ts", text)] in
  let w0 := logged w ("src/a.ts", 0%Z, "result") in
  line_at (lines_of text) 0 = Some ("const result = compute();" ++ nl) /\
  same_effect
    (fix_unused_variable "src/a.ts" 0 "result" w)
    (fix_unused_variable "src/a.ts" 2 "result" w) /\
  (contains "_result" ("const result = compute();" ++ nl) = true ->
   fix_unused_variable "src/a.ts" 0 "result" w = Ok false w0) /\
  (plain_identifier "result" = true ->
   contains "_result" ("const result = compute();" ++ nl) = false ->
   fix_unused_variable "src/a.ts" 0 "result" w =
   Ok true (written w0 (join_path project_root "src/a.ts")
              ["let a = 1;" ++ nl; "const _result = compute();" ++ nl])).
Proof.
  apply (line_zero_targets_last_line "src/a.ts" "result"
           (world_of [("src/a.ts", "let a = 1;" ++ nl ++ "const result = compute();" ++ nl)])
           ("let a = 1;" ++ nl ++ "const result = compute();" ++ nl)).
  - reflexivity.
  - discriminate.
Defined.

(** Line number 0 rewrites the last line of the file. *)
Example line_zero_rewrites_last_line :
  let r := fix_unused_variable "src/a.ts" 0 "result"
             (world_of [("src/a.ts", "let a = 1;" ++ nl ++ "const result = compute();" ++ nl)]) in
  same_effect r (Ok true (final r)) /\
  files (final r) (join_path project_root "src/a.ts")
  = Some ("let a = 1;" ++ nl ++ "const _result = compute();" ++ nl).
Proof. vm_compute. repeat split. Qed.

(** ** Shapes of the five rewrite patterns *)

Lemma all_chars_impl (f g : ascii -> bool) (s : string) :
  (forall c, f c = true -> g c = true) ->
  all_chars f s = true -> all_chars g s = true.
Proof.
  intros Hfg. induction s as [|c s IH]; intros H; [reflexivity|].
  rewrite all_chars_cons in *. apply andb_true_iff in H. destruct H as [Hc Hs].
  rewrite (Hfg c Hc), (IH Hs). reflexivity.
Qed.

Lemma word_is_not (d : ascii) (c : ascii) :
  is_word d = false -> is_word c = true -> is_not d c = true.
Proof.
  intros Hd Hc. unfold is_not. apply negb_true_iff.
  destruct (Ascii.eqb c d) eqn:E; [|reflexivity].
  apply Ascii.eqb_eq in E. subst. congruence.
Qed.

Lemma plain_identifier_spec (v : string) :
  plain_identifier v = true -> v <> "" /\ all_chars is_word v = true.
Proof.
  unfold plain_identifier. intros H. apply andb_true_iff in H.
  destruct H as [H1 H2]. split; [|assumption].
  intros ->. discriminate.
Qed.

Lemma last_of_all (f : ascii -> bool) (v : string) : forall p,
  all_chars f v = true -> v <> "" ->
  exists c, last_of v p = Some c /\ f c = true.
Proof.
  induction v as [|c v IH]; intros p H Hne; [congruence|].
  rewrite all_chars_cons in H. apply andb_true_iff in H. destruct H as [Hc Hv].
  destruct v as [|d v].
  - exists c. split; [reflexivity | assumption].
  - apply (IH (Some c)); [assumption | discriminate].
Qed.

Ltac each_pattern :=
  unfold patterns_and_replacements;
  apply Forall_cons; [|apply Forall_cons; [|apply Forall_cons;
    [|apply Forall_cons; [|apply Forall_cons; [|apply Forall_nil]]]]];
  cbn [fst snd].

Section PatternShapes.

Variable q : ascii -> bool.
Hypothesis q_word : forall c, is_word c = true -> q c = true.
Hypothesis q_punct : forall c, In c (list_ascii_of_string "_{( :,}") -> q c = true.

Variable v : string.
Hypothesis v_plain : plain_identifier v = true.

Lemma ends_in_identifier : ends_in q (Lit v).
Proof.
  destruct (plain_identifier_spec v v_plain) as [Hne Hw].
  destruct (last_of_all is_word v None Hw Hne) as (c & Hl & Hc).
  simpl. rewrite Hl. apply q_word. assumption.
Qed.

Lemma identifier_chars : all_chars q v = true.
Proof.
  apply (all_chars_impl is_word); [exact q_word|].
  apply plain_identifier_spec. exact v_plain.
Qed.

Lemma patterns_end_in :
  Forall (fun pr => ends_in q (fst pr)) (patterns_and_replacements v).
Proof.
  pose proof ends_in_identifier as Hv.
  assert (Hp : forall c, In c (list_ascii_of_string "_{( :,}") ->
                         ends_in q (Lit (String c ""))).
  { intros c Hc. simpl. apply q_punct. assumption. }
  each_pattern.
  - unfold import_pattern. cbn [seq ends_in]. left. left. left.
    split; left; apply Hp; simpl; tauto.
  - unfold destructuring_pattern. cbn [seq ends_in zero_width].
    left. left. right. split; [exact I | exact Hv].
  - unfold declaration_pattern. cbn [seq ends_in zero_width].
    left. left. left. right. split; [exact I | exact Hv].
  - unfold parameter_pattern. cbn [seq ends_in zero_width].
    left. left. left. right. split; [exact I | exact Hv].
  - unfold annotated_pattern. cbn [seq ends_in]. left. left. left.
    apply Hp. simpl. tauto.
Qed.

Lemma templates_ok :
  Forall (fun pr => template_ok q (snd pr)) (patterns_and_replacements v).
Proof.
  pose proof identifier_chars as Hv.
  assert (Hp : forall s, Forall (fun c => In c (list_ascii_of_string "_{( :,}"))
                                (list_ascii_of_string s) ->
                         all_chars q (s ++ v) = true).
  { intros s Hs. rewrite all_chars_app, Hv, andb_true_r.
    unfold all_chars. apply forallb_forall. intros c Hc.
    apply q_punct. rewrite Forall_forall in Hs. apply Hs. assumption. }
  assert (H1 : all_chars q ("_" ++ v) = true).
  { apply (Hp "_"). repeat apply Forall_cons; try apply Forall_nil; simpl; tauto. }
  assert (H2 : all_chars q (" _" ++ v) = true).
  { apply (Hp " _"). repeat apply Forall_cons; try apply Forall_nil; simpl; tauto. }
  assert (H3 : all_chars q "{" = true).
  { rewrite all_chars_cons, (q_punct "{") by (simpl; tauto). reflexivity. }
  assert (H4 : all_chars q "(" = true).
  { rewrite all_chars_cons, (q_punct "(") by (simpl; tauto). reflexivity. }
  assert (H5 : all_chars q ("_" ++ v ++ ":") = true).
  { change ("_" ++ v ++ ":") with (String "_" (v ++ ":")).
    rewrite all_chars_cons, all_chars_app, Hv.
    rewrite (q_punct "_") by (simpl; tauto).
    rewrite all_chars_cons, (q_punct ":") by (simpl; tauto). reflexivity. }
  unfold template_ok. each_pattern.
  - unfold import_replacement.
    apply Forall_cons; [exact H1 | apply Forall_cons; [exact I | apply Forall_nil]].
  - unfold destructuring_replacement.
    apply Forall_cons; [exact H3 | apply Forall_cons; [exact I |
      apply Forall_cons; [exact H1 | apply Forall_nil]]].
  - unfold declaration_replacement.
    apply Forall_cons; [exact I | apply Forall_cons; [exact H2 | apply Forall_nil]].
  - unfold parameter_replacement.
    apply Forall_cons; [exact H4 | apply Forall_cons; [exact I |
      apply Forall_cons; [exact H1 | apply Forall_nil]]].
  - unfold annotated_replacement.
    apply Forall_cons; [exact H5 | apply Forall_nil].
Qed.

End PatternShapes.

Lemma templates_nonempty (v : string) :
  Forall (fun pr => template_nonempty (snd pr)) (patterns_and_replacements v).
Proof.
  unfold template_nonempty. each_pattern.
  - apply Exists_cons_hd. discriminate.
  - apply Exists_cons_hd. discriminate.
  - apply Exists_cons_tl, Exists_cons_hd. discriminate.
  - apply Exists_cons_hd. discriminate.
  - apply Exists_cons_hd. discriminate.
Qed.

(** What a rewrite by one of the five patterns keeps of a line. *)
Lemma rewrite_keeps_shape (v line new_line : string) :
  plain_identifier v = true ->
  is_line line \/ is_last_line line ->
  first_change (patterns_and_replacements v) line = Some new_line ->
  same_shape line new_line /\
  (all_chars not_CR line = true -> all_chars not_CR new_line = true).
Proof.
  intros Hv Hl Hfc.
  destruct (first_change_some _ _ _ Hfc) as (r & t & Hin & -> & _).
  assert (Hw : forall d, is_word d = false ->
                         forall c, is_word c = true -> is_not d c = true).
  { intros d Hd c Hc. apply word_is_not; assumption. }
  assert (Hpunct : forall d, forallb (is_not d) (list_ascii_of_string "_{( :,}") = true ->
             forall c, In c (list_ascii_of_string "_{( :,}") -> is_not d c = true).
  { intros d Hd c Hc. rewrite forallb_forall in Hd. apply Hd. assumption. }
  pose proof (patterns_end_in not_LF (Hw LF eq_refl) (Hpunct LF eq_refl) v Hv) as E.
  pose proof (templates_ok not_LF (Hw LF eq_refl) (Hpunct LF eq_refl) v Hv) as TL.
  pose proof (templates_ok not_CR (Hw CR eq_refl) (Hpunct CR eq_refl) v Hv) as TC.
  pose proof (templates_nonempty v) as TN.
  rewrite Forall_forall in E, TL, TC, TN.
  specialize (E _ Hin). specialize (TL _ Hin). specialize (TC _ Hin).
  specialize (TN _ Hin). cbn [fst snd] in *.
  split.
  - destruct Hl as [Hl|Hl].
    + left. split; [assumption|]. destruct Hl as (b & -> & Hb).
      destruct (sub_line r t b E TL Hb) as (o & Ho & Hlf).
      exists o. split; assumption.
    + right. split; [assumption|]. destruct Hl as [Hne Hlf]. split.
      * apply sub_nonempty; assumption.
      * apply sub_keeps_chars; assumption.
  - intros Hc. apply sub_keeps_chars; assumption.
Qed.

(** After a rewrite, reading the file again gives the lines that were
    written: the old lines with the one at [i] replaced. *)
Lemma rewrite_reads_back (v text line new_line : string) (i : nat) :
  plain_identifier v = true ->
  nth_error (lines_of text) i = Some line ->
  first_change (patterns_and_replacements v) line = Some new_line ->
  let text' := String.concat "" (set_nth (lines_of text) i new_line) in
  all_chars not_CR text' = true /\
  split_lines text' = set_nth (lines_of text) i new_line.
Proof.
  intros Hv Hn Hfc text'.
  pose proof (split_lines_ok (universal_newlines text)) as Hok.
  fold (lines_of text) in Hok.
  pose proof (split_lines_chars not_CR _ (universal_newlines_no_CR text)) as Hcr.
  fold (lines_of text) in Hcr.
  destruct (rewrite_keeps_shape v line new_line Hv (lines_ok_nth _ _ _ Hok Hn) Hfc)
    as [Hshape Hkeep].
  split.
  - apply concat_chars. apply set_nth_Forall; [assumption|].
    apply Hkeep. rewrite Forall_forall in Hcr. apply Hcr.
    eapply nth_error_In. eassumption.
  - apply split_lines_concat. eapply set_nth_lines_ok; eassumption.
Qed.

(** ** The claim about what a fix writes *)

(** C9, as stated, fails on a file with CR LF line ends: the file is read
    with universal newlines and written back with LF only, so the bytes of
    the lines that were not targeted change too. Here line 2 is fixed and
    line 1 loses its CR. *)
Lemma crlf_file_untargeted_line_changes :
  let text := "let a = 1;" ++ crlf ++ "const result = compute();" ++ crlf in
  let r := fix_unused_variable "src/a.ts" 2 "result" (world_of [("src/a.ts", text)]) in
  same_effect r (Ok true (final r)) /\
  files (final r) (join_path project_root "src/a.ts")
  = Some ("let a = 1;" ++ nl ++ "const _result = compute();" ++ nl) /\
  nth_error (split_lines text) 0 = Some ("let a = 1;" ++ crlf) /\
  nth_error (split_lines ("let a = 1;" ++ nl ++ "const _result = compute();" ++ nl)) 0
  <> nth_error (split_lines text) 0.
Proof.
  vm_compute. repeat split. discriminate.
Qed.

(** C9, amended. When a call for an identifier made of word characters
    (letters, digits, underscore) returns True, the file written back, read
    the way the script reads files (CR LF and CR taken as LF), has as many
    lines as the file that was read and differs from it at most in the line
    at the index the call targets; no other file changes. When the file that
    was read contains no CR, the same holds of the lines byte for byte. *)
Theorem fixed_call_rewrites_one_line
  (file_path : string) (line_num : Z) (var_name : string) (w w' : world)
  (text : string) :
  plain_identifier var_name = true ->
  files w (join_path project_root file_path) = Some text ->
  fix_unused_variable file_path line_num var_name w = Ok true w' ->
  exists i text',
    py_pos (lines_of text) (line_num - 1) = Some i /\
    files w' (join_path project_root file_path) = Some text' /\
    (forall p, p <> join_path project_root file_path -> files w' p = files w p) /\
    List.length (lines_of text') = List.length (lines_of text) /\
    (forall j, j <> i -> nth_error (lines_of text') j = nth_error (lines_of text) j) /\
    (all_chars not_CR text = true ->
     List.length (split_lines text') = List.length (split_lines text) /\
     forall j, j <> i -> nth_error (split_lines text') j = nth_error (split_lines text) j).
Proof.
  intros Hv Hf H. rewrite fix_unused_variable_eq in H. cbv zeta in H.
  rewrite Hf in H.
  destruct (line_num >? Z.of_nat (List.length (lines_of text)))%Z; [discriminate|].
  destruct (py_pos (lines_of text) (line_num - 1)) as [i|] eqn:Hi; [|discriminate].
  destruct (nth_error (lines_of text) i) as [line|] eqn:Hn; [|discriminate].
  destruct (contains ("_" ++ var_name) line); [discriminate|].
  destruct (first_change (patterns_and_replacements var_name) line)
    as [new_line|] eqn:Hfc; [|discriminate].
  injection H as <-.
  destruct (rewrite_reads_back var_name text line new_line i Hv Hn Hfc)
    as [Hcr Hback].
  set (text' := String.concat "" (set_nth (lines_of text) i new_line)) in *.
  assert (Hlines : lines_of text' = set_nth (lines_of text) i new_line).
  { unfold lines_of at 1. rewrite (universal_newlines_id text' Hcr). exact Hback. }
  exists i, text'.
  split; [reflexivity|].
  split; [cbn [files written]; rewrite String.eqb_refl; reflexivity|].
  split.
  { intros p Hp. cbn [files written logged].
    apply String.eqb_neq in Hp. rewrite Hp. reflexivity. }
  split; [rewrite Hlines; apply set_nth_length|].
  split; [intros j Hj; rewrite Hlines; apply set_nth_other; assumption|].
  intros Hc.
  assert (Hraw : lines_of text = split_lines text).
  { unfold lines_of. rewrite (universal_newlines_id text Hc). reflexivity. }
  rewrite Hback, <- Hraw.
  split; [apply set_nth_length | intros j Hj; apply set_nth_other; assumption].
Qed.

Lemma fixed_call_rewrites_one_line_witness :
  exists i text',
    py_pos (lines_of ("let a = 1;" ++ nl ++ "const result = compute();" ++ nl)) (2 - 1)
    = Some i /\
    files (written (logged (world_of [("src/a.ts", "let a = 1;" ++ nl ++ "const result = compute();" ++ nl)])
                           ("src/a.ts", 2%Z, "result"))
                   (join_path project_root "src/a.ts")
                   ["let a = 1;" ++ nl; "const _result = compute();" ++ nl])
          (join_path project_root "src/a.ts") = Some text' /\
    (forall p, p <> join_path project_root "src/a.ts" ->
       files (written (logged (world_of [("src/a.ts", "let a = 1;" ++ nl ++ "const result = compute();" ++ nl)])
                              ("src/a.ts", 2%Z, "result"))
                      (join_path project_root "src/a.ts")
                      ["let a = 1;" ++ nl; "const _result = compute();" ++ nl]) p
       = files (world_of [("src/a.ts", "let a = 1;" ++ nl ++ "const result = compute();" ++ nl)]) p) /\
    List.length (lines_of text')
    = List.length (lines_of ("let a = 1;" ++ nl ++ "const result = compute();" ++ nl)) /\
    (forall j, j <> i ->
       nth_error (lines_of text') j
       = nth_error (lines_of ("let a = 1;" ++ nl ++ "const result = compute();" ++ nl)) j) /\
    (all_chars not_CR ("let a = 1;" ++ nl ++ "const result = compute();" ++ nl) = true ->
     List.length (split_lines text')
     = List.length (split_lines ("let a = 1;" ++ nl ++ "const result = compute();" ++ nl)) /\
     forall j, j <> i ->
       nth_error (split_lines text') j
       = nth_error (split_lines ("let a = 1;" ++ nl ++ "const result = compute();" ++ nl)) j).
Proof.
  apply (fixed_call_rewrites_one_line "src/a.ts" 2 "result"
           (world_of [("src/a.ts", "let a = 1;" ++ nl ++ "const result = compute();" ++ nl)])).
  - reflexivity.
  - reflexivity.
  - vm_compute. reflexivity.
Defined.

(** ** Facts about the Orchestrator *)

Lemma filter_all {A : Type} (l : list A) : filter (fun _ => true) l = l.
Proof. induction l as [|x l IH]; simpl; congruence. Qed.

(** [main] in closed form. *)
Lemma main_eq (build : world -> string) (w : world) :
  main build w =
  let w1 := after_print w "Analyzing TypeScript errors..." in
  let errors := parse_ts_errors (build w1) in
  let w2 := after_print w1 ("Found " ++ str_of_nat (List.length errors)
                            ++ " unused variable errors") in
  match errors with
  | [] => Ok 0%Z (after_print w2 "No TS6133 errors found!")
  | _ :: _ =>
      let files_to_fix := group_by_file errors in
      let w3 := after_print w2 ("Fixing " ++ str_of_nat (List.length files_to_fix)
                                ++ " files...") in
      match fix_files (sorted_items files_to_fix) 0 w3 with
      | Ok fixed_count w4 =>
          let w5 := after_print w4 (nl ++ "Fixed " ++ str_of_nat fixed_count
                                    ++ " unused variables") in
          let w6 := after_print w5 (nl ++ "Running build to verify...") in
          Ok 0%Z (after_print w6
                    ("Remaining TS6133 errors: "
                     ++ str_of_nat (List.length
                                      (finditer (Lit "error TS6133:") (build w6)))))
      | Raised e w4 => Raised e w4
      end
  end.
Proof.
  unfold main, get_ts_errors, run_build, bind, print, ret, after_print.
  cbv zeta. rewrite filter_all.
  destruct (parse_ts_errors _) as [|e es]; [reflexivity|].
  cbn [files console writes calls].
  match goal with
  | |- context [fix_files ?a ?b ?c] => destruct (fix_files a b c)
  end; reflexivity.
Qed.

(** C7. When the Diagnostic Collector finds no diagnostic, the Orchestrator
    reports that none were found, calls the Line Patcher for nothing, writes
    no file and ends with exit status zero. *)
Theorem no_diagnostics_no_writes (build : world -> string) (w : world) :
  parse_ts_errors (build (after_print w "Analyzing TypeScript errors...")) = [] ->
  exists w',
    main build w = Ok 0%Z w' /\
    exit_status (main build w) = 0%Z /\
    console w' = (console w ++ ["Analyzing TypeScript errors...";
                                "Found 0 unused variable errors";
                                "No TS6133 errors found!"])%list /\
    files w' = files w /\ writes w' = writes w /\ calls w' = calls w.
Proof.
  intros H. rewrite main_eq. cbv zeta. rewrite H.
  eexists. split; [reflexivity|]. split; [reflexivity|].
  cbn [console files writes calls after_print List.length].
  rewrite <- !app_assoc. repeat split.
Qed.

Lemma no_diagnostics_no_writes_witness :
  exists w',
    main (fun _ => "src/a.ts(3,7): error TS2304: Cannot find name 'x'." ++ nl)
         (world_of [("src/a.ts", "let x = 1;" ++ nl)]) = Ok 0%Z w' /\
    exit_status (main (fun _ => "src/a.ts(3,7): error TS2304: Cannot find name 'x'." ++ nl)
                      (world_of [("src/a.ts", "let x = 1;" ++ nl)])) = 0%Z /\
    console w' = (console (world_of [("src/a.ts", ("let x = 1;" ++ nl)%string)])
                  ++ ["Analyzing TypeScript errors...";
                      "Found 0 unused variable errors";
                      "No TS6133 errors found!"])%list /\
    files w' = files (world_of [("src/a.ts", "let x = 1;" ++ nl)]) /\
    writes w' = writes (world_of [("src/a.ts", "let x = 1;" ++ nl)]) /\
    calls w' = calls (world_of [("src/a.ts", "let x = 1;" ++ nl)]).
Proof.
  apply (no_diagnostics_no_writes
           (fun _ => "src/a.ts(3,7): error TS2304: Cannot find name 'x'." ++ nl)
           (world_of [("src/a.ts", "let x = 1;" ++ nl)])).
  vm_compute. reflexivity.
Defined.

(** C8, the failing run. The build reports an unused variable at line 0 of a
    file that exists and is empty: the guard on the line number lets 0
    through, [lines[-1]] raises IndexError on the empty list, nothing
    catches it and the process ends with status 1. *)
Theorem line_zero_of_empty_file_exit_status :
  let build := fun _ : world =>
    "src/a.ts(0,1): error TS6133: 'x' is declared but its value is never read." ++ nl in
  let w := world_of [("src/a.ts", "")] in
  parse_ts_errors (build w) = [Error "src/a.ts" 0 1 "x"] /\
  (exists w', main build w = Raised IndexError w') /\
  exit_status (main build w) = 1%Z.
Proof.
  vm_compute. split; [reflexivity|]. split; [eexists; reflexivity | reflexivity].
Qed.

(** ** Order on strings *)

Lemma code_inj (c d : ascii) : code c = code d -> c = d.
Proof.
  unfold code. intros H.
  rewrite <- (ascii_N_embedding c), <- (ascii_N_embedding d), H. reflexivity.
Qed.

Lemma ascii_eqb_code (c d : ascii) : Ascii.eqb c d = (code c =? code d)%N.
Proof.
  destruct (Ascii.eqb c d) eqn:E.
  - apply Ascii.eqb_eq in E. subst. symmetry. apply N.eqb_refl.
  - symmetry. apply N.eqb_neq. intros H. apply code_inj in H.
    apply Ascii.eqb_neq in E. contradiction.
Qed.

Lemma str_ltb_cons (c d : ascii) (a b : string) :
  str_ltb (String c a) (String d b) = true <->
  (code c < code d)%N \/ (code c = code d /\ str_ltb a b = true).
Proof.
  simpl. rewrite orb_true_iff, andb_true_iff, N.ltb_lt, ascii_eqb_code, N.eqb_eq.
  reflexivity.
Qed.

Lemma str_ltb_irrefl (a : string) : str_ltb a a = false.
Proof.
  induction a as [|c a IH]; [reflexivity|].
  apply not_true_is_false. rewrite str_ltb_cons. intros [H|[_ H]]; [lia | congruence].
Qed.

Lemma str_ltb_trans (a : string) : forall b c,
  str_ltb a b = true -> str_ltb b c = true -> str_ltb a c = true.
Proof.
  induction a as [|x a IH]; intros [|y b] [|z c] H1 H2; try discriminate;
    try reflexivity.
  rewrite str_ltb_cons in *.
  destruct H1 as [H1|[E1 H1]], H2 as [H2|[E2 H2]].
  - left. lia.
  - left. lia.
  - left. lia.
  - right. split; [lia | eapply IH; eassumption].
Qed.

Lemma str_ltb_trichotomy (a : string) : forall b,
  str_ltb a b = false -> str_ltb b a = false -> a = b.
Proof.
  induction a as [|x a IH]; intros [|y b] H1 H2; try discriminate; [reflexivity|].
  assert (N1 : ~ ((code x < code y)%N \/ (code x = code y /\ str_ltb a b = true))).
  { rewrite <- str_ltb_cons. congruence. }
  assert (N2 : ~ ((code y < code x)%N \/ (code y = code x /\ str_ltb b a = true))).
  { rewrite <- str_ltb_cons. congruence. }
  assert (E : code x = code y) by lia.
  apply code_inj in E. subst y. f_equal. apply IH.
  - apply not_true_is_false. intros H. apply N1. right. split; [reflexivity | assumption].
  - apply not_true_is_false. intros H. apply N2. right. split; [reflexivity | assumption].
Qed.

Lemma str_leb_total (a b : string) : str_leb a b = false -> str_leb b a = true.
Proof.
  unfold str_leb. rewrite negb_false_iff, negb_true_iff. intros H.
  apply not_true_is_false. intros H2.
  pose proof (str_ltb_trans _ _ _ H H2) as H3.
  rewrite str_ltb_irrefl in H3. discriminate.
Qed.

Lemma str_leb_trans (a b c : string) :
  str_leb a b = true -> str_leb b c = true -> str_leb a c = true.
Proof.
  unfold str_leb. rewrite !negb_true_iff. intros H1 H2.
  apply not_true_is_false. intros H3.
  destruct (str_ltb a b) eqn:Hab.
  - pose proof (str_ltb_trans _ _ _ H3 Hab) as H4. congruence.
  - pose proof (str_ltb_trichotomy _ _ Hab H1). subst b. congruence.
Qed.

Lemma str_leb_neq_ltb (a b : string) :
  str_leb a b = true -> a <> b -> str_ltb a b = true.
Proof.
  unfold str_leb. rewrite negb_true_iff. intros H Hne.
  destruct (str_ltb a b) eqn:E; [reflexivity|].
  exfalso. apply Hne. apply str_ltb_trichotomy; assumption.
Qed.

(** ** Facts about [sorted] *)

Section Sorting.

Context {A : Type}.
Variable before : A -> A -> bool.
Hypothesis before_total : forall a b, before a b = false -> before b a = true.
Hypothesis before_trans :
  forall a b c, before a b = true -> before b c = true -> before a c = true.

Lemma insert_sorted_perm (x : A) (l : list A) :
  Permutation (insert_sorted before x l) (x :: l).
Proof.
  induction l as [|y l IH]; simpl; [reflexivity|].
  destruct (before x y); [reflexivity|].
  rewrite IH. apply perm_swap.
Qed.

Lemma sorted_perm (l : list A) : Permutation (sorted before l) l.
Proof.
  induction l as [|x l IH]; simpl; [reflexivity|].
  rewrite insert_sorted_perm. constructor. assumption.
Qed.

Lemma insert_sorted_sorted (x : A) (l : list A) :
  StronglySorted (fun a b => before a b = true) l ->
  StronglySorted (fun a b => before a b = true) (insert_sorted before x l).
Proof.
  induction 1 as [|y l Hs IH Hy]; simpl.
  - constructor; constructor.
  - destruct (before x y) eqn:E.
    + constructor; [constructor; assumption|].
      constructor; [assumption|].
      eapply Forall_impl; [|exact Hy]. intros z Hz. eapply before_trans; eassumption.
    + constructor; [assumption|].
      rewrite Forall_forall. intros z Hz.
      apply (Permutation_in _ (insert_sorted_perm x l)) in Hz.
      destruct Hz as [<-|Hz]; [apply before_total; assumption|].
      rewrite Forall_forall in Hy. apply Hy. assumption.
Qed.

Lemma sorted_sorted (l : list A) :
  StronglySorted (fun a b => before a b = true) (sorted before l).
Proof.
  induction l as [|x l IH]; simpl; [constructor|].
  apply insert_sorted_sorted. assumption.
Qed.

End Sorting.

Lemma StronglySorted_app {A : Type} (R : A -> A -> Prop) (l1 l2 : list A) :
  StronglySorted R l1 -> StronglySorted R l2 ->
  (forall a b, In a l1 -> In b l2 -> R a b) ->
  StronglySorted R (l1 ++ l2).
Proof.
  induction 1 as [|x l1 Hs IH Hx]; intros H2 Hc; simpl; [assumption|].
  constructor.
  - apply IH; [assumption|]. intros a b Ha Hb. apply Hc; [right|]; assumption.
  - apply Forall_app. split; [assumption|].
    rewrite Forall_forall. intros b Hb. apply Hc; [left; reflexivity | assumption].
Qed.

Lemma StronglySorted_impl_in {A : Type} (R S : A -> A -> Prop) (l : list A) :
  (forall a b, In a l -> In b l -> R a b -> S a b) ->
  StronglySorted R l -> StronglySorted S l.
Proof.
  intros H Hs. induction Hs as [|x l Hs IH Hx]; [constructor|].
  constructor.
  - apply IH. intros a b Ha Hb. apply H; right; assumption.
  - rewrite Forall_forall in *. intros b Hb.
    apply H; [left; reflexivity | right; assumption | apply Hx; assumption].
Qed.

(** ** Facts about grouping *)

Lemma dict_append_keys (d : list (string * list error)) (k : string) (e : error) :
  forall x, In x (map fst (dict_append d k e)) -> x = k \/ In x (map fst d).
Proof.
  induction d as [|[k' es] d IH]; simpl; intros x H.
  - destruct H as [H|[]]. left. congruence.
  - destruct (String.eqb k' k); simpl in H.
    + right. assumption.
    + destruct H as [H|H]; [right; left; assumption|].
      destruct (IH x H) as [H1|H1]; [left | right; right]; assumption.
Qed.

Lemma dict_append_ok (d : list (string * list error)) (e : error) :
  dict_ok d -> dict_ok (dict_append d (file e) e).
Proof.
  unfold dict_ok. induction d as [|[k' es] d IH]; simpl; intros [Hn Hf].
  - split; [constructor; [intros [] | constructor]|].
    constructor; [|constructor]. constructor; [reflexivity | constructor].
  - inversion Hn as [|? ? Hk Hn']; subst. inversion Hf as [|? ? H1 Hf']; subst.
    destruct (String.eqb k' (file e)) eqn:E; simpl.
    + apply String.eqb_eq in E. split; [assumption|].
      constructor; [|assumption]. simpl in *.
      apply Forall_app. split; [assumption|].
      constructor; [congruence | constructor].
    + apply String.eqb_neq in E. destruct (IH (conj Hn' Hf')) as [IH1 IH2].
      split; [|constructor; assumption].
      constructor; [|assumption]. intros Hin.
      apply dict_append_keys in Hin. destruct Hin as [Hin|Hin]; [congruence|].
      contradiction.
Qed.

Lemma dict_append_perm (d : list (string * list error)) (k : string) (e : error) :
  Permutation (flat_map snd (dict_append d k e)) (flat_map snd d ++ [e]).
Proof.
  induction d as [|[k' es] d IH]; simpl; [reflexivity|].
  destruct (String.eqb k' k); simpl.
  - rewrite <- !app_assoc. apply Permutation_app_head. apply Permutation_app_comm.
  - rewrite <- app_assoc. apply Permutation_app_head. assumption.
Qed.

Lemma fold_dict_append (errors : list error) : forall d,
  dict_ok d ->
  dict_ok (fold_left (fun d e => dict_append d (file e) e) errors d) /\
  Permutation (flat_map snd (fold_left (fun d e => dict_append d (file e) e) errors d))
              (flat_map snd d ++ errors).
Proof.
  induction errors as [|e errors IH]; simpl; intros d Hd.
  - split; [assumption|]. rewrite app_nil_r. reflexivity.
  - destruct (IH _ (dict_append_ok d e Hd)) as [H1 H2]. split; [assumption|].
    rewrite H2, dict_append_perm, <- app_assoc. reflexivity.
Qed.

Lemma group_by_file_ok (errors : list error) :
  dict_ok (group_by_file errors) /\
  Permutation (flat_map snd (group_by_file errors)) errors.
Proof.
  unfold group_by_file.
  assert (H0 : dict_ok []) by (split; constructor).
  destruct (fold_dict_append errors [] H0) as [H1 H2]. split; assumption.
Qed.

Lemma line_desc_total (a b : error) :
  (line b <=? line a)%Z = false -> (line a <=? line b)%Z = true.
Proof. rewrite Z.leb_gt, Z.leb_le. lia. Qed.

Lemma line_desc_trans (a b c : error) :
  (line b <=? line a)%Z = true -> (line c <=? line b)%Z = true ->
  (line c <=? line a)%Z = true.
Proof. rewrite !Z.leb_le. lia. Qed.

Lemma flat_map_sorted_perm (d : list (string * list error)) :
  Permutation (flat_map (fun item => sorted_by_line_desc (snd item)) d)
              (flat_map snd d).
Proof.
  induction d as [|it d IH]; simpl; [reflexivity|].
  apply Permutation_app; [apply sorted_perm | assumption].
Qed.

(** Each diagnostic is visited once. *)
Lemma patch_order_perm (errors : list error) :
  Permutation (patch_order errors) errors.
Proof.
  unfold patch_order.
  etransitivity; [apply flat_map_sorted_perm|].
  etransitivity; [|apply group_by_file_ok].
  apply Permutation_flat_map. apply sorted_perm.
Qed.

Lemma sorted_items_strict (d : list (string * list error)) :
  NoDup (map fst d) ->
  StronglySorted (fun a b => str_ltb (fst a) (fst b) = true) (sorted_items d).
Proof.
  intros Hn. unfold sorted_items.
  pose proof (sorted_perm (fun a b => str_leb (fst a) (fst b)) d) as Hp.
  assert (Hn' : NoDup (map fst (sorted (fun a b => str_leb (fst a) (fst b)) d))).
  { eapply Permutation_NoDup; [|exact Hn]. apply Permutation_map.
    symmetry. exact Hp. }
  assert (Hs : StronglySorted (fun a b => str_leb (fst a) (fst b) = true)
                 (sorted (fun a b => str_leb (fst a) (fst b)) d)).
  { apply sorted_sorted.
    - intros a b. apply str_leb_total.
    - intros a b c. apply str_leb_trans. }
  revert Hn' Hs. generalize (sorted (fun a b => str_leb (fst a) (fst b)) d).
  intros l Hn' Hs. induction Hs as [|x l Hs IH Hx]; [constructor|].
  simpl in Hn'. inversion Hn' as [|? ? Hnx Hnl]; subst.
  constructor; [apply IH; assumption|].
  rewrite Forall_forall in *. intros y Hy.
  apply str_leb_neq_ltb; [apply Hx; assumption|].
  intros E. apply Hnx. rewrite E. apply in_map. assumption.
Qed.

Lemma flat_map_visited (items : list (string * list error)) :
  StronglySorted (fun a b => str_ltb (fst a) (fst b) = true) items ->
  Forall (fun item => Forall (fun e => file e = fst item) (snd item)) items ->
  StronglySorted visited_before
    (flat_map (fun item => sorted_by_line_desc (snd item)) items).
Proof.
  induction 1 as [|it items Hs IH Hit]; intros Hf; simpl; [constructor|].
  inversion Hf as [|? ? Hfi Hf']; subst.
  assert (Hin : forall e, In e (sorted_by_line_desc (snd it)) -> file e = fst it).
  { intros e He. rewrite Forall_forall in Hfi. apply Hfi.
    eapply Permutation_in; [apply sorted_perm | exact He]. }
  apply StronglySorted_app.
  - apply (StronglySorted_impl_in (fun a b => (line b <=? line a)%Z = true)).
    + intros a b Ha Hb Hab. right. split.
      * rewrite (Hin a Ha), (Hin b Hb). reflexivity.
      * apply Z.leb_le. assumption.
    + apply sorted_sorted; [apply line_desc_total | apply line_desc_trans].
  - apply IH. assumption.
  - intros a b Ha Hb. left. apply in_flat_map in Hb.
    destruct Hb as (it' & Hit' & Hb).
    rewrite (Hin a Ha).
    rewrite Forall_forall in Hf'. specialize (Hf' it' Hit').
    rewrite Forall_forall in Hf'. rewrite (Hf' b).
    + rewrite Forall_forall in Hit. apply Hit. assumption.
    + eapply Permutation_in; [apply sorted_perm | exact Hb].
Qed.

(** The visiting order: files ascending, line numbers within a file
    descending. *)
Lemma patch_order_sorted (errors : list error) :
  StronglySorted visited_before (patch_order errors).
Proof.
  destruct (group_by_file_ok errors) as [[Hn Hf] _].
  unfold patch_order. apply flat_map_visited.
  - apply sorted_items_strict. assumption.
  - rewrite Forall_forall in *. intros it Hit. apply Hf.
    eapply Permutation_in; [apply sorted_perm | exact Hit].
Qed.

(** ** The call sequence of the Line Patcher *)

Lemma fix_unused_variable_calls (file_path : string) (line_num : Z)
  (var_name : string) (w : world) :
  calls (final (fix_unused_variable file_path line_num var_name w))
  = (calls w ++ [(file_path, line_num, var_name)])%list.
Proof.
  rewrite fix_unused_variable_eq. cbv zeta.
  destruct (files w (join_path project_root file_path)) as [text|]; [|reflexivity].
  destruct (line_num >? Z.of_nat (List.length (lines_of text)))%Z; [reflexivity|].
  destruct (py_pos (lines_of text) (line_num - 1)) as [i|]; [|reflexivity].
  destruct (nth_error (lines_of text) i) as [line|]; [|reflexivity].
  destruct (contains ("_" ++ var_name) line); [reflexivity|].
  destruct (first_change (patterns_and_replacements var_name) line); reflexivity.
Qed.

Lemma fix_errors_calls (es : list error) : forall (k : nat) (w : world),
  exists done rest,
    es = (done ++ rest)%list /\
    calls (final (fix_errors es k w)) = (calls w ++ map call_of done)%list /\
    (forall n w', fix_errors es k w = Ok n w' -> rest = []).
Proof.
  induction es as [|e es IH]; intros k w.
  - exists [], []. simpl. rewrite app_nil_r. repeat split.
  - simpl fix_errors. unfold bind.
    pose proof (fix_unused_variable_calls (file e) (line e) (var e) w) as Hc.
    destruct (fix_unused_variable (file e) (line e) (var e) w) as [fixed w1|ex w1].
    + destruct (IH (if fixed then S k else k) w1) as (done & rest & E & C & F).
      exists (e :: done), rest. split; [simpl; congruence|]. split.
      * rewrite C. simpl in Hc. rewrite Hc, <- app_assoc. reflexivity.
      * exact F.
    + exists [e], es. split; [reflexivity|]. split; [exact Hc | discriminate].
Qed.

Lemma fix_files_calls (items : list (string * list error)) :
  forall (k : nat) (w : world),
  exists done rest,
    flat_map (fun item => sorted_by_line_desc (snd item)) items = (done ++ rest)%list /\
    calls (final (fix_files items k w)) = (calls w ++ map call_of done)%list /\
    (forall n w', fix_files items k w = Ok n w' -> rest = []).
Proof.
  induction items as [|[fp es] items IH]; intros k w.
  - exists [], []. simpl. rewrite app_nil_r. repeat split.
  - simpl fix_files. unfold bind at 1. unfold print. unfold bind.
    match goal with
    | |- context [fix_errors ?a ?b ?c] =>
        destruct (fix_errors_calls a b c) as (d1 & r1 & E1 & C1 & F1);
        destruct (fix_errors a b c) as [n w1|ex w1] eqn:Efe
    end.
    + specialize (F1 n w1 eq_refl). subst r1. rewrite app_nil_r in E1.
      destruct (IH n w1) as (d2 & r2 & E2 & C2 & F2).
      exists (d1 ++ d2)%list, r2. cbn [flat_map snd]. split.
      * rewrite E1, E2, app_assoc. reflexivity.
      * split; [|exact F2].
        rewrite C2. simpl in C1. rewrite C1, map_app, app_assoc. reflexivity.
    + exists d1, (r1 ++ flat_map (fun item => sorted_by_line_desc (snd item)) items)%list.
      cbn [flat_map snd]. split; [rewrite E1, app_assoc; reflexivity|].
      split; [exact C1 | discriminate].
Qed.

(** ** Inversion of the matcher, constructor by constructor *)

Lemma run_Lit_inv {R : Type} (l : string) (st : mstate) (k : mstate -> option R) res :
  run (Lit l) st k = Some res ->
  exists s', rest st = l ++ s' /\
             k (MState (last_of l (prev st)) s' (caps st)) = Some res.
Proof.
  simpl. destruct (match_lit l (prev st) (rest st)) as [[p s]|] eqn:E; [|discriminate].
  apply match_lit_inv in E. destruct E as [E1 E2]. subst p.
  intros H. exists s. split; assumption.
Qed.

Lemma run_Cls_inv {R : Type} (f : ascii -> bool) (st : mstate) (k : mstate -> option R) res :
  run (Cls f) st k = Some res ->
  exists c s', rest st = String c s' /\ f c = true /\
               k (MState (Some c) s' (caps st)) = Some res.
Proof.
  simpl. destruct (rest st) as [|c s]; [discriminate|].
  destruct (f c) eqn:Fc; [|discriminate].
  intros H. exists c, s. repeat split; assumption.
Qed.

Lemma run_Star_inv {R : Type} (f : ascii -> bool) (st : mstate) (k : mstate -> option R) res :
  run (Star f) st k = Some res ->
  exists x s', rest st = x ++ s' /\ all_chars f x = true /\
               k (MState (last_of x (prev st)) s' (caps st)) = Some res.
Proof. simpl. intros H. apply star_loop_inv in H. exact H. Qed.

Lemma run_Seq {R : Type} (a b : regex) (st : mstate) (k : mstate -> option R) :
  run (Seq a b) st k = run a st (fun st1 => run b st1 k).
Proof. reflexivity. Qed.

Lemma run_Group {R : Type} (n : nat) (a : regex) (st : mstate) (k : mstate -> option R) :
  run (Group n a) st k =
  run a st (fun st1 => k (MState (prev st1) (rest st1)
                                 ((n, consumed (rest st) (rest st1)) :: caps st1))).
Proof. reflexivity. Qed.

Lemma run_Plus_inv {R : Type} (f : ascii -> bool) (st : mstate) (k : mstate -> option R) res :
  run (Plus f) st k = Some res ->
  exists x s', rest st = x ++ s' /\ x <> "" /\ all_chars f x = true /\
               k (MState (last_of x (prev st)) s' (caps st)) = Some res.
Proof.
  unfold Plus. rewrite run_Seq. intros H.
  apply run_Cls_inv in H. destruct H as (c & s1 & E1 & Fc & H).
  apply run_Star_inv in H. cbn [prev rest caps] in H.
  destruct H as (x & s' & E2 & Fx & H).
  exists (String c x), s'. split; [rewrite E1, E2; reflexivity|].
  split; [discriminate|]. split; [|exact H].
  rewrite all_chars_cons, Fc, Fx. reflexivity.
Qed.

Lemma run_WordB_inv {R : Type} (st : mstate) (k : mstate -> option R) res :
  run WordB st k = Some res ->
  at_boundary (prev st) (rest st) = true /\ k st = Some res.
Proof.
  simpl. destruct (at_boundary (prev st) (rest st)); [|discriminate].
  intros H. split; [reflexivity | assumption].
Qed.

Lemma run_Alt_inv {R : Type} (a b : regex) (st : mstate) (k : mstate -> option R) res :
  run (Alt a b) st k = Some res ->
  run a st k = Some res \/ run b st k = Some res.
Proof.
  simpl. destruct (run a st k); [left | right]; assumption.
Qed.

Lemma match_end_inv (adv : bool) (s : string) (st : mstate)
  (cs : captures) (s1 : string) :
  (if adv && (String.length (rest st) =? String.length s)%nat
   then None else Some (caps st, rest st)) = Some (cs, s1) ->
  cs = caps st /\ s1 = rest st.
Proof.
  destruct (adv && (String.length (rest st) =? String.length s)%nat);
    [discriminate|].
  intros H. injection H as <- <-. split; reflexivity.
Qed.

(** ** The matcher run forward *)

Lemma run_Lit_app {R : Type} (l : string) (p : option ascii) (s : string)
  (cs : captures) (k : mstate -> option R) :
  run (Lit l) (MState p (l ++ s) cs) k = k (MState (last_of l p) s cs).
Proof. simpl. rewrite match_lit_app. reflexivity. Qed.

Lemma run_Plus_greedy {R : Type} (f : ascii -> bool) (x : string) (p : option ascii)
  (s : string) (cs : captures) (k : mstate -> option R) res :
  x <> "" -> all_chars f x = true -> stops f s = true ->
  k (MState (last_of x p) s cs) = Some res ->
  run (Plus f) (MState p (x ++ s) cs) k = Some res.
Proof.
  intros Hne Hx Hs Hk. destruct x as [|c x]; [congruence|].
  rewrite all_chars_cons in Hx. apply andb_true_iff in Hx. destruct Hx as [Hc Hx].
  unfold Plus. rewrite run_Seq. simpl append. cbn [run prev rest caps]. rewrite Hc.
  apply (star_loop_greedy f (fun p0 s0 => k (MState p0 s0 cs))); assumption.
Qed.

Lemma run_Group_Plus_greedy {R : Type} (n : nat) (f : ascii -> bool) (x : string)
  (p : option ascii) (s : string) (cs : captures) (k : mstate -> option R) res :
  x <> "" -> all_chars f x = true -> stops f s = true ->
  k (MState (last_of x p) s ((n, x) :: cs)) = Some res ->
  run (Group n (Plus f)) (MState p (x ++ s) cs) k = Some res.
Proof.
  intros Hne Hx Hs Hk. rewrite run_Group.
  apply run_Plus_greedy; try assumption.
  cbn [prev rest caps]. rewrite consumed_app. assumption.
Qed.

Lemma run_Group_Plus_inv {R : Type} (n : nat) (f : ascii -> bool) (st : mstate)
  (k : mstate -> option R) res :
  run (Group n (Plus f)) st k = Some res ->
  exists x s', rest st = x ++ s' /\ x <> "" /\ all_chars f x = true /\
               k (MState (last_of x (prev st)) s' ((n, x) :: caps st)) = Some res.
Proof.
  rewrite run_Group. intros H. apply run_Plus_inv in H.
  destruct H as (x & s' & E & Hne & Hx & H). cbn [prev rest caps] in H.
  exists x, s'. rewrite E, consumed_app in H. repeat split; assumption.
Qed.

(** ** Patterns without a word boundary *)

Lemma match_lit_blind (l : string) : forall p p' s,
  match match_lit l p s, match_lit l p' s with
  | Some (_, s1), Some (_, s2) => s1 = s2
  | None, None => True
  | _, _ => False
  end.
Proof.
  induction l as [|c l IH]; intros p p' s; simpl; [reflexivity|].
  destruct s as [|d s]; [exact I|].
  destruct (Ascii.eqb c d); [apply IH | exact I].
Qed.

Lemma star_loop_blind {R : Type} (f : ascii -> bool)
  (k : option ascii -> string -> option R) :
  (forall p p' s, k p s = k p' s) ->
  forall s p p', star_loop f p s k = star_loop f p' s k.
Proof.
  intros Hk. induction s as [|c s IH]; intros p p'; simpl; [apply Hk|].
  destruct (f c); [|apply Hk].
  destruct (star_loop f (Some c) s k); [reflexivity | apply Hk].
Qed.

Lemma run_blind {R : Type} (r : regex) : forall (k : mstate -> option R),
  no_wordb r -> prev_blind k -> prev_blind (fun st => run r st k).
Proof.
  induction r as [l|f|f| |a IHa b IHb|a IHa b IHb|n a IHa]; intros k Hr Hk p p' s cs;
    cbn [run prev rest caps].
  - pose proof (match_lit_blind l p p' s) as H.
    destruct (match_lit l p s) as [[p1 s1]|], (match_lit l p' s) as [[p2 s2]|];
      try contradiction; [|reflexivity].
    subst s2. apply Hk.
  - destruct s as [|c s]; [reflexivity|]. destruct (f c); reflexivity.
  - apply star_loop_blind. intros q q' t. apply Hk.
  - destruct Hr.
  - destruct Hr as [Ha Hb].
    apply (IHa (fun st1 => run b st1 k) Ha (IHb k Hb Hk)).
  - destruct Hr as [Ha Hb].
    rewrite (IHa k Ha Hk p p' s cs), (IHb k Hb Hk p p' s cs). reflexivity.
  - apply (IHa (fun st1 => k (MState (prev st1) (rest st1)
                                     ((n, consumed s (rest st1)) :: caps st1))) Hr).
    intros q q' t ds. cbn [prev rest caps]. apply Hk.
Qed.

Lemma match_at_blind (r : regex) (p p' : option ascii) (s : string) (adv : bool) :
  no_wordb r -> match_at r p s adv = match_at r p' s adv.
Proof.
  intros Hr. unfold match_at.
  apply (run_blind r _ Hr). intros q q' t ds. reflexivity.
Qed.

Lemma scan_blind (r : regex) (p p' : option ascii) (s : string) (skip : nat) :
  no_wordb r -> scan r p s skip = scan r p' s skip.
Proof.
  intros Hr. destruct skip as [|n].
  - rewrite !scan_0, (match_at_blind r p p' s false Hr),
      (match_at_blind r p p' s true Hr). reflexivity.
  - destruct s; reflexivity.
Qed.

Lemma scan_skip_all (r : regex) (x : string) : forall p s,
  scan r p (x ++ s) (String.length x) = scan r (last_of x p) s 0.
Proof.
  induction x as [|c x IH]; intros p s; [reflexivity|].
  simpl String.length. simpl append. rewrite scan_skip. apply IH.
Qed.

Lemma drop_chars_app (x s : string) : drop_chars (String.length x) (x ++ s) = s.
Proof. induction x as [|c x IH]; simpl; [destruct s; reflexivity | exact IH]. Qed.

(** ** The Declaration pattern *)







Lemma word_at_last_identifier (v : string) (p : option ascii) :
  plain_identifier v = true -> word_at (last_of v p) = true.
Proof.
  intros Hv. destruct (plain_identifier_spec v Hv) as [Hne Hw].
  destruct (last_of_all is_word v p Hw Hne) as (c & -> & Hc). exact Hc.
Qed.





(** ** The pattern of the Diagnostic Collector *)

Lemma diag_text_nested (q l c v tail : string) :
  diag_text ("src/" ++ q) l c v ++ tail =
  "src/" ++ (q ++ ("(" ++ (l ++ ("," ++ (c ++ ("): error TS6133: '"
     ++ (v ++ ("'" ++ tail)))))))).
Proof.
  unfold diag_text. rewrite !append_assoc. reflexivity.
Qed.

(** A match of the pattern reads the recognised text and nothing else. *)
Lemma ts6133_match (p : option ascii) (s : string) (adv : bool)
  (cs : captures) (s1 : string) :
  match_at ts6133_pattern p s adv = Some (cs, s1) ->
  exists f l c v,
    diag_shape f l c v /\ s = diag_text f l c v ++ s1 /\
    cs = ts6133_groups f l c v.
Proof.
  unfold match_at, ts6133_pattern. cbn [seq].
  set (kf := fun st : mstate =>
               if adv && (String.length (rest st) =? String.length s)%nat
               then None else Some (caps st, rest st)).
  intros H.
  rewrite run_Seq, run_Group, run_Seq in H.
  apply run_Lit_inv in H. cbn [prev rest caps] in H. destruct H as (s2 & E1 & H).
  apply run_Plus_inv in H. cbn [prev rest caps] in H.
  destruct H as (q & s3 & E2 & Hq1 & Hq2 & H).
  assert (C1 : consumed s s3 = "src/" ++ q).
  { rewrite E1, E2. exact (consumed_app ("src/" ++ q) s3). }
  rewrite C1 in H. clear C1.
  rewrite run_Seq in H. apply run_Lit_inv in H. cbn [prev rest caps] in H.
  destruct H as (s4 & E3 & H).
  rewrite run_Seq in H. apply run_Group_Plus_inv in H. cbn [prev rest caps] in H.
  destruct H as (l & s5 & E4 & Hl1 & Hl2 & H).
  rewrite run_Seq in H. apply run_Lit_inv in H. cbn [prev rest caps] in H.
  destruct H as (s6 & E5 & H).
  rewrite run_Seq in H. apply run_Group_Plus_inv in H. cbn [prev rest caps] in H.
  destruct H as (c & s7 & E6 & Hc1 & Hc2 & H).
  rewrite run_Seq in H. apply run_Lit_inv in H. cbn [prev rest caps] in H.
  destruct H as (s8 & E7 & H).
  rewrite run_Seq in H. apply run_Group_Plus_inv in H. cbn [prev rest caps] in H.
  destruct H as (v & s9 & E8 & Hv1 & Hv2 & H).
  apply run_Lit_inv in H. cbn [prev rest caps] in H.
  destruct H as (s10 & E9 & H).
  subst kf. apply match_end_inv in H. cbn [caps rest] in H. destruct H as [-> ->].
  exists ("src/" ++ q), l, c, v. split; [|split; [|reflexivity]].
  - split; [exists q; repeat split; assumption|]. repeat split; assumption.
  - rewrite diag_text_nested, E1, E2, E3, E4, E5, E6, E7, E8, E9. reflexivity.
Qed.

(** Where the recognised text stands at the cursor, the pattern matches it,
    whatever follows. *)
Lemma ts6133_match_here (f l c v tail : string) (p : option ascii) :
  diag_shape f l c v ->
  match_at ts6133_pattern p (diag_text f l c v ++ tail) false
  = Some (ts6133_groups f l c v, tail).
Proof.
  intros ((q & -> & Hq1 & Hq2) & (Hl1 & Hl2) & (Hc1 & Hc2) & (Hv1 & Hv2)).
  unfold match_at. rewrite diag_text_nested.
  unfold ts6133_pattern. cbn [seq andb].
  rewrite run_Seq, run_Group, run_Seq, run_Lit_app.
  apply run_Plus_greedy; [assumption | assumption | reflexivity|].
  cbn [prev rest caps].
  rewrite <- (append_assoc "src/" q), consumed_app.
  rewrite run_Seq, run_Lit_app, run_Seq.
  apply run_Group_Plus_greedy; [assumption | assumption | reflexivity|].
  rewrite run_Seq, run_Lit_app, run_Seq.
  apply run_Group_Plus_greedy; [assumption | assumption | reflexivity|].
  rewrite run_Seq, run_Lit_app, run_Seq.
  apply run_Group_Plus_greedy; [assumption | assumption | reflexivity|].
  rewrite run_Lit_app. reflexivity.
Qed.

Lemma error_of_ts6133_groups (f l c v : string) :
  error_of_match (ts6133_groups f l c v) = Error f (py_int l) (py_int c) v.
Proof. reflexivity. Qed.

Lemma no_wordb_ts6133 : no_wordb ts6133_pattern.
Proof. unfold ts6133_pattern, Plus. cbn. tauto. Qed.

Lemma diag_text_nonempty (f l c v : string) :
  diag_shape f l c v -> exists ch d, diag_text f l c v = String ch d.
Proof.
  intros ((q & -> & _) & _). unfold diag_text. simpl. eexists. eexists. reflexivity.
Qed.

(** The records of a scan come from occurrences of the recognised text. *)
Lemma scan_occurrences : forall s p skip,
  skip <= String.length s ->
  occurrences (drop_chars skip s)
              (map error_of_match (found (scan ts6133_pattern p s skip))).
Proof.
  induction s as [|ch s IH]; intros p skip Hs.
  - assert (skip = 0) by (simpl in Hs; lia). subst skip. rewrite scan_0.
    destruct (match_at ts6133_pattern p "" false) as [[cs s1]|] eqn:E;
      [|apply occ_done].
    apply ts6133_match in E. destruct E as (f & l & c & v & Hsh & E & _).
    destruct (diag_text_nonempty f l c v Hsh) as (x & d & Hd).
    rewrite Hd in E. discriminate.
  - destruct skip as [|n].
    + rewrite scan_0.
      destruct (match_at ts6133_pattern p (String ch s) false) as [[cs s1]|] eqn:E.
      * apply ts6133_match in E. destruct E as (f & l & c & v & Hsh & E & ->).
        destruct (diag_text_nonempty f l c v Hsh) as (x & d & Hd).
        assert (Hlen : String.length (String ch s) - String.length s1
                       = S (String.length d)).
        { rewrite E, Hd, length_append. cbn [String.length]. lia. }
        rewrite Hlen. cbn [Nat.eqb found flat_map app map].
        rewrite error_of_ts6133_groups.
        simpl drop_chars. rewrite E. apply occ_found; [assumption|].
        assert (Es : s = d ++ s1).
        { rewrite Hd in E. simpl in E. injection E as _ E. exact E. }
        assert (Hdrop : drop_chars (String.length d) s = s1).
        { rewrite Es. apply drop_chars_app. }
        rewrite <- Hdrop. apply IH. rewrite Es, length_append. lia.
      * cbn [found flat_map app]. simpl drop_chars.
        apply occ_skip. apply (IH (Some ch) 0). lia.
    + rewrite scan_skip. simpl drop_chars. apply IH. simpl in Hs. lia.
Qed.

Lemma finditer_found (r : regex) (s : string) :
  finditer r s = found (scan r None s 0).
Proof. reflexivity. Qed.

(** The records come from occurrences of the recognised text, in order. *)
Lemma parse_ts_errors_sound (output : string) :
  occurrences output (parse_ts_errors output).
Proof.
  unfold parse_ts_errors. rewrite finditer_found.
  apply (scan_occurrences output None 0). lia.
Qed.

(** An occurrence at the cursor gives a record; the scan goes on after the
    closing quote. *)
Lemma parse_ts_errors_here (f l c v tail : string) :
  diag_shape f l c v ->
  parse_ts_errors (diag_text f l c v ++ tail)
  = Error f (py_int l) (py_int c) v :: parse_ts_errors tail.
Proof.
  intros Hsh. unfold parse_ts_errors. rewrite !finditer_found, scan_0.
  rewrite (ts6133_match_here f l c v tail None Hsh).
  destruct (diag_text_nonempty f l c v Hsh) as (x & d & Hd).
  assert (Hlen : String.length (diag_text f l c v ++ tail) - String.length tail
                 = S (String.length d)).
  { rewrite Hd, length_append. cbn [String.length]. lia. }
  rewrite Hlen. cbn [Nat.eqb]. rewrite Hd. simpl append. cbv iota.
  rewrite scan_skip_all.
  rewrite (scan_blind ts6133_pattern _ None tail 0 no_wordb_ts6133).
  reflexivity.
Qed.

Lemma parse_ts_errors_skip (ch : ascii) (tail : string) :
  (forall f l c v s1, diag_shape f l c v ->
                      String ch tail <> diag_text f l c v ++ s1) ->
  parse_ts_errors (String ch tail) = parse_ts_errors tail.
Proof.
  intros Hno. unfold parse_ts_errors. rewrite !finditer_found, scan_0.
  destruct (match_at ts6133_pattern None (String ch tail) false) as [[cs s1]|] eqn:E.
  - apply ts6133_match in E. destruct E as (f & l & c & v & Hsh & E & _).
    exfalso. exact (Hno f l c v s1 Hsh E).
  - cbn [found flat_map app].
    rewrite (scan_blind ts6133_pattern (Some ch) None tail 0 no_wordb_ts6133).
    reflexivity.
Qed.

Lemma occurrences_literal (s : string) (es : list error) :
  occurrences s es -> es <> [] -> contains "): error TS6133: '" s = true.
Proof.
  induction 1 as [s|ch s es H IH|f l c v s es Hsh H IH]; intros Hne.
  - congruence.
  - apply contains_spec. apply IH in Hne. apply contains_spec in Hne.
    destruct Hne as (a & b & ->). exists (String ch a), b. reflexivity.
  - apply contains_spec.
    exists (f ++ "(" ++ l ++ "," ++ c), (v ++ "'" ++ s).
    unfold diag_text. rewrite !append_assoc. reflexivity.
Qed.

(** ** The claim about the Diagnostic Collector *)

(** C1, as stated, fails on a line whose message text is not the one of the
    compiler: the pattern ends at the closing quote of the identifier, so the
    line gives a record all the same. *)
Lemma altered_message_still_collected :
  let output := "src/a.ts(3,7): error TS6133: 'x' wird deklariert, aber nie gelesen." in
  contains ts6133_message output = false /\
  parse_ts_errors output = [Error "src/a.ts" 3 7 "x"].
Proof. vm_compute. split; reflexivity. Qed.

(** C1, amended. The Diagnostic Collector scans the whole output from left
    to right. Where the text [src/], one or more characters other than an
    opening parenthesis, [(], digits, [,], digits, [): error TS6133: '], one
    or more characters other than a quote, and a quote begins at the scan
    position, it gives one record for it, whatever follows the closing
    quote, and goes on behind the quote; where no such text begins, it moves
    on by one character. The records are those of the occurrences met, in
    the order of the output, and an output without the literal
    [): error TS6133: '] gives none. *)
Theorem collector_records_occurrences :
  (forall output, occurrences output (parse_ts_errors output)) /\
  (forall f l c v tail,
     diag_shape f l c v ->
     parse_ts_errors (diag_text f l c v ++ tail)
     = Error f (py_int l) (py_int c) v :: parse_ts_errors tail) /\
  (forall ch tail,
     (forall f l c v s1, diag_shape f l c v ->
                         String ch tail <> diag_text f l c v ++ s1) ->
     parse_ts_errors (String ch tail) = parse_ts_errors tail) /\
  (forall output,
     contains "): error TS6133: '" output = false -> parse_ts_errors output = []).
Proof.
  split; [exact parse_ts_errors_sound|].
  split; [exact parse_ts_errors_here|].
  split; [exact parse_ts_errors_skip|].
  intros output H.
  destruct (parse_ts_errors output) as [|e es] eqn:E; [reflexivity|].
  pose proof (occurrences_literal output (e :: es)) as L.
  rewrite <- E in L at 1. rewrite L in H; [discriminate | apply parse_ts_errors_sound|].
  discriminate.
Qed.

(** ** The claim about the order of the patterns *)

(** On the model, where the Destructuring pattern is the regular expression
    its comment describes, the loop does what C2 says: the rewrite is the
    first of the five substitutions, in the order of the list, that changes
    the line, and there is none exactly when no substitution changes it. *)
Lemma first_change_priority (prs : list (regex * template)) (line : string) :
  match first_change prs line with
  | Some new_line =>
      exists before r t after,
        prs = (before ++ (r, t) :: after)%list /\
        Forall (fun pr => sub (fst pr) (snd pr) line = line) before /\
        new_line = sub r t line /\ new_line <> line
  | None => Forall (fun pr => sub (fst pr) (snd pr) line = line) prs
  end.
Proof.
  induction prs as [|[r t] prs IH]; simpl; [constructor|].
  destruct (String.eqb (sub r t line) line) eqn:E.
  - apply String.eqb_eq in E.
    destruct (first_change prs line) as [new_line|].
    + destruct IH as (before & r' & t' & after & -> & Hb & Hn & Hd).
      exists ((r, t) :: before), r', t', after.
      split; [reflexivity|]. split; [constructor; assumption|]. split; assumption.
    + constructor; assumption.
  - apply String.eqb_neq in E.
    exists [], r, t, prs. split; [reflexivity|]. split; [constructor|].
    split; [reflexivity | assumption].
Qed.

(** C2, the defect. The literal of the Destructuring pattern on line 59 has
    a single opening brace after the backslash: it opens a replacement field
    whose expression holds a backslash, which Python rejects. The four other
    literals are well formed and denote the patterns of the model (line 57
    doubles its closing brace). The file with this literal does not compile,
    so no pattern is ever built or attempted. *)
Theorem destructuring_literal_is_rejected :
  map (fun body => FString.split body None "") pattern_literals
  = [ FString.Parsed [FString.Text "\b"; FString.Field "var_name";
                      FString.Text "\b(\s*,|\s*\})"];
      FString.SyntaxError "f-string expression part cannot include a backslash";
      FString.Parsed [FString.Text "\b(const|let|var)\s+"; FString.Field "var_name";
                      FString.Text "\b"];
      FString.Parsed [FString.Text "\(([^)]*)\b"; FString.Field "var_name";
                      FString.Text "\b"];
      FString.Parsed [FString.Text "\b"; FString.Field "var_name";
                      FString.Text "\s*:"] ] /\
  (forall v, map (fun body => FString.value body v) pattern_literals
             = [ Some ("\b" ++ v ++ "\b(\s*,|\s*\})");
                 None;
                 Some ("\b(const|let|var)\s+" ++ v ++ "\b");
                 Some ("\(([^)]*)\b" ++ v ++ "\b");
                 Some ("\b" ++ v ++ "\s*:") ]) /\
  (forall v, FString.value "\{{(\s*){var_name}\b" v = Some ("\{(\s*)" ++ v ++ "\b")).
Proof.
  split; [reflexivity|]. split; intros v; reflexivity.
Qed.

(** ** When the run cannot raise *)

Lemma fix_unused_variable_returns (file_path : string) (line_num : Z)
  (var_name : string) (w : world) :
  (1 <= line_num)%Z ->
  plain_identifier var_name = true ->
  exists b w', fix_unused_variable file_path line_num var_name w = Ok b w'.
Proof.
  intros Hn _. rewrite fix_unused_variable_eq. cbv zeta.
  destruct (files w (join_path project_root file_path)) as [text|];
    [|eexists; eexists; reflexivity].
  destruct (line_num >? Z.of_nat (List.length (lines_of text)))%Z eqn:G;
    [eexists; eexists; reflexivity|].
  rewrite Z.gtb_ltb in G. apply Z.ltb_ge in G.
  assert (P : py_pos (lines_of text) (line_num - 1) = Some (Z.to_nat (line_num - 1))).
  { unfold py_pos.
    replace ((0 <=? line_num - 1) && (line_num - 1 <? Z.of_nat (List.length (lines_of text))))%Z
      with true; [reflexivity|].
    symmetry. apply andb_true_iff. split; [apply Z.leb_le | apply Z.ltb_lt]; lia. }
  rewrite P.
  destruct (nth_error (lines_of text) (Z.to_nat (line_num - 1))) as [line|] eqn:N.
  - destruct (contains ("_" ++ var_name) line); [eexists; eexists; reflexivity|].
    destruct (first_change (patterns_and_replacements var_name) line);
      eexists; eexists; reflexivity.
  - apply nth_error_None in N. lia.
Qed.

Lemma fix_errors_returns (es : list error) : forall (k : nat) (w : world),
  Forall patchable es ->
  exists n w', fix_errors es k w = Ok n w'.
Proof.
  induction es as [|e es IH]; intros k w H.
  - eexists; eexists; reflexivity.
  - inversion H as [|? ? [He Hv] Hes]; subst. simpl fix_errors. unfold bind.
    destruct (fix_unused_variable_returns (file e) (line e) (var e) w He Hv)
      as (b & w1 & ->).
    apply IH. assumption.
Qed.

Lemma fix_files_returns (items : list (string * list error)) :
  forall (k : nat) (w : world),
  Forall (fun item => Forall patchable (snd item)) items ->
  exists n w', fix_files items k w = Ok n w'.
Proof.
  induction items as [|[fp es] items IH]; intros k w H.
  - eexists; eexists; reflexivity.
  - inversion H as [|? ? He Hes]; subst. simpl fix_files.
    unfold bind at 1. unfold print. unfold bind.
    match goal with
    | |- context [fix_errors ?a ?b ?c] =>
        destruct (fix_errors_returns a b c) as (n & w1 & ->)
    end.
    + rewrite Forall_forall in *. intros e Hin. apply He.
      eapply Permutation_in; [apply sorted_perm | exact Hin].
    + apply IH. assumption.
Qed.

(** Apart from the defect of C8, the exit status is zero: a run in which
    every diagnostic has a line number of at least 1 and an identifier made
    of word characters ends with status 0, however many diagnostics were
    fixed or remain. *)
Lemma main_exit_zero_when_lines_positive (build : world -> string) (w : world) :
  Forall patchable
         (parse_ts_errors (build (after_print w "Analyzing TypeScript errors..."))) ->
  exit_status (main build w) = 0%Z.
Proof.
  intros H. rewrite main_eq. cbv zeta.
  destruct (parse_ts_errors _) as [|e es] eqn:E; [reflexivity|].
  match goal with
  | |- context [fix_files ?a ?b ?c] =>
      destruct (fix_files_returns a b c) as (n & w1 & ->); [|reflexivity]
  end.
  destruct (group_by_file_ok (e :: es)) as [_ Hp].
  rewrite Forall_forall in *. intros it Hit. rewrite Forall_forall. intros x Hx.
  apply H. eapply Permutation_in; [exact Hp|].
  apply in_flat_map. exists it. split; [|assumption].
  eapply Permutation_in; [apply sorted_perm | exact Hit].
Qed.

(** * Further properties of the script *)

(** ** What a call of the Line Patcher can do *)

(** A call prints nothing and touches no file but the one it resolves; it
    writes that file, once, exactly when it returns True; when it returns
    False or raises, the file system is as before. *)
Theorem patcher_writes_only_when_fixed
  (file_path : string) (line_num : Z) (var_name : string) (w : world) :
  console (final (fix_unused_variable file_path line_num var_name w)) = console w /\
  (forall p, p <> join_path project_root file_path ->
     files (final (fix_unused_variable file_path line_num var_name w)) p = files w p) /\
  match fix_unused_variable file_path line_num var_name w with
  | Ok true w' =>
      writes w' = (writes w ++ [join_path project_root file_path])%list
  | Ok false w' => writes w' = writes w /\ files w' = files w
  | Raised _ w' => writes w' = writes w /\ files w' = files w
  end.
Proof.
  rewrite fix_unused_variable_eq. cbv zeta.
  assert (W : forall ls p,
             p <> join_path project_root file_path ->
             files (written (logged w (file_path, line_num, var_name))
                            (join_path project_root file_path) ls) p = files w p).
  { intros ls p Hp. cbn [files written logged].
    apply String.eqb_neq in Hp. rewrite Hp. reflexivity. }
  destruct (files w (join_path project_root file_path)) as [text|];
    [|repeat split].
  destruct (line_num >? Z.of_nat (List.length (lines_of text)))%Z; [repeat split|].
  destruct (py_pos (lines_of text) (line_num - 1)) as [i|]; [|repeat split].
  destruct (nth_error (lines_of text) i) as [line|]; [|repeat split].
  destruct (contains ("_" ++ var_name) line); [repeat split|].
  destruct (first_change (patterns_and_replacements var_name) line);
    [|repeat split].
  split; [reflexivity|]. split; [apply W | reflexivity].
Qed.

(** For an identifier made of word characters, on a file system of text
    files: the only exception a call raises is IndexError, and it raises it
    exactly when the file exists and the line number is at most minus the
    number of its lines (0 on an empty file): then [line_num - 1] is below
    the least negative index. *)
Theorem patcher_raises_iff
  (file_path : string) (line_num : Z) (var_name : string) (w : world) :
  plain_identifier var_name = true ->
  (forall e w', fix_unused_variable file_path line_num var_name w = Raised e w' ->
                e = IndexError) /\
  ((exists w', fix_unused_variable file_path line_num var_name w
               = Raised IndexError w') <->
   (exists text, files w (join_path project_root file_path) = Some text /\
                 (line_num <= - Z.of_nat (List.length (lines_of text)))%Z)).
Proof.
  intros _. rewrite fix_unused_variable_eq. cbv zeta.
  destruct (files w (join_path project_root file_path)) as [text|].
  2:{ split; [discriminate|]. split; [intros [w' H]; discriminate|].
      intros (text & H & _). discriminate. }
  destruct (line_num >? Z.of_nat (List.length (lines_of text)))%Z eqn:G.
  { rewrite Z.gtb_ltb in G. apply Z.ltb_lt in G.
    split; [discriminate|]. split; [intros [w' H]; discriminate|].
    intros (t & H & Hn). injection H as <-. lia. }
  rewrite Z.gtb_ltb in G. apply Z.ltb_ge in G.
  destruct (py_pos (lines_of text) (line_num - 1)) as [i|] eqn:P.
  - pose proof (py_pos_lt _ _ _ P) as Hi.
    destruct (nth_error (lines_of text) i) as [line|] eqn:N;
      [|apply nth_error_None in N; lia].
    assert (Hn : ~ (line_num <= - Z.of_nat (List.length (lines_of text)))%Z).
    { unfold py_pos in P.
      destruct ((0 <=? line_num - 1) &&
                (line_num - 1 <? Z.of_nat (List.length (lines_of text))))%Z eqn:A.
      - apply andb_true_iff in A. destruct A as [A _]. apply Z.leb_le in A. lia.
      - destruct ((- Z.of_nat (List.length (lines_of text)) <=? line_num - 1) &&
                  (line_num - 1 <? 0))%Z eqn:B; [|discriminate].
        apply andb_true_iff in B. destruct B as [B _]. apply Z.leb_le in B. lia. }
    assert (R : forall (r : result bool),
               (exists b w', r = Ok b w') ->
               (forall e w', r = Raised e w' -> e = IndexError) /\
               ((exists w', r = Raised IndexError w') <->
                (exists t, Some text = Some t /\
                           (line_num <= - Z.of_nat (List.length (lines_of t)))%Z))).
    { intros r (b & w' & ->). split; [discriminate|].
      split; [intros [w'' H]; discriminate|].
      intros (t & H & Ht). injection H as <-. contradiction. }
    destruct (contains ("_" ++ var_name) line); [apply R; eexists; eexists; reflexivity|].
    destruct (first_change (patterns_and_replacements var_name) line);
      apply R; eexists; eexists; reflexivity.
  - split; [intros e w' H; injection H as <- _; reflexivity|].
    split; [|intros _; eexists; reflexivity].
    intros _. exists text. split; [reflexivity|].
    unfold py_pos in P.
    destruct ((0 <=? line_num - 1) &&
              (line_num - 1 <? Z.of_nat (List.length (lines_of text))))%Z eqn:A;
      [discriminate|].
    destruct ((- Z.of_nat (List.length (lines_of text)) <=? line_num - 1) &&
              (line_num - 1 <? 0))%Z eqn:B; [discriminate|].
    apply andb_false_iff in A. apply andb_false_iff in B.
    rewrite Z.leb_gt, Z.ltb_ge in A. rewrite Z.leb_gt, Z.ltb_ge in B. lia.
Qed.

(** ** Exit status *)

Lemma main_exit_zero_when_lines_positive_witness :
  exit_status
    (main (fun _ => "src/a.ts(1,7): error TS6133: 'x' is declared but its value is never read.")
          (world_of [("src/a.ts", "const x = 1;" ++ nl)])) = 0%Z.
Proof.
  apply (main_exit_zero_when_lines_positive
           (fun _ => "src/a.ts(1,7): error TS6133: 'x' is declared but its value is never read.")
           (world_of [("src/a.ts", "const x = 1;" ++ nl)])).
  change (Forall patchable [Error "src/a.ts" 1 7 "x"]).
  constructor; [split; [cbn [line]; lia | reflexivity] | constructor].
Defined.

Lemma patcher_raises_iff_witness :
  (forall e w',
      fix_unused_variable "src/a.ts" 0 "x" (world_of [("src/a.ts", "")])
      = Raised e w' -> e = IndexError) /\
  ((exists w', fix_unused_variable "src/a.ts" 0 "x" (world_of [("src/a.ts", "")])
               = Raised IndexError w') <->
   (exists text,
       files (world_of [("src/a.ts", "")]) (join_path project_root "src/a.ts")
       = Some text /\
       (0 <= - Z.of_nat (List.length (lines_of text)))%Z)).
Proof.
  apply (patcher_raises_iff "src/a.ts" 0 "x" (world_of [("src/a.ts", "")])).
  reflexivity.
Defined.

(** ** The records of the Diagnostic Collector *)

Lemma digit_value_nonneg (c : ascii) : is_digit c = true -> (0 <= digit_value c)%Z.
Proof.
  unfold is_digit, in_range, digit_value. intros H.
  apply andb_true_iff in H. destruct H as [H _]. apply N.leb_le in H. lia.
Qed.

Lemma py_int_nonneg (s : string) : all_chars is_digit s = true -> (0 <= py_int s)%Z.
Proof.
  unfold py_int, all_chars.
  assert (G : forall l acc, (0 <= acc)%Z -> forallb is_digit l = true ->
              (0 <= fold_left (fun a c => (10 * a + digit_value c)%Z) l acc)%Z).
  { induction l as [|c l IH]; intros acc Ha Hl; cbn [fold_left forallb] in *;
      [assumption|].
    apply andb_true_iff in Hl. destruct Hl as [Hc Hl].
    apply IH; [|assumption]. pose proof (digit_value_nonneg c Hc). lia. }
  apply G. lia.
Qed.

Lemma occurrences_record_ok (s : string) (es : list error) :
  occurrences s es -> Forall record_ok es.
Proof.
  induction 1 as [s|ch s es H IH|f l c v s es Hsh H IH]; try assumption;
    [constructor|].
  constructor; [|assumption].
  destruct Hsh as (Hf & (Hl1 & Hl2) & (Hc1 & Hc2) & (Hv1 & Hv2)).
  unfold record_ok. cbn [file line col var].
  split; [exact Hf|]. split; [apply py_int_nonneg; assumption|].
  split; [apply py_int_nonneg; assumption|]. split; assumption.
Qed.

(** Whatever the build prints, every record of the Diagnostic Collector has
    a path that starts with [src/], goes on with at least one character and
    holds no opening parenthesis, a line and a column that are not negative,
    and a non-empty identifier without a quote. *)
Theorem collector_records_well_formed (output : string) :
  Forall record_ok (parse_ts_errors output).
Proof.
  apply (occurrences_record_ok output). apply parse_ts_errors_sound.
Qed.

(** ** The files the Orchestrator writes *)

Lemma fix_unused_variable_writes
  (file_path : string) (line_num : Z) (var_name : string) (w : world) :
  match fix_unused_variable file_path line_num var_name w with
  | Ok true w' => writes w' = (writes w ++ [join_path project_root file_path])%list
  | Ok false w' => writes w' = writes w
  | Raised _ w' => writes w' = writes w
  end.
Proof.
  rewrite fix_unused_variable_eq. cbv zeta.
  destruct (files w (join_path project_root file_path)) as [text|]; [|reflexivity].
  destruct (line_num >? Z.of_nat (List.length (lines_of text)))%Z; [reflexivity|].
  destruct (py_pos (lines_of text) (line_num - 1)) as [i|]; [|reflexivity].
  destruct (nth_error (lines_of text) i) as [line|]; [|reflexivity].
  destruct (contains ("_" ++ var_name) line); [reflexivity|].
  destruct (first_change (patterns_and_replacements var_name) line); reflexivity.
Qed.

Lemma fix_errors_writes (es : list error) : forall (k : nat) (w : world),
  exists ws,
    writes (final (fix_errors es k w)) = (writes w ++ ws)%list /\
    Forall (fun p => exists e, In e es /\ p = join_path project_root (file e)) ws /\
    (forall n w', fix_errors es k w = Ok n w' -> n = k + List.length ws).
Proof.
  induction es as [|e es IH]; intros k w.
  - exists []. simpl. rewrite app_nil_r. split; [reflexivity|].
    split; [constructor|]. intros n w' H. injection H as <- _. lia.
  - simpl fix_errors. unfold bind.
    pose proof (fix_unused_variable_writes (file e) (line e) (var e) w) as Hw.
    assert (Hin : forall ws,
              Forall (fun p => exists e0, In e0 es /\ p = join_path project_root (file e0)) ws ->
              Forall (fun p => exists e0, In e0 (e :: es) /\
                                          p = join_path project_root (file e0)) ws).
    { intros ws H. eapply Forall_impl; [|exact H].
      intros p (e0 & H0 & Hp). exists e0. split; [right; assumption | assumption]. }
    destruct (fix_unused_variable (file e) (line e) (var e) w) as [[|] w1|ex w1].
    + destruct (IH (S k) w1) as (ws & E & F & C).
      exists (join_path project_root (file e) :: ws).
      split; [rewrite E, Hw, <- app_assoc; reflexivity|]. split.
      * constructor; [exists e; split; [left|]; reflexivity | apply Hin; assumption].
      * intros n w' H. rewrite (C n w' H). simpl. lia.
    + destruct (IH k w1) as (ws & E & F & C).
      exists ws. split; [rewrite E, Hw; reflexivity|].
      split; [apply Hin; assumption | exact C].
    + exists []. cbn [final]. rewrite app_nil_r. split; [exact Hw|].
      split; [constructor | discriminate].
Qed.

Lemma fix_files_writes (items : list (string * list error)) :
  forall (k : nat) (w : world),
  exists ws,
    writes (final (fix_files items k w)) = (writes w ++ ws)%list /\
    Forall (fun p => exists e, In e (flat_map snd items) /\
                               p = join_path project_root (file e)) ws /\
    (forall n w', fix_files items k w = Ok n w' -> n = k + List.length ws).
Proof.
  induction items as [|[fp es] items IH]; intros k w.
  - exists []. simpl. rewrite app_nil_r. split; [reflexivity|].
    split; [constructor|]. intros n w' H. injection H as <- _. lia.
  - simpl fix_files. unfold bind at 1. unfold print. unfold bind.
    match goal with
    | |- context [fix_errors ?a ?b ?c] =>
        destruct (fix_errors_writes a b c) as (w1s & E1 & F1 & C1);
        destruct (fix_errors a b c) as [n1 w1|ex w1] eqn:Efe
    end.
    + specialize (C1 n1 w1 eq_refl). cbn [final writes] in E1.
      destruct (IH n1 w1) as (w2s & E2 & F2 & C2).
      exists (w1s ++ w2s)%list. split; [rewrite E2, E1, app_assoc; reflexivity|].
      split.
      * apply Forall_app. split.
        -- eapply Forall_impl; [|exact F1]. intros p (e & He & Hp).
           exists e. split; [|assumption]. cbn [flat_map snd]. apply in_or_app. left.
           eapply Permutation_in; [apply sorted_perm | exact He].
        -- eapply Forall_impl; [|exact F2]. intros p (e & He & Hp).
           exists e. split; [|assumption]. cbn [flat_map snd]. apply in_or_app.
           right. assumption.
      * intros n w' H. rewrite (C2 n w' H), C1, length_app. lia.
    + exists w1s. cbn [final writes] in *. split; [exact E1|].
      split; [|discriminate].
      eapply Forall_impl; [|exact F1]. intros p (e & He & Hp).
      exists e. split; [|assumption]. cbn [flat_map snd]. apply in_or_app. left.
      eapply Permutation_in; [apply sorted_perm | exact He].
Qed.

(** The files [main] writes are files of diagnostics, and when [main]
    returns after the loops the count it reports is the number of files it
    wrote. *)
Lemma main_writes (build : world -> string) (w : world) :
  exists ws,
    writes (final (main build w)) = (writes w ++ ws)%list /\
    Forall (fun p => exists e,
               In e (parse_ts_errors
                       (build (after_print w "Analyzing TypeScript errors..."))) /\
               p = join_path project_root (file e)) ws /\
    (forall n w', main build w = Ok n w' ->
       parse_ts_errors (build (after_print w "Analyzing TypeScript errors...")) <> [] ->
       In (fixed_report (List.length ws)) (console w')).
Proof.
  rewrite main_eq. cbv zeta.
  destruct (parse_ts_errors _) as [|e es] eqn:E.
  - exists []. cbn [final writes after_print]. rewrite app_nil_r.
    split; [reflexivity|]. split; [constructor|]. intros n w' _ H. congruence.
  - match goal with
    | |- context [fix_files ?a ?b ?c] =>
        destruct (fix_files_writes a b c) as (ws & E1 & F1 & C1);
        destruct (fix_files a b c) as [n1 w1|ex w1] eqn:Eff
    end.
    + specialize (C1 n1 w1 eq_refl). simpl in C1. subst n1.
      exists ws. cbn [final writes after_print] in *. split; [exact E1|]. split.
      * eapply Forall_impl; [|exact F1]. intros p (e0 & He & Hp).
        exists e0. split; [|assumption].
        destruct (group_by_file_ok (e :: es)) as [_ Hp2].
        eapply Permutation_in; [exact Hp2|].
        eapply Permutation_in; [|exact He].
        apply Permutation_flat_map. apply sorted_perm.
      * intros n w' H _. injection H as _ <-. cbn [console after_print].
        apply in_or_app. left. apply in_or_app. left. apply in_or_app. right.
        left. reflexivity.
    + exists ws. cbn [final writes after_print] in *. split; [exact E1|].
      split; [|discriminate].
      eapply Forall_impl; [|exact F1]. intros p (e0 & He & Hp).
      exists e0. split; [|assumption].
      destruct (group_by_file_ok (e :: es)) as [_ Hp2].
      eapply Permutation_in; [exact Hp2|].
      eapply Permutation_in; [|exact He].
      apply Permutation_flat_map. apply sorted_perm.
Qed.

(** Whatever the build prints and whatever the files hold, every file a run
    writes is the file of a collected diagnostic: its path is the project
    root, the component [src], and the components of the rest of the
    diagnostic's path, without the empty ones and the ones that are [.].
    A component [..] is kept, so the host can resolve the path to a place
    outside [src]. *)
Theorem main_writes_only_diagnostic_files (build : world -> string) (w : world) :
  exists ws,
    writes (final (main build w)) = (writes w ++ ws)%list /\
    Forall (fun p => exists e q,
               In e (parse_ts_errors
                       (build (after_print w "Analyzing TypeScript errors..."))) /\
               file e = "src/" ++ q /\
               p = join_path project_root (file e) /\
               p = project_root ++ "/" ++ String.concat "/" ("src" :: parts q)) ws.
Proof.
  destruct (main_writes build w) as (ws & E & F & _).
  exists ws. split; [exact E|].
  eapply Forall_impl; [|exact F]. intros p (e & He & ->).
  pose proof (occurrences_record_ok _ _ (parse_ts_errors_sound
    (build (after_print w "Analyzing TypeScript errors...")))) as Hok.
  rewrite Forall_forall in Hok. destruct (Hok e He) as ((q & Hq & _) & _).
  exists e, q. split; [exact He|]. split; [exact Hq|]. split; [reflexivity|].
  rewrite Hq. reflexivity.
Qed.

(** When a run with diagnostics returns, the number it reports as fixed is
    the number of times it wrote a file. *)
Theorem fixed_count_is_number_of_writes
  (build : world -> string) (w w' : world) (n : Z) :
  main build w = Ok n w' ->
  parse_ts_errors (build (after_print w "Analyzing TypeScript errors...")) <> [] ->
  In (fixed_report (List.length (writes w') - List.length (writes w))) (console w').
Proof.
  intros H Hne. destruct (main_writes build w) as (ws & E & _ & C).
  rewrite H in E. cbn [final] in E. rewrite E, length_app.
  replace (List.length (writes w) + List.length ws - List.length (writes w))
    with (List.length ws) by lia.
  apply (C n w' H Hne).
Qed.

(** ** Grouping by file and sorting by line *)

Lemma dict_get_append (d : list (string * list error)) (k : string) (e : error)
  (k' : string) :
  dict_get (dict_append d k e) k' =
  if String.eqb k k' then (dict_get d k' ++ [e])%list else dict_get d k'.
Proof.
  induction d as [|[k0 es] d IH]; simpl.
  - destruct (String.eqb k k'); reflexivity.
  - destruct (String.eqb k0 k) eqn:E0; simpl.
    + apply String.eqb_eq in E0. subst k0.
      destruct (String.eqb k k'); reflexivity.
    + destruct (String.eqb k0 k') eqn:E1; [|exact IH].
      apply String.eqb_eq in E1. subst k0. rewrite String.eqb_sym, E0. reflexivity.
Qed.

Lemma dict_get_fold (errors : list error) : forall d k,
  dict_get (fold_left (fun d e => dict_append d (file e) e) errors d) k
  = (dict_get d k ++ errors_of_file k errors)%list.
Proof.
  induction errors as [|e errors IH]; intros d k; simpl.
  - rewrite app_nil_r. reflexivity.
  - rewrite IH, dict_get_append.
    destruct (String.eqb (file e) k); [rewrite <- app_assoc|]; reflexivity.
Qed.

Lemma dict_get_in (d : list (string * list error)) (k : string) (es : list error) :
  NoDup (map fst d) -> In (k, es) d -> dict_get d k = es.
Proof.
  induction d as [|[k0 es0] d IH]; simpl; intros Hn Hin; [contradiction|].
  inversion Hn as [|? ? Hk Hn']; subst.
  destruct Hin as [Hin|Hin].
  - injection Hin as -> ->. rewrite String.eqb_refl. reflexivity.
  - destruct (String.eqb k0 k) eqn:E; [|apply IH; assumption].
    apply String.eqb_eq in E. subst k0. exfalso. apply Hk.
    change k with (fst (k, es)). apply in_map. assumption.
Qed.

Lemma dict_append_nonempty (d : list (string * list error)) (k : string) (e : error) :
  Forall (fun item => snd item <> []) d ->
  Forall (fun item => snd item <> []) (dict_append d k e).
Proof.
  induction 1 as [|[k0 es] d H0 H IH]; simpl.
  - constructor; [discriminate | constructor].
  - destruct (String.eqb k0 k).
    + constructor; [|assumption]. simpl. destruct es; discriminate.
    + constructor; assumption.
Qed.

Lemma group_by_file_nonempty (errors : list error) :
  Forall (fun item => snd item <> []) (group_by_file errors).
Proof.
  unfold group_by_file.
  assert (G : forall d, Forall (fun item : string * list error => snd item <> []) d ->
              Forall (fun item => snd item <> [])
                     (fold_left (fun d e => dict_append d (file e) e) errors d)).
  { induction errors as [|e errors IH]; intros d Hd; simpl; [assumption|].
    apply IH. apply dict_append_nonempty. assumption. }
  apply G. constructor.
Qed.

(** The dictionary [main] builds has one entry per file that has a
    diagnostic: its keys are distinct, no entry is empty, and the entry of a
    file holds exactly the diagnostics of that file, in the order of the
    build output. *)
Theorem group_by_file_partitions (errors : list error) :
  NoDup (map fst (group_by_file errors)) /\
  (forall k es, In (k, es) (group_by_file errors) ->
                es <> [] /\ es = errors_of_file k errors) /\
  (forall e, In e errors -> In (file e) (map fst (group_by_file errors))).
Proof.
  destruct (group_by_file_ok errors) as [[Hn Hf] Hp].
  split; [exact Hn|]. split.
  - intros k es Hin. split.
    + pose proof (group_by_file_nonempty errors) as H.
      rewrite Forall_forall in H. apply (H (k, es) Hin).
    + rewrite <- (dict_get_in _ k es Hn Hin).
      unfold group_by_file. rewrite dict_get_fold. reflexivity.
  - intros e He.
    apply (Permutation_in _ (Permutation_sym Hp)) in He.
    apply in_flat_map in He. destruct He as (it & Hit & He).
    rewrite Forall_forall in Hf. specialize (Hf it Hit).
    rewrite Forall_forall in Hf. rewrite (Hf e He). apply in_map. assumption.
Qed.

Lemma insert_sorted_on_line (n : Z) (x : error) (es : list error) :
  errors_on_line n (insert_sorted (fun a b => (line b <=? line a)%Z) x es)
  = errors_on_line n (x :: es).
Proof.
  unfold errors_on_line. induction es as [|y es IH]; [reflexivity|].
  cbn [insert_sorted]. destruct (line y <=? line x)%Z eqn:E; [reflexivity|].
  cbn [filter] in *. rewrite IH. apply Z.leb_gt in E.
  destruct (line y =? n)%Z eqn:Ey, (line x =? n)%Z eqn:Ex; try reflexivity.
  apply Z.eqb_eq in Ey, Ex. lia.
Qed.

(** Sorting the diagnostics of a file by line number keeps the diagnostics
    of one line in the order they had: the sort is stable although it is
    reversed. *)
Theorem sorted_by_line_desc_stable (n : Z) (es : list error) :
  errors_on_line n (sorted_by_line_desc es) = errors_on_line n es.
Proof.
  unfold sorted_by_line_desc, sorted. induction es as [|x es IH]; [reflexivity|].
  cbn [fold_right]. rewrite insert_sorted_on_line.
  unfold errors_on_line in *. cbn [filter]. rewrite IH. reflexivity.
Qed.

(** ** The Diagnostic Collector on the output of the compiler *)

Lemma contains_cons_false (n : string) (ch : ascii) (t : string) :
  contains n (String ch t) = false ->
  String.prefix n (String ch t) = false /\ contains n t = false.
Proof.
  change (contains n (String ch t))
    with (String.prefix n (String ch t) || contains n t).
  intros H. apply orb_false_iff in H. exact H.
Qed.

Lemma no_diagnostic_in_quiet (ch : ascii) (t rest : string) :
  String.prefix "src/" (String ch t) = false ->
  last_of (String ch t) None = Some LF ->
  forall f l c v s1, diag_shape f l c v ->
                     String ch (t ++ rest) <> diag_text f l c v ++ s1.
Proof.
  intros Hp Hl f l c v s1 ((q & -> & _) & _) E.
  unfold diag_text in E. simpl in E. injection E as -> E.
  destruct t as [|c2 t]; [simpl in Hl; discriminate|].
  simpl in E. injection E as -> E.
  destruct t as [|c3 t]; [simpl in Hl; discriminate|].
  simpl in E. injection E as -> E.
  destruct t as [|c4 t]; [simpl in Hl; discriminate|].
  simpl in E. injection E as -> E.
  simpl in Hp. destruct t; discriminate.
Qed.

Lemma parse_ts_errors_quiet (t : string) : forall rest,
  quiet t -> parse_ts_errors (t ++ rest) = parse_ts_errors rest.
Proof.
  induction t as [|ch t IH]; intros rest [Hc Hl]; [reflexivity|].
  apply contains_cons_false in Hc. destruct Hc as [Hp Hc].
  destruct Hl as [Hl|Hl]; [discriminate|].
  simpl append. rewrite parse_ts_errors_skip.
  - apply IH. split; [assumption|].
    destruct t as [|c2 t]; [left; reflexivity | right; exact Hl].
  - apply no_diagnostic_in_quiet; assumption.
Qed.

(** On an output made of diagnostics in the form the compiler prints them,
    each followed by text that holds no [src/] and ends its line, the
    Diagnostic Collector returns one record per diagnostic, with its path,
    line, column and identifier, in the order of the output. Text before the
    first diagnostic is skipped under the same condition. *)
Theorem collector_reads_compiler_output (pre : string) (ds : list report) :
  quiet pre -> Forall report_ok ds ->
  parse_ts_errors (pre ++ String.concat "" (map report_text ds))
  = map report_error ds.
Proof.
  intros Hpre Hds. rewrite parse_ts_errors_quiet by assumption. clear pre Hpre.
  induction Hds as [|[[[[f l] c] v] t] ds [Hsh Hq] _ IH]; [reflexivity|].
  cbn [map]. rewrite concat_nil_cons. cbn [report_text report_error].
  rewrite append_assoc, parse_ts_errors_here by assumption.
  rewrite parse_ts_errors_quiet by assumption. rewrite IH. reflexivity.
Qed.

(** ** Lines the rewrite leaves alone, and lines it has rewritten *)

Lemma contains_app_l (n a b : string) :
  contains n a = true -> contains n (a ++ b) = true.
Proof.
  rewrite !contains_spec. intros (x & y & ->). exists x, (y ++ b).
  rewrite !append_assoc. reflexivity.
Qed.

Lemma contains_app_r (n a b : string) :
  contains n b = true -> contains n (a ++ b) = true.
Proof.
  rewrite !contains_spec. intros (x & y & ->). exists (a ++ x), y.
  rewrite !append_assoc. reflexivity.
Qed.

Lemma contains_refl (n : string) : contains n n = true.
Proof. apply contains_spec. exists "", "". rewrite append_nil_r. reflexivity. Qed.

Lemma run_mentions {R : Type} (v : string) (r : regex) :
  forall (st : mstate) (k : mstate -> option R) res,
    mentions v r -> run r st k = Some res ->
    exists x st', rest st = x ++ rest st' /\ k st' = Some res /\
                  contains v x = true.
Proof.
  induction r as [l|f|f| |a IHa b IHb|a IHa b IHb|n a IHa]; intros st k res Hm H;
    cbn [mentions] in Hm; try contradiction.
  - apply run_Lit_inv in H. destruct H as (s' & E & H).
    exists l, (MState (last_of l (prev st)) s' (caps st)).
    split; [exact E|]. split; assumption.
  - rewrite run_Seq in H. destruct Hm as [Hm|Hm].
    + apply (IHa _ _ _ Hm) in H. destruct H as (x1 & st1 & E1 & H & C).
      apply run_inv in H. destruct H as (x2 & st2 & E2 & _ & H & _).
      exists (x1 ++ x2), st2. split; [rewrite E1, E2, append_assoc; reflexivity|].
      split; [exact H | apply contains_app_l; exact C].
    + apply run_inv in H. destruct H as (x1 & st1 & E1 & _ & H & _).
      apply (IHb _ _ _ Hm) in H. destruct H as (x2 & st2 & E2 & H & C).
      exists (x1 ++ x2), st2. split; [rewrite E1, E2, append_assoc; reflexivity|].
      split; [exact H | apply contains_app_r; exact C].
  - destruct Hm as [Ha Hb]. apply run_Alt_inv in H.
    destruct H as [H|H]; [apply (IHa _ _ _ Ha H) | apply (IHb _ _ _ Hb H)].
  - rewrite run_Group in H. apply (IHa _ _ _ Hm) in H.
    destruct H as (x & st1 & E & H & C).
    exists x, (MState (prev st1) (rest st1)
                      ((n, consumed (rest st) (rest st1)) :: caps st1)).
    split; [exact E|]. split; assumption.
Qed.

Lemma match_at_mentions (v : string) (r : regex) (p : option ascii) (s : string)
  (adv : bool) (cs : captures) (s1 : string) :
  mentions v r -> match_at r p s adv = Some (cs, s1) -> contains v s = true.
Proof.
  unfold match_at. intros Hm H. apply (run_mentions v r _ _ _ Hm) in H.
  destruct H as (x & st' & E & _ & C). cbn [rest] in E. rewrite E.
  apply contains_app_l. exact C.
Qed.

Lemma scan_without (v : string) (r : regex) : mentions v r ->
  forall s p skip, contains v s = false -> found (scan r p s skip) = [].
Proof.
  intros Hm. induction s as [|c s IH]; intros p skip Hc.
  - destruct skip as [|n]; [|reflexivity]. rewrite scan_0.
    destruct (match_at r p "" false) as [[cs s1]|] eqn:E; [|reflexivity].
    apply (match_at_mentions v r _ _ _ _ _ Hm) in E. congruence.
  - pose proof (contains_cons_false _ _ _ Hc) as [_ Hc'].
    destruct skip as [|n].
    + rewrite scan_0.
      destruct (match_at r p (String c s) false) as [[cs s1]|] eqn:E.
      * apply (match_at_mentions v r _ _ _ _ _ Hm) in E. congruence.
      * cbn [found flat_map app]. apply IH. assumption.
    + rewrite scan_skip. apply IH. assumption.
Qed.

(** A scan that finds no match copies the text. *)
Lemma scan_no_found (r : regex) (t : template) : forall s p skip,
  found (scan r p s skip) = [] ->
  render_all t (scan r p s skip) = drop_chars skip s.
Proof.
  induction s as [|c s IH]; intros p skip H.
  - destruct skip as [|n]; [|reflexivity]. rewrite scan_0 in *.
    destruct (match_at r p "" false) as [[cs s1]|]; [discriminate | reflexivity].
  - destruct skip as [|n].
    + rewrite scan_0 in *.
      destruct (match_at r p (String c s) false) as [[cs s1]|]; [discriminate|].
      cbn [found flat_map app] in H. rewrite render_all_cons, (IH _ _ H).
      destruct s; reflexivity.
    + rewrite scan_skip in *. apply IH. assumption.
Qed.

Lemma sub_without (v : string) (r : regex) (t : template) (s : string) :
  mentions v r -> contains v s = false -> sub r t s = s.
Proof.
  intros Hm Hc. unfold sub. fold (render_all t (scan r None s 0)).
  rewrite scan_no_found; [destruct s; reflexivity|].
  apply (scan_without v r Hm). assumption.
Qed.

Lemma patterns_mention (v : string) :
  Forall (fun pr => mentions v (fst pr)) (patterns_and_replacements v).
Proof.
  pose proof (contains_refl v) as Hv. each_pattern.
  - unfold import_pattern. cbn [seq mentions]. right. left. exact Hv.
  - unfold destructuring_pattern. cbn [seq mentions]. right. right. left. exact Hv.
  - unfold declaration_pattern. cbn [seq mentions]. right. right. right. left.
    exact Hv.
  - unfold parameter_pattern. cbn [seq mentions]. right. right. right. left.
    exact Hv.
  - unfold annotated_pattern. cbn [seq mentions]. right. left. exact Hv.
Qed.

Lemma first_change_without (v line : string) :
  contains v line = false ->
  first_change (patterns_and_replacements v) line = None.
Proof.
  intros Hc. pose proof (patterns_mention v) as Hm.
  induction Hm as [|[r t] prs Hr _ IH]; [reflexivity|].
  cbn [first_change]. cbn [fst] in Hr.
  rewrite (sub_without v r t line Hr Hc), String.eqb_refl. exact IH.
Qed.

(** For an identifier made of word characters: where the referenced line
    does not contain the identifier, no pattern applies, and the Line
    Patcher returns False and leaves the file alone. *)
Theorem line_without_identifier_not_fixed
  (file_path : string) (line_num : Z) (var_name : string) (w : world)
  (text line : string) :
  plain_identifier var_name = true ->
  files w (join_path project_root file_path) = Some text ->
  line_at (lines_of text) line_num = Some line ->
  contains var_name line = false ->
  exists w', fix_unused_variable file_path line_num var_name w = Ok false w' /\
             files w' = files w /\ writes w' = writes w.
Proof.
  intros _ Hf Hl Hc. rewrite fix_unused_variable_eq. cbv zeta. rewrite Hf.
  destruct (line_num >? Z.of_nat (List.length (lines_of text)))%Z.
  - eexists. split; [reflexivity|]. split; reflexivity.
  - unfold line_at in Hl.
    destruct (py_pos (lines_of text) (line_num - 1)) as [i|]; [|discriminate].
    rewrite Hl, (first_change_without var_name line Hc).
    destruct (contains ("_" ++ var_name) line);
      eexists; (split; [reflexivity|]); split; reflexivity.
Qed.

Lemma render_all_found (t : template) (cs : captures) (ps : list piece) :
  In (Found cs) ps -> exists a b, render_all t ps = a ++ expand t cs ++ b.
Proof.
  intros H. apply in_split in H. destruct H as (l1 & l2 & ->).
  exists (render_all t l1), (render_all t l2).
  rewrite render_all_app, render_all_cons. reflexivity.
Qed.

Lemma expand_writes (lit : string) (t : template) (cs : captures) :
  template_writes lit t -> contains lit (expand t cs) = true.
Proof.
  unfold expand. induction 1 as [i t Hi|i t _ IH]; cbn [map];
    rewrite concat_nil_cons.
  - destruct i as [l|n]; [|contradiction]. apply contains_app_l. exact Hi.
  - apply contains_app_r. exact IH.
Qed.

Lemma sub_changed_writes (lit : string) (r : regex) (t : template) (s : string) :
  template_writes lit t -> sub r t s <> s -> contains lit (sub r t s) = true.
Proof.
  intros Ht Hne. unfold sub in *. fold (render_all t (scan r None s 0)) in *.
  destruct (found (scan r None s 0)) as [|cs fs] eqn:F.
  - exfalso. apply Hne. rewrite scan_no_found by assumption. destruct s; reflexivity.
  - assert (Hin : In (Found cs) (scan r None s 0)).
    { assert (H : In cs (found (scan r None s 0))) by (rewrite F; left; reflexivity).
      unfold found in H. apply in_flat_map in H. destruct H as (x & Hx & H).
      destruct x as [c|cs']; [contradiction|].
      destruct H as [->|[]]. exact Hx. }
    destruct (render_all_found t cs _ Hin) as (a & b & ->).
    apply contains_app_r, contains_app_l, expand_writes. exact Ht.
Qed.

Lemma templates_write_underscore (v : string) :
  Forall (fun pr => template_writes ("_" ++ v) (snd pr)) (patterns_and_replacements v).
Proof.
  pose proof (contains_refl ("_" ++ v)) as Hv.
  unfold template_writes. each_pattern.
  - apply Exists_cons_hd. exact Hv.
  - apply Exists_cons_tl, Exists_cons_tl, Exists_cons_hd. exact Hv.
  - apply Exists_cons_tl, Exists_cons_hd.
    apply (contains_app_r ("_" ++ v) " " ("_" ++ v)). exact Hv.
  - apply Exists_cons_tl, Exists_cons_tl, Exists_cons_hd. exact Hv.
  - apply Exists_cons_hd.
    rewrite <- (append_assoc "_" v ":"). apply contains_app_l. exact Hv.
Qed.

Lemma first_change_writes_underscore (v line new_line : string) :
  first_change (patterns_and_replacements v) line = Some new_line ->
  contains ("_" ++ v) new_line = true.
Proof.
  intros H. destruct (first_change_some _ _ _ H) as (r & t & Hin & -> & Hne).
  pose proof (templates_write_underscore v) as Ht.
  rewrite Forall_forall in Ht. apply (sub_changed_writes _ r t line (Ht _ Hin) Hne).
Qed.

Lemma py_pos_length {A : Type} (l l' : list A) (i : Z) :
  List.length l = List.length l' -> py_pos l i = py_pos l' i.
Proof. unfold py_pos. intros ->. reflexivity. Qed.

(** A fix is not repeated: right after a call that returned True, the same
    call returns False and writes nothing, because the line it rewrote now
    holds the identifier with its underscore. *)
Theorem fixed_call_is_not_repeated
  (file_path : string) (line_num : Z) (var_name : string) (w w' : world) :
  plain_identifier var_name = true ->
  fix_unused_variable file_path line_num var_name w = Ok true w' ->
  exists w'', fix_unused_variable file_path line_num var_name w' = Ok false w'' /\
              files w'' = files w' /\ writes w'' = writes w'.
Proof.
  intros Hv H. rewrite fix_unused_variable_eq in H. cbv zeta in H.
  destruct (files w (join_path project_root file_path)) as [text|]; [|discriminate].
  destruct (line_num >? Z.of_nat (List.length (lines_of text)))%Z eqn:G;
    [discriminate|].
  destruct (py_pos (lines_of text) (line_num - 1)) as [i|] eqn:Hi; [|discriminate].
  destruct (nth_error (lines_of text) i) as [line|] eqn:Hn; [|discriminate].
  destruct (contains ("_" ++ var_name) line); [discriminate|].
  destruct (first_change (patterns_and_replacements var_name) line)
    as [new_line|] eqn:Hfc; [|discriminate].
  injection H as <-.
  destruct (rewrite_reads_back var_name text line new_line i Hv Hn Hfc)
    as [Hcr Hback].
  set (text' := String.concat "" (set_nth (lines_of text) i new_line)) in *.
  assert (Hlines : lines_of text' = set_nth (lines_of text) i new_line).
  { unfold lines_of at 1. rewrite (universal_newlines_id text' Hcr). exact Hback. }
  rewrite fix_unused_variable_eq. cbv zeta.
  cbn [files written logged]. rewrite String.eqb_refl. fold text'.
  rewrite Hlines, set_nth_length, G.
  rewrite (py_pos_length _ (lines_of text) _ (set_nth_length _ _ _)), Hi.
  rewrite set_nth_same by (eapply py_pos_lt; eassumption).
  rewrite (first_change_writes_underscore _ _ _ Hfc).
  eexists. split; [reflexivity|]. split; reflexivity.
Qed.

(** ** The Import, Parameter and Type-annotated patterns *)

Lemma boundary_before_identifier (v s : string) (p : option ascii) :
  plain_identifier v = true -> at_boundary p (v ++ s) = true -> word_at p = false.
Proof.
  intros Hv. destruct (plain_identifier_spec v Hv) as [Hne Hw].
  destruct v as [|c v]; [congruence|].
  rewrite all_chars_cons in Hw. apply andb_true_iff in Hw. destruct Hw as [Hc _].
  unfold at_boundary. simpl. rewrite Hc. destruct (word_at p); [discriminate|].
  reflexivity.
Qed.

Lemma boundary_after_identifier (v s : string) (p : option ascii) :
  plain_identifier v = true -> at_boundary (last_of v p) s = true ->
  word_at (next_char s) = false.
Proof.
  intros Hv. unfold at_boundary. rewrite (word_at_last_identifier v p Hv).
  destruct (word_at (next_char s)); [discriminate | reflexivity].
Qed.

(** Every match of the Import pattern is the identifier as a whole word (no
    word character before it), whitespace, and a comma or a closing brace;
    the rewrite puts an underscore before the identifier and keeps the
    whitespace and the delimiter as they are. *)
Theorem import_rewrite (v : string) (p : option ascii) (s : string) (adv : bool)
  (cs : captures) (s1 : string) :
  plain_identifier v = true ->
  match_at (import_pattern v) p s adv = Some (cs, s1) ->
  exists ws d,
    all_chars is_space ws = true /\ (d = "," \/ d = "}") /\
    s = v ++ ws ++ d ++ s1 /\ word_at p = false /\
    expand (import_replacement v) cs = "_" ++ v ++ ws ++ d.
Proof.
  intros Hv. unfold match_at, import_pattern. cbn [seq].
  set (kf := fun st : mstate =>
               if adv && (String.length (rest st) =? String.length s)%nat
               then None else Some (caps st, rest st)).
  intros H.
  rewrite run_Seq in H. apply run_WordB_inv in H. cbn [prev rest] in H.
  destruct H as [B1 H].
  rewrite run_Seq in H. apply run_Lit_inv in H. cbn [prev rest caps] in H.
  destruct H as (s2 & E1 & H).
  rewrite run_Seq in H. apply run_WordB_inv in H. destruct H as [_ H].
  rewrite run_Group in H. cbn [prev rest caps] in H.
  assert (K : exists ws d s4,
             all_chars is_space ws = true /\ (d = "," \/ d = "}") /\
             s2 = ws ++ d ++ s4 /\
             kf (MState (last_of d (last_of ws (last_of v p))) s4
                        [(1, consumed s2 s4)]) = Some (cs, s1)).
  { apply run_Alt_inv in H. destruct H as [H|H];
      rewrite run_Seq in H; apply run_Star_inv in H; cbn [prev rest caps] in H;
      destruct H as (ws & s3 & E2 & Hws & H);
      apply run_Lit_inv in H; cbn [prev rest caps] in H;
      destruct H as (s4 & E3 & H).
    - exists ws, ",", s4. split; [assumption|]. split; [left; reflexivity|].
      split; [rewrite E2, E3; reflexivity | exact H].
    - exists ws, "}", s4. split; [assumption|]. split; [right; reflexivity|].
      split; [rewrite E2, E3; reflexivity | exact H]. }
  destruct K as (ws & d & s4 & Hws & Hd & E2 & K).
  subst kf. apply match_end_inv in K. cbn [caps rest] in K. destruct K as [-> ->].
  exists ws, d. split; [assumption|]. split; [assumption|].
  split; [rewrite E1, E2; reflexivity|].
  split; [apply (boundary_before_identifier v s2); [assumption|]; rewrite <- E1; exact B1|].
  assert (C : consumed s2 s4 = ws ++ d).
  { rewrite E2, <- append_assoc. apply consumed_app. }
  unfold import_replacement, expand. cbn. rewrite C. reflexivity.
Qed.

Lemma import_rewrite_witness :
  exists ws d,
    all_chars is_space ws = true /\ (d = "," \/ d = "}") /\
    "Bar } from 'x'" = "Bar" ++ ws ++ d ++ " from 'x'" /\
    word_at (Some " "%char) = false /\
    expand (import_replacement "Bar") [(1, " }")] = "_" ++ "Bar" ++ ws ++ d.
Proof.
  apply (import_rewrite "Bar" (Some " "%char) "Bar } from 'x'" false
           [(1, " }")] " from 'x'"); reflexivity.
Defined.

(** For an identifier made of word characters: every match of the Parameter
    pattern is an opening parenthesis, text without a closing parenthesis,
    and the identifier as a whole word; the rewrite keeps the parenthesis and
    the text before the identifier and puts an underscore before the
    identifier. *)
Theorem parameter_rewrite (v : string) (p : option ascii) (s : string) (adv : bool)
  (cs : captures) (s1 : string) :
  plain_identifier v = true ->
  match_at (parameter_pattern v) p s adv = Some (cs, s1) ->
  exists pre,
    all_chars (is_not ")") pre = true /\
    s = "(" ++ pre ++ v ++ s1 /\
    word_at (last_of pre (Some "("%char)) = false /\
    word_at (next_char s1) = false /\
    expand (parameter_replacement v) cs = "(" ++ pre ++ "_" ++ v.
Proof.
  intros Hv. unfold match_at, parameter_pattern. cbn [seq].
  set (kf := fun st : mstate =>
               if adv && (String.length (rest st) =? String.length s)%nat
               then None else Some (caps st, rest st)).
  intros H.
  rewrite run_Seq in H. apply run_Lit_inv in H. cbn [prev rest caps] in H.
  destruct H as (s2 & E1 & H).
  rewrite run_Seq, run_Group in H. apply run_Star_inv in H.
  cbn [prev rest caps] in H. destruct H as (pre & s3 & E2 & Hpre & H).
  rewrite E2, consumed_app in H.
  rewrite run_Seq in H. apply run_WordB_inv in H. cbn [prev rest] in H.
  destruct H as [B1 H].
  rewrite run_Seq in H. apply run_Lit_inv in H. cbn [prev rest caps] in H.
  destruct H as (s4 & E3 & H).
  apply run_WordB_inv in H. cbn [prev rest] in H. destruct H as [B2 H].
  subst kf. apply match_end_inv in H. cbn [caps rest] in H. destruct H as [-> ->].
  exists pre. split; [assumption|].
  split; [rewrite E1, E2, E3; reflexivity|].
  split; [apply (boundary_before_identifier v s4); [assumption|];
          rewrite <- E3; exact B1|].
  split; [apply (boundary_after_identifier v s4 _ Hv B2)|].
  unfold parameter_replacement, expand. cbn. reflexivity.
Qed.

Lemma parameter_rewrite_witness :
  exists pre,
    all_chars (is_not ")") pre = true /\
    "(a, x) => a" = "(" ++ pre ++ "x" ++ ") => a" /\
    word_at (last_of pre (Some "("%char)) = false /\
    word_at (next_char ") => a") = false /\
    expand (parameter_replacement "x") [(1, "a, ")] = "(" ++ pre ++ "_" ++ "x".
Proof.
  apply (parameter_rewrite "x" None "(a, x) => a" false [(1, "a, ")] ") => a");
    reflexivity.
Defined.

(** For an identifier made of word characters: every match of the
    Type-annotated pattern is the identifier, with no word character before
    it, whitespace and a colon; the rewrite puts an underscore before the
    identifier and drops the whitespace before the colon. *)
Theorem annotated_rewrite (v : string) (p : option ascii) (s : string) (adv : bool)
  (cs : captures) (s1 : string) :
  plain_identifier v = true ->
  match_at (annotated_pattern v) p s adv = Some (cs, s1) ->
  exists ws,
    all_chars is_space ws = true /\
    s = v ++ ws ++ ":" ++ s1 /\ word_at p = false /\
    expand (annotated_replacement v) cs = "_" ++ v ++ ":".
Proof.
  intros Hv. unfold match_at, annotated_pattern. cbn [seq].
  set (kf := fun st : mstate =>
               if adv && (String.length (rest st) =? String.length s)%nat
               then None else Some (caps st, rest st)).
  intros H.
  rewrite run_Seq in H. apply run_WordB_inv in H. cbn [prev rest] in H.
  destruct H as [B1 H].
  rewrite run_Seq in H. apply run_Lit_inv in H. cbn [prev rest caps] in H.
  destruct H as (s2 & E1 & H).
  rewrite run_Seq in H. apply run_Star_inv in H. cbn [prev rest caps] in H.
  destruct H as (ws & s3 & E2 & Hws & H).
  apply run_Lit_inv in H. cbn [prev rest caps] in H. destruct H as (s4 & E3 & H).
  subst kf. apply match_end_inv in H. cbn [caps rest] in H. destruct H as [-> ->].
  exists ws. split; [assumption|].
  split; [rewrite E1, E2, E3; reflexivity|].
  split; [apply (boundary_before_identifier v s2); [assumption|];
          rewrite <- E1; exact B1|].
  unfold annotated_replacement, expand. cbn. reflexivity.
Qed.

Lemma annotated_rewrite_witness :
  exists ws,
    all_chars is_space ws = true /\
    "x  : number" = "x" ++ ws ++ ":" ++ " number" /\
    word_at (Some "("%char) = false /\
    expand (annotated_replacement "x") [] = "_" ++ "x" ++ ":".
Proof.
  apply (annotated_rewrite "x" (Some "("%char) "x  : number" false [] " number");
    reflexivity.
Defined.

(** ** Witnesses and the counts a run reports *)

Lemma fixed_count_is_number_of_writes_witness :
  In (fixed_report
        (List.length (writes (final
           (main (fun _ => "src/a.ts(1,7): error TS6133: 'x' is declared but its value is never read.")
                 (world_of [("src/a.ts", "const x = 1;" ++ nl)]))))
         - List.length (writes (world_of [("src/a.ts", "const x = 1;" ++ nl)]))))
     (console (final
        (main (fun _ => "src/a.ts(1,7): error TS6133: 'x' is declared but its value is never read.")
              (world_of [("src/a.ts", "const x = 1;" ++ nl)])))).
Proof.
  apply (fixed_count_is_number_of_writes
           (fun _ => "src/a.ts(1,7): error TS6133: 'x' is declared but its value is never read.")
           (world_of [("src/a.ts", "const x = 1;" ++ nl)]) _ 0%Z).
  - vm_compute. reflexivity.
  - vm_compute. discriminate.
Defined.

Lemma collector_reads_compiler_output_witness :
  parse_ts_errors
    ("" ++ String.concat ""
       (map report_text
          [("src/a.ts", "3", "7", "x", " is declared but its value is never read." ++ nl);
           ("src/b/c.tsx", "12", "1", "Foo", " is declared but its value is never read." ++ nl)]))
  = map report_error
      [("src/a.ts", "3", "7", "x", " is declared but its value is never read." ++ nl);
       ("src/b/c.tsx", "12", "1", "Foo", " is declared but its value is never read." ++ nl)].
Proof.
  apply (collector_reads_compiler_output ""
           [("src/a.ts", "3", "7", "x", " is declared but its value is never read." ++ nl);
            ("src/b/c.tsx", "12", "1", "Foo", " is declared but its value is never read." ++ nl)]).
  - split; [reflexivity | left; reflexivity].
  - apply Forall_cons; [|apply Forall_cons; [|apply Forall_nil]].
    + split; [|split; [reflexivity | right; reflexivity]].
      split; [exists "a.ts"; split; [reflexivity|]; split; [discriminate | reflexivity]|].
      split; [split; [discriminate | reflexivity]|].
      split; split; (discriminate || reflexivity).
    + split; [|split; [reflexivity | right; reflexivity]].
      split; [exists "b/c.tsx"; split; [reflexivity|]; split; [discriminate | reflexivity]|].
      split; [split; [discriminate | reflexivity]|].
      split; split; (discriminate || reflexivity).
Defined.

Lemma line_without_identifier_not_fixed_witness :
  exists w', fix_unused_variable "src/a.ts" 1 "foo"
               (world_of [("src/a.ts", "const bar = 1;" ++ nl)]) = Ok false w' /\
             files w' = files (world_of [("src/a.ts", "const bar = 1;" ++ nl)]) /\
             writes w' = writes (world_of [("src/a.ts", "const bar = 1;" ++ nl)]).
Proof.
  apply (line_without_identifier_not_fixed "src/a.ts" 1 "foo"
           (world_of [("src/a.ts", "const bar = 1;" ++ nl)])
           ("const bar = 1;" ++ nl) ("const bar = 1;" ++ nl)); reflexivity.
Defined.

Lemma fixed_call_is_not_repeated_witness :
  exists w'',
    fix_unused_variable "src/a.ts" 1 "x"
      (final (fix_unused_variable "src/a.ts" 1 "x"
                (world_of [("src/a.ts", "const x = 1;" ++ nl)]))) = Ok false w'' /\
    files w'' = files (final (fix_unused_variable "src/a.ts" 1 "x"
                                (world_of [("src/a.ts", "const x = 1;" ++ nl)]))) /\
    writes w'' = writes (final (fix_unused_variable "src/a.ts" 1 "x"
                                  (world_of [("src/a.ts", "const x = 1;" ++ nl)]))).
Proof.
  apply (fixed_call_is_not_repeated "src/a.ts" 1 "x"
           (world_of [("src/a.ts", "const x = 1;" ++ nl)])).
  - reflexivity.
  - vm_compute. reflexivity.
Defined.

Lemma fix_unused_variable_console
  (file_path : string) (line_num : Z) (var_name : string) (w : world) :
  console (final (fix_unused_variable file_path line_num var_name w)) = console w.
Proof.
  rewrite fix_unused_variable_eq. cbv zeta.
  destruct (files w (join_path project_root file_path)) as [text|]; [|reflexivity].
  destruct (line_num >? Z.of_nat (List.length (lines_of text)))%Z; [reflexivity|].
  destruct (py_pos (lines_of text) (line_num - 1)) as [i|]; [|reflexivity].
  destruct (nth_error (lines_of text) i) as [line|]; [|reflexivity].
  destruct (contains ("_" ++ var_name) line); [reflexivity|].
  destruct (first_change (patterns_and_replacements var_name) line); reflexivity.
Qed.

Lemma fix_errors_console (es : list error) : forall (k : nat) (w : world),
  console (final (fix_errors es k w)) = console w.
Proof.
  induction es as [|e es IH]; intros k w; [reflexivity|].
  simpl fix_errors. unfold bind.
  pose proof (fix_unused_variable_console (file e) (line e) (var e) w) as Hc.
  destruct (fix_unused_variable (file e) (line e) (var e) w) as [b w1|ex w1];
    [|exact Hc].
  rewrite IH. exact Hc.
Qed.

Lemma fix_files_console (items : list (string * list error)) :
  forall (k : nat) (w : world),
  exists out, console (final (fix_files items k w)) = (console w ++ out)%list.
Proof.
  induction items as [|[fp es] items IH]; intros k w.
  - exists []. simpl. rewrite app_nil_r. reflexivity.
  - simpl fix_files. unfold bind at 1. unfold print. unfold bind.
    match goal with
    | |- context [fix_errors ?a ?b ?c] =>
        pose proof (fix_errors_console a b c) as Hc;
        destruct (fix_errors a b c) as [n1 w1|ex w1]
    end; cbn [final console] in Hc.
    + destruct (IH n1 w1) as (out & E). rewrite E, Hc, <- app_assoc.
      eexists. reflexivity.
    + cbn [final]. rewrite Hc. eexists. reflexivity.
Qed.

(** When a run returns, the number it reports as found is the number of
    records of the Diagnostic Collector, and the Line Patcher has been called
    that many times: once for each record, none dropped by the grouping and
    the sorting. *)
Theorem found_count_is_number_of_calls
  (build : world -> string) (w w' : world) (n : Z) :
  main build w = Ok n w' ->
  In (found_report
        (List.length (parse_ts_errors
                        (build (after_print w "Analyzing TypeScript errors...")))))
     (console w') /\
  List.length (calls w') =
  List.length (calls w)
  + List.length (parse_ts_errors
                   (build (after_print w "Analyzing TypeScript errors..."))).
Proof.
  rewrite main_eq. cbv zeta.
  destruct (parse_ts_errors _) as [|e es] eqn:E.
  - intros H. injection H as _ <-. cbn [console calls after_print List.length].
    split; [|lia]. apply in_or_app. left. apply in_or_app. right. left. reflexivity.
  - match goal with
    | |- context [fix_files ?a ?b ?c] =>
        destruct (fix_files_calls a b c) as (done & rest & E1 & C1 & F1);
        destruct (fix_files_console a b c) as (out & O1);
        destruct (fix_files a b c) as [n1 w1|ex w1] eqn:Eff
    end; [|discriminate].
    intros H. injection H as _ <-.
    specialize (F1 n1 w1 eq_refl). subst rest. rewrite app_nil_r in E1.
    cbn [final console calls after_print] in *. split.
    + rewrite O1. apply in_or_app. left. apply in_or_app. left. apply in_or_app. left.
      apply in_or_app. left. apply in_or_app. left. apply in_or_app. right.
      left. reflexivity.
    + rewrite C1, length_app, length_map, <- E1.
      fold (patch_order (e :: es)).
      rewrite (Permutation_length (patch_order_perm (e :: es))). reflexivity.
Qed.

Lemma found_count_is_number_of_calls_witness :
  In (found_report
        (List.length (parse_ts_errors
           ((fun _ : world => "src/a.ts(1,7): error TS6133: 'x' is declared but its value is never read.")
              (after_print (world_of [("src/a.ts", "const x = 1;" ++ nl)])
                           "Analyzing TypeScript errors...")))))
     (console (final
        (main (fun _ => "src/a.ts(1,7): error TS6133: 'x' is declared but its value is never read.")
              (world_of [("src/a.ts", "const x = 1;" ++ nl)])))) /\
  List.length (calls (final
        (main (fun _ => "src/a.ts(1,7): error TS6133: 'x' is declared but its value is never read.")
              (world_of [("src/a.ts", "const x = 1;" ++ nl)])))) =
  List.length (calls (world_of [("src/a.ts", "const x = 1;" ++ nl)]))
  + List.length (parse_ts_errors
           ((fun _ : world => "src/a.ts(1,7): error TS6133: 'x' is declared but its value is never read.")
              (after_print (world_of [("src/a.ts", "const x = 1;" ++ nl)])
                           "Analyzing TypeScript errors..."))).
Proof.
  apply (found_count_is_number_of_calls
           (fun _ => "src/a.ts(1,7): error TS6133: 'x' is declared but its value is never read.")
           (world_of [("src/a.ts", "const x = 1;" ++ nl)]) _ 0%Z).
  vm_compute. reflexivity.
Defined.

(** ** The calls made for one file *)

Lemma filter_all_true {A : Type} (f : A -> bool) (l : list A) :
  (forall x, In x l -> f x = true) -> filter f l = l.
Proof.
  induction l as [|x l IH]; intros H; [reflexivity|]. simpl.
  rewrite (H x (or_introl eq_refl)), IH; [reflexivity|].
  intros y Hy. apply H. right. assumption.
Qed.

Lemma filter_all_false {A : Type} (f : A -> bool) (l : list A) :
  (forall x, In x l -> f x = false) -> filter f l = [].
Proof.
  induction l as [|x l IH]; intros H; [reflexivity|]. simpl.
  rewrite (H x (or_introl eq_refl)). apply IH.
  intros y Hy. apply H. right. assumption.
Qed.

Lemma dict_get_notin (d : list (string * list error)) (k : string) :
  ~ In k (map fst d) -> dict_get d k = [].
Proof.
  induction d as [|[k0 es] d IH]; simpl; intros H; [reflexivity|].
  destruct (String.eqb k0 k) eqn:E.
  - apply String.eqb_eq in E. exfalso. apply H. left. assumption.
  - apply IH. intros Hin. apply H. right. assumption.
Qed.

Lemma dict_get_perm (d d' : list (string * list error)) (k : string) :
  NoDup (map fst d) -> Permutation d d' -> dict_get d' k = dict_get d k.
Proof.
  intros Hn Hp.
  assert (Hn' : NoDup (map fst d')).
  { eapply Permutation_NoDup; [|exact Hn]. apply Permutation_map. exact Hp. }
  destruct (in_dec string_dec k (map fst d)) as [Hin|Hnin].
  - apply in_map_iff in Hin. destruct Hin as ([k0 es] & Hk & Hin).
    simpl in Hk. subst k0.
    rewrite (dict_get_in d k es Hn Hin).
    apply dict_get_in; [assumption|]. eapply Permutation_in; eassumption.
  - rewrite (dict_get_notin d k Hnin). apply dict_get_notin.
    intros Hin. apply Hnin.
    eapply Permutation_in; [|exact Hin]. apply Permutation_map.
    symmetry. exact Hp.
Qed.

Lemma errors_of_file_flat_map (k : string) (items : list (string * list error)) :
  NoDup (map fst items) ->
  Forall (fun item => Forall (fun e => file e = fst item) (snd item)) items ->
  errors_of_file k (flat_map (fun item => sorted_by_line_desc (snd item)) items)
  = sorted_by_line_desc (dict_get items k).
Proof.
  induction items as [|[k0 es] items IH]; intros Hn Hf; [reflexivity|].
  inversion Hn as [|? ? Hk Hn']; subst. inversion Hf as [|? ? H0 Hf']; subst.
  cbn [flat_map snd fst dict_get] in *. unfold errors_of_file in *.
  rewrite filter_app.
  assert (Hin : forall e, In e (sorted_by_line_desc es) -> file e = k0).
  { intros e He. rewrite Forall_forall in H0. apply H0.
    eapply Permutation_in; [apply sorted_perm | exact He]. }
  destruct (String.eqb k0 k) eqn:E.
  - apply String.eqb_eq in E. subst k0.
    rewrite filter_all_true.
    + rewrite (IH Hn' Hf'), (dict_get_notin items k Hk). apply app_nil_r.
    + intros e He. rewrite (Hin e He). apply String.eqb_refl.
  - rewrite filter_all_false; [apply IH; assumption|].
    intros e He. rewrite (Hin e He). exact E.
Qed.

(** The diagnostics of one file are visited in the order [sorted] gives to
    the diagnostics of that file, taken in the order of the build output. *)
Lemma errors_of_file_patch_order (k : string) (errors : list error) :
  errors_of_file k (patch_order errors)
  = sorted_by_line_desc (errors_of_file k errors).
Proof.
  destruct (group_by_file_ok errors) as [[Hn Hf] _].
  assert (Hp : Permutation (group_by_file errors) (sorted_items (group_by_file errors))).
  { symmetry. apply sorted_perm. }
  unfold patch_order. rewrite errors_of_file_flat_map.
  - rewrite (dict_get_perm _ _ k Hn Hp).
    unfold group_by_file. rewrite dict_get_fold. reflexivity.
  - eapply Permutation_NoDup; [|exact Hn]. apply Permutation_map. exact Hp.
  - rewrite Forall_forall in *. intros it Hit. apply Hf.
    eapply Permutation_in; [symmetry; exact Hp | exact Hit].
Qed.

Lemma sorted_on_line_fold (n : Z) (es : list error) :
  errors_on_line n
    (fold_right (insert_sorted (fun a b => (line b <=? line a)%Z)) [] es)
  = errors_on_line n es.
Proof.
  induction es as [|x es IH]; [reflexivity|].
  cbn [fold_right]. rewrite insert_sorted_on_line.
  unfold errors_on_line in *. cbn [filter]. rewrite IH. reflexivity.
Qed.


(** The calls a run makes are a prefix of the patch order, and all of it
    when the run returns. *)
Lemma main_calls (build : world -> string) (w : world) :
  let errors :=
    parse_ts_errors (build (after_print w "Analyzing TypeScript errors...")) in
  exists done rest,
    patch_order errors = (done ++ rest)%list /\
    calls (final (main build w)) = (calls w ++ map call_of done)%list /\
    (forall n w', main build w = Ok n w' -> rest = []).
Proof.
  intros errors. rewrite main_eq. cbv zeta. fold errors.
  destruct errors as [|e es] eqn:Ee.
  - exists [], []. split; [reflexivity|]. split; [|reflexivity].
    cbn [final calls after_print]. rewrite app_nil_r. reflexivity.
  - rewrite <- Ee. unfold patch_order.
    match goal with
    | |- context [fix_files ?a ?b ?c] =>
        destruct (fix_files_calls a b c) as (done & rest & E & C & F);
        destruct (fix_files a b c) as [n w1|ex w1] eqn:Eff
    end.
    + exists done, rest. split; [exact E|]. split.
      * cbn [final calls after_print] in *. exact C.
      * intros _ _ _. apply (F n w1). reflexivity.
    + exists done, rest. split; [exact E|]. split; [|discriminate].
      cbn [final calls after_print] in *. exact C.
Qed.

(** ** The claim about the order of the calls *)

(** C5, as stated, fails when two diagnostics of a file lie on one line
    (two unused names of one import): the two calls carry the same line
    number, so the order is not strictly descending. *)
Lemma same_line_diagnostics_not_strictly_descending :
  let build := fun _ : world =>
    "src/a.ts(2,10): error TS6133: 'A' is declared but its value is never read."
    ++ nl ++
    "src/a.ts(2,13): error TS6133: 'B' is declared but its value is never read."
    ++ nl in
  let w := world_of [("src/a.ts", "// imports" ++ nl ++ "import { A, B } from 'x';" ++ nl)] in
  calls (final (main build w)) = [("src/a.ts", 2%Z, "A"); ("src/a.ts", 2%Z, "B")] /\
  strictly_descending (map (fun c => snd (fst c)) (calls (final (main build w)))) = false.
Proof. vm_compute. split; reflexivity. Qed.

(** C5, amended. The Line Patcher is called once per diagnostic, files in
    ascending lexicographic order of their path and, within a file, line
    numbers in descending order, diagnostics of one file and one line
    keeping the order of the build output; the calls stop early only when a
    call raises. For diagnostics on lines 5, 12 and 30 of one file the calls
    are for lines 30, 12, 5. *)
Theorem patcher_call_order (build : world -> string) (w : world) :
  let errors :=
    parse_ts_errors (build (after_print w "Analyzing TypeScript errors...")) in
  (exists done rest,
     patch_order errors = (done ++ rest)%list /\
     calls (final (main build w)) = (calls w ++ map call_of done)%list /\
     (forall n w', main build w = Ok n w' -> rest = [])) /\
  Permutation (patch_order errors) errors /\
  StronglySorted visited_before (patch_order errors) /\
  (forall k n,
     errors_on_line n (errors_of_file k (patch_order errors))
     = errors_on_line n (errors_of_file k errors)) /\
  (forall f c1 c2 c3 v1 v2 v3,
     map call_of (patch_order [Error f 5 c1 v1; Error f 12 c2 v2; Error f 30 c3 v3])
     = [(f, 30%Z, v3); (f, 12%Z, v2); (f, 5%Z, v1)]).
Proof.
  intros errors.
  split; [apply main_calls|].
  split; [apply patch_order_perm|].
  split; [apply patch_order_sorted|].
  split.
  - intros k n. rewrite errors_of_file_patch_order.
    unfold sorted_by_line_desc, sorted. apply sorted_on_line_fold.
  - intros f c1 c2 c3 v1 v2 v3.
    unfold patch_order, group_by_file.
    cbn [fold_left dict_append file]. rewrite String.eqb_refl.
    cbn [dict_append app]. rewrite String.eqb_refl. reflexivity.
Qed.

(** ** The calls a run makes for one file *)


